(** * JYManipur: the record stores behind the prayer-intention and
      prayer-challenge API

    A shallow embedding of [server/storage.ts] (the in-memory store and the
    challenge and intention tables of the Postgres-backed store), of the
    request handlers of [server/routes.ts] that decide a status code from a
    store result and of its seed, of the column defaults of
    [shared/schema.ts], and of [buildUrl] of [shared/routes.ts].

    Conventions.
    - Numbers of the program (ids, counters, targets, millisecond
      timestamps) are [Z]: the schema declares them [serial]/[integer].
      The sums the in-memory store computes on counters are JavaScript
      sums ([jsAdd]: exact up to 2^53, rounded to the nearest double
      beyond); the sums the database computes are [integer] sums, which
      fail outside the 32-bit range.
    - A JavaScript property that may be missing, [null] or present is a
      [JsOpt]; a nullable SQL column is an [option].
    - Every method of the store is a function from the store before the call
      to the result and the store after it.  [new Date()] is an input: one
      argument per reading of the clock, in evaluation order.
    - An object found by [Array.prototype.find] and then assigned to is the
      first matching element of the list, rewritten in place
      ([update_first]). *)

From Stdlib Require Import ZArith List String Ascii Bool Lia Permutation Sorted.
From Stdlib Require Decimal DecimalString.
Import ListNotations.
Open Scope string_scope.
Open Scope list_scope.
Open Scope Z_scope.

Set Implicit Arguments.

(** ** JavaScript values *)

(** A property of a request object or of a stored object: missing (reads as
    [undefined]), [null], or a value. *)
Inductive JsOpt (A : Type) : Type :=
| Undefined
| Null
| Val (a : A).
Arguments Undefined {A}.
Arguments Null {A}.
Arguments Val {A} a.

(** [if (x)] and [!!x] on a boolean-or-missing property. *)
Definition truthy (x : JsOpt bool) : bool :=
  match x with
  | Val true => true
  | _ => false
  end.

(** [n || 0] on a number: zero is falsy and is replaced by zero. *)
Definition orZero (n : Z) : Z :=
  if n =? 0 then 0 else n.

(** [x || 0] on a number-or-missing property. *)
Definition orZeroOpt (x : JsOpt Z) : Z :=
  match x with
  | Val n => orZero n
  | _ => 0
  end.

(** [Number.isSafeInteger]: an integer of magnitude below 2^53. *)
Definition safeInteger (n : Z) : Prop := - 2 ^ 53 < n < 2 ^ 53.

(** The number an integer is stored as: the nearest double, a tie going to
    the even significand.  Up to magnitude 2^53 every integer is a double;
    beyond, doubles are [ulp] apart.  (Magnitudes stay below 2^1024.) *)
Definition roundToDouble (x : Z) : Z :=
  let a := Z.abs x in
  if a <=? 2 ^ 53 then x
  else
    let ulp := 2 ^ (Z.log2 a - 52) in
    let q := a / ulp in
    let r := a mod ulp in
    let q' :=
      if 2 * r <? ulp then q
      else if ulp <? 2 * r then q + 1
      else if Z.even q then q else q + 1 in
    Z.sgn x * (q' * ulp).

(** [a + b] on numbers that are integers: the exact sum, rounded. *)
Definition jsAdd (a b : Z) : Z := roundToDouble (a + b).

(** [Object.assign] for one property: a key missing from the source object
    leaves the target's value, a key that is present overwrites it. *)
Definition assignOpt {A : Type} (old : A) (upd : option A) : A :=
  match upd with
  | Some v => v
  | None => old
  end.

Definition assignJsOpt {A : Type} (old : JsOpt A) (upd : JsOpt A) : JsOpt A :=
  match upd with
  | Undefined => old
  | _ => upd
  end.

(** ** Arrays *)

(** [const x = xs.find(p); mutate(x)]: the first element satisfying [p] is
    rewritten by [f], every other element is kept. *)
Fixpoint update_first {A : Type} (p : A -> bool) (f : A -> A) (l : list A) : list A :=
  match l with
  | [] => []
  | x :: r => if p x then f x :: r else x :: update_first p f r
  end.

(** [xs.sort(cmp)]: the sort of ECMAScript is stable, so for a comparator
    that is a difference of keys its result is the one of a stable
    insertion sort.  [cmp a b <= 0] keeps [a] in front of [b]. *)
Fixpoint insert_by {A : Type} (cmp : A -> A -> Z) (x : A) (l : list A) : list A :=
  match l with
  | [] => [x]
  | y :: r => if cmp x y <=? 0 then x :: y :: r else y :: insert_by cmp x r
  end.

Fixpoint sort_by {A : Type} (cmp : A -> A -> Z) (l : list A) : list A :=
  match l with
  | [] => []
  | x :: r => insert_by cmp x (sort_by cmp r)
  end.

(** ** Records of the in-memory store *)

(** What [createIntention] may receive: the parsed request body has
    [content], [name] and [prayerType]; the seed also passes the counters
    and [isPrinted]. *)
Module InsertIntention.
Record t : Type := mk {
  content : string;
  name : JsOpt string;
  prayerType : JsOpt string;
  hailMaryCount : JsOpt Z;
  ourFatherCount : JsOpt Z;
  rosaryCount : JsOpt Z;
  isPrinted : JsOpt bool
}.
End InsertIntention.

Module Intention.
Record t : Type := mk {
  id : Z;
  content : string;
  name : JsOpt string;
  prayerType : JsOpt string;
  hailMaryCount : Z;
  ourFatherCount : Z;
  rosaryCount : Z;
  isPrinted : bool;
  createdAt : Z;
  updatedAt : Z
}.

Definition set_hailMaryCount (n : Z) (i : t) : t :=
  mk (id i) (content i) (name i) (prayerType i) n (ourFatherCount i)
     (rosaryCount i) (isPrinted i) (createdAt i) (updatedAt i).
Definition set_ourFatherCount (n : Z) (i : t) : t :=
  mk (id i) (content i) (name i) (prayerType i) (hailMaryCount i) n
     (rosaryCount i) (isPrinted i) (createdAt i) (updatedAt i).
Definition set_rosaryCount (n : Z) (i : t) : t :=
  mk (id i) (content i) (name i) (prayerType i) (hailMaryCount i)
     (ourFatherCount i) n (isPrinted i) (createdAt i) (updatedAt i).
Definition set_isPrinted (b : bool) (i : t) : t :=
  mk (id i) (content i) (name i) (prayerType i) (hailMaryCount i)
     (ourFatherCount i) (rosaryCount i) b (createdAt i) (updatedAt i).
Definition set_updatedAt (d : Z) (i : t) : t :=
  mk (id i) (content i) (name i) (prayerType i) (hailMaryCount i)
     (ourFatherCount i) (rosaryCount i) (isPrinted i) (createdAt i) d.
End Intention.

(** What [createChallenge] may receive: the parsed request body has [title],
    [prayerType], [totalTarget] and an optional, nullable [isActive]; the
    seed also passes [currentCount]. *)
Module InsertChallenge.
Record t : Type := mk {
  title : string;
  prayerType : string;
  totalTarget : Z;
  currentCount : JsOpt Z;
  isActive : JsOpt bool
}.
End InsertChallenge.

(** [Partial<InsertChallenge>] as the update route parses it: every key may
    be missing ([None], [Undefined]); [title], [prayerType] and
    [totalTarget] are not nullable, [isActive] is. *)
Module ChallengeUpdate.
Record t : Type := mk {
  title : option string;
  prayerType : option string;
  totalTarget : option Z;
  isActive : JsOpt bool
}.
End ChallengeUpdate.

Module Challenge.
Record t : Type := mk {
  id : Z;
  title : string;
  prayerType : string;
  totalTarget : Z;
  currentCount : Z;
  isActive : JsOpt bool;
  createdAt : Z;
  updatedAt : Z
}.

Definition set_isActive (a : JsOpt bool) (c : t) : t :=
  mk (id c) (title c) (prayerType c) (totalTarget c) (currentCount c) a
     (createdAt c) (updatedAt c).
Definition set_currentCount (n : Z) (c : t) : t :=
  mk (id c) (title c) (prayerType c) (totalTarget c) n (isActive c)
     (createdAt c) (updatedAt c).
Definition set_updatedAt (d : Z) (c : t) : t :=
  mk (id c) (title c) (prayerType c) (totalTarget c) (currentCount c)
     (isActive c) (createdAt c) d.
End Challenge.

(** ** [InMemoryStorage] (storage.ts, the store used without DATABASE_URL)

    The [users] array and [userId] are left out: no method below reads or
    writes them. *)
Module InMemoryStorage.

Record t : Type := mk {
  intentions : list Intention.t;
  challenges : list Challenge.t;
  intentionId : Z;
  challengeId : Z
}.

(** The field initialisers of the class. *)
Definition empty : t := mk [] [] 1 1.

Definition set_intentions (l : list Intention.t) (s : t) : t :=
  mk l (challenges s) (intentionId s) (challengeId s).
Definition set_challenges (l : list Challenge.t) (s : t) : t :=
  mk (intentions s) l (intentionId s) (challengeId s).

(** [(i) => i.id === id] and [(c) => c.id === id]. *)
Definition intentionHasId (id : Z) (i : Intention.t) : bool :=
  Intention.id i =? id.
Definition challengeHasId (id : Z) (c : Challenge.t) : bool :=
  Challenge.id c =? id.

(** *** Intentions *)

Definition createIntention (createdNow updatedNow : Z)
    (intention : InsertIntention.t) (s : t) : Intention.t * t :=
  let newInt :=
    Intention.mk (intentionId s)
      (InsertIntention.content intention)
      (InsertIntention.name intention)
      (InsertIntention.prayerType intention)
      (orZeroOpt (InsertIntention.hailMaryCount intention))
      (orZeroOpt (InsertIntention.ourFatherCount intention))
      (orZeroOpt (InsertIntention.rosaryCount intention))
      (truthy (InsertIntention.isPrinted intention))
      createdNow updatedNow in
  (newInt,
   mk (intentions s ++ [newInt]) (challenges s) (intentionId s + 1) (challengeId s)).

(** [[...this.intentions].sort((a, b) => b.createdAt - a.createdAt)] *)
Definition getIntentions (s : t) : list Intention.t :=
  sort_by (fun a b => Intention.createdAt b - Intention.createdAt a) (intentions s).

(** The three [if]s and the [updatedAt] assignment applied to the object
    [it] that [find] returned. *)
Definition prayOn (type : string) (now : Z) (it : Intention.t) : Intention.t :=
  let it1 :=
    if String.eqb type "hailMary"
    then Intention.set_hailMaryCount (jsAdd (orZero (Intention.hailMaryCount it)) 1) it
    else it in
  let it2 :=
    if String.eqb type "ourFather"
    then Intention.set_ourFatherCount (jsAdd (orZero (Intention.ourFatherCount it1)) 1) it1
    else it1 in
  let it3 :=
    if String.eqb type "rosary"
    then Intention.set_rosaryCount (jsAdd (orZero (Intention.rosaryCount it2)) 1) it2
    else it2 in
  Intention.set_updatedAt now it3.

Definition incrementIntentionPrayer (now : Z) (id : Z) (type : string) (s : t)
    : option Intention.t * t :=
  match find (intentionHasId id) (intentions s) with
  | None => (None, s)
  | Some it =>
      (Some (prayOn type now it),
       set_intentions (update_first (intentionHasId id) (prayOn type now) (intentions s)) s)
  end.

Definition printOn (now : Z) (it : Intention.t) : Intention.t :=
  Intention.set_updatedAt now (Intention.set_isPrinted true it).

Definition markIntentionPrinted (now : Z) (id : Z) (s : t) : option Intention.t * t :=
  match find (intentionHasId id) (intentions s) with
  | None => (None, s)
  | Some it =>
      (Some (printOn now it),
       set_intentions (update_first (intentionHasId id) (printOn now) (intentions s)) s)
  end.

(** *** Challenges *)

(** [(c) => (c.isActive = false)] *)
Definition deactivate (c : Challenge.t) : Challenge.t :=
  Challenge.set_isActive (Val false) c.

Definition createChallenge (createdNow updatedNow : Z)
    (challenge : InsertChallenge.t) (s : t) : Challenge.t * t :=
  let cs :=
    if truthy (InsertChallenge.isActive challenge)
    then map deactivate (challenges s)
    else challenges s in
  let newCh :=
    Challenge.mk (challengeId s)
      (InsertChallenge.title challenge)
      (InsertChallenge.prayerType challenge)
      (InsertChallenge.totalTarget challenge)
      (orZeroOpt (InsertChallenge.currentCount challenge))
      (InsertChallenge.isActive challenge)
      createdNow updatedNow in
  (newCh, mk (intentions s) (cs ++ [newCh]) (intentionId s) (challengeId s + 1)).

Definition getChallenges (s : t) : list Challenge.t :=
  sort_by (fun a b => Challenge.createdAt b - Challenge.createdAt a) (challenges s).

(** [this.challenges.find((c) => c.isActive) || undefined] *)
Definition getActiveChallenge (s : t) : option Challenge.t :=
  find (fun c => truthy (Challenge.isActive c)) (challenges s).

(** [Object.assign(ch, updates, { updatedAt: new Date() })] *)
Definition assignUpdates (updates : ChallengeUpdate.t) (now : Z) (ch : Challenge.t)
    : Challenge.t :=
  Challenge.mk (Challenge.id ch)
    (assignOpt (Challenge.title ch) (ChallengeUpdate.title updates))
    (assignOpt (Challenge.prayerType ch) (ChallengeUpdate.prayerType updates))
    (assignOpt (Challenge.totalTarget ch) (ChallengeUpdate.totalTarget updates))
    (Challenge.currentCount ch)
    (assignJsOpt (Challenge.isActive ch) (ChallengeUpdate.isActive updates))
    (Challenge.createdAt ch)
    now.

Definition updateChallenge (now : Z) (id : Z) (updates : ChallengeUpdate.t) (s : t)
    : option Challenge.t * t :=
  match find (challengeHasId id) (challenges s) with
  | None => (None, s)
  | Some ch =>
      let clear c := if truthy (ChallengeUpdate.isActive updates) then deactivate c else c in
      (Some (assignUpdates updates now (clear ch)),
       set_challenges
         (update_first (challengeHasId id) (assignUpdates updates now)
            (map clear (challenges s))) s)
  end.

(** [this.challenges.filter((c) => c.id !== id)]; the method returns
    nothing. *)
Definition deleteChallenge (id : Z) (s : t) : t :=
  set_challenges (filter (fun c => negb (challengeHasId id c)) (challenges s)) s.

Definition countOn (amount : Z) (now : Z) (ch : Challenge.t) : Challenge.t :=
  Challenge.set_updatedAt now
    (Challenge.set_currentCount (jsAdd (orZero (Challenge.currentCount ch)) amount) ch).

Definition incrementChallenge (now : Z) (id : Z) (amount : Z) (s : t)
    : option Challenge.t * t :=
  match find (challengeHasId id) (challenges s) with
  | None => (None, s)
  | Some ch =>
      (Some (countOn amount now ch),
       set_challenges (update_first (challengeHasId id) (countOn amount now) (challenges s)) s)
  end.

End InMemoryStorage.

(** ** Request handlers (routes.ts) over the in-memory store

    [id] is [parseInt(req.params.id)]; when [parseInt] yields [NaN] no
    stored id is [===] to it, which is the case of an absent id.  Only the
    handlers whose status code depends on the store are embedded. *)
Module Routes.

Inductive Body : Type :=
| NoBody
| JsonNull
| JsonMessage (message : string)
| JsonIntention (i : Intention.t)
| JsonChallenge (c : Challenge.t).

(** [res.json(x)] answers 200; [res.status(n)] sets the code first. *)
Record Response : Type := mkResponse {
  status : Z;
  body : Body
}.

(** GET /api/challenges/active *)
Definition challenges_active (s : InMemoryStorage.t) : Response :=
  match InMemoryStorage.getActiveChallenge s with
  | Some challenge => mkResponse 200 (JsonChallenge challenge)
  | None => mkResponse 200 JsonNull
  end.

(** POST /api/challenges/:id/increment.  [amount] is [req.body.amount],
    which the handler never reads. *)
Definition challenges_increment (now : Z) (id : Z) (amount : JsOpt Z)
    (s : InMemoryStorage.t) : Response * InMemoryStorage.t :=
  let (challenge, s') := InMemoryStorage.incrementChallenge now id 1 s in
  match challenge with
  | None => (mkResponse 404 (JsonMessage "Challenge not found"), s')
  | Some c => (mkResponse 200 (JsonChallenge c), s')
  end.

(** [['hailMary', 'ourFather', 'rosary'].includes(type)] *)
Definition prayerTypes : list string := ["hailMary"; "ourFather"; "rosary"].

Definition includesType (type : JsOpt string) : bool :=
  match type with
  | Val t => existsb (String.eqb t) prayerTypes
  | _ => false
  end.

(** POST /api/intentions/:id/pray.  [type] is [req.body.type]. *)
Definition intentions_increment (now : Z) (id : Z) (type : JsOpt string)
    (s : InMemoryStorage.t) : Response * InMemoryStorage.t :=
  match type with
  | Val t =>
      if includesType type then
        let (intention, s') := InMemoryStorage.incrementIntentionPrayer now id t s in
        match intention with
        | None => (mkResponse 404 (JsonMessage "Intention not found"), s')
        | Some i => (mkResponse 200 (JsonIntention i), s')
        end
      else (mkResponse 400 (JsonMessage "Invalid prayer type"), s)
  | _ => (mkResponse 400 (JsonMessage "Invalid prayer type"), s)
  end.

(** PUT /api/admin/challenges/:id, after the body has parsed. *)
Definition admin_challenges_update (now : Z) (id : Z) (input : ChallengeUpdate.t)
    (s : InMemoryStorage.t) : Response * InMemoryStorage.t :=
  let (challenge, s') := InMemoryStorage.updateChallenge now id input s in
  match challenge with
  | None => (mkResponse 404 (JsonMessage "Challenge not found"), s')
  | Some c => (mkResponse 200 (JsonChallenge c), s')
  end.

(** DELETE /api/admin/challenges/:id *)
Definition admin_challenges_delete (id : Z) (s : InMemoryStorage.t)
    : Response * InMemoryStorage.t :=
  let s' := InMemoryStorage.deleteChallenge id s in
  (mkResponse 204 NoBody, s').

(** POST /api/admin/intentions/:id/printed *)
Definition admin_intentions_markPrinted (now : Z) (id : Z) (s : InMemoryStorage.t)
    : Response * InMemoryStorage.t :=
  let (intention, s') := InMemoryStorage.markIntentionPrinted now id s in
  match intention with
  | None => (mkResponse 404 (JsonMessage "Intention not found"), s')
  | Some i => (mkResponse 200 (JsonIntention i), s')
  end.

End Routes.

(** ** [DatabaseStorage], challenge table (storage.ts over schema.ts)

    The table is the list of its rows and the [serial] sequence of [id].
    The query builder is embedded by what its statements do to that list:
    [update ... set ... where ... returning] rewrites the rows the
    predicate selects and returns them, [insert ... values ... returning]
    fills every column the value object leaves out with the default the
    schema declares.  A method that awaits two statements is embedded as
    what it does when it runs alone; the statements themselves follow
    further down.  [createChallenge] and [updateChallenge] are embedded
    for numbers that fit their [integer] columns; the increments, which
    move a counter toward the end of that range, carry the failure of
    the statement. *)
Module ChallengeRow.
Record t : Type := mk {
  id : Z;
  title : string;
  prayerType : string;
  totalTarget : Z;
  currentCount : option Z;
  isActive : option bool;
  createdAt : option Z
}.

Definition set_isActive (a : option bool) (r : t) : t :=
  mk (id r) (title r) (prayerType r) (totalTarget r) (currentCount r) a (createdAt r).
Definition set_currentCount (n : option Z) (r : t) : t :=
  mk (id r) (title r) (prayerType r) (totalTarget r) n (isActive r) (createdAt r).
End ChallengeRow.

Module DatabaseStorage.

Record t : Type := mk {
  challenges : list ChallengeRow.t;
  challenges_id_seq : Z
}.

Definition empty : t := mk [] 1.

(** A call either returns or throws (the promise rejects). *)
Inductive Outcome (A : Type) : Type :=
| Returned (a : A)
| Thrown.
Arguments Returned {A} a.
Arguments Thrown {A}.

(** [integer("current_count").default(0)] and
    [boolean("is_active").default(true)] *)
Definition default_currentCount : option Z := Some 0.
Definition default_isActive : option bool := Some true.

(** The value stored for a column of an inserted object: the default when
    the key is missing, NULL for [null]. *)
Definition columnValue {A : Type} (dflt : option A) (v : JsOpt A) : option A :=
  match v with
  | Undefined => dflt
  | Null => None
  | Val a => Some a
  end.

(** [eq(challenges.isActive, true)] and [eq(challenges.id, id)]; a NULL
    never compares equal. *)
Definition isActiveEqTrue (r : ChallengeRow.t) : bool :=
  match ChallengeRow.isActive r with
  | Some true => true
  | _ => false
  end.

Definition idEq (id : Z) (r : ChallengeRow.t) : bool :=
  ChallengeRow.id r =? id.

(** [db.update(t).set(..).where(..).returning()]: the table after the
    statement and the rows it returns. *)
Definition sqlUpdate (cond : ChallengeRow.t -> bool) (assign : ChallengeRow.t -> ChallengeRow.t)
    (rows : list ChallengeRow.t) : list ChallengeRow.t * list ChallengeRow.t :=
  (map (fun r => if cond r then assign r else r) rows, map assign (filter cond rows)).

(** [db.update(challenges).set({ isActive: false }).where(eq(challenges.isActive, true))] *)
Definition deactivateActive (rows : list ChallengeRow.t) : list ChallengeRow.t :=
  fst (sqlUpdate isActiveEqTrue (ChallengeRow.set_isActive (Some false)) rows).

(** [now] is what [defaultNow()] stores in [created_at].  The two awaited
    statements, executed with nothing in between; the numbers of the
    request and the next id are taken inside the range of [integer]. *)
Definition createChallenge (now : Z) (challenge : InsertChallenge.t) (db : t)
    : ChallengeRow.t * t :=
  let rows :=
    if truthy (InsertChallenge.isActive challenge)
    then deactivateActive (challenges db)
    else challenges db in
  let newChallenge :=
    ChallengeRow.mk (challenges_id_seq db)
      (InsertChallenge.title challenge)
      (InsertChallenge.prayerType challenge)
      (InsertChallenge.totalTarget challenge)
      (columnValue default_currentCount (InsertChallenge.currentCount challenge))
      (columnValue default_isActive (InsertChallenge.isActive challenge))
      (Some now) in
  (newChallenge, mk (rows ++ [newChallenge]) (challenges_id_seq db + 1)).

(** [select ... where is_active = true limit 1].  The query names no
    order, so which of several active rows comes back is the database's
    choice; the first in table order stands for it, and is the answer
    whenever at most one row is active. *)
Definition getActiveChallenge (db : t) : option ChallengeRow.t :=
  hd_error (filter isActiveEqTrue (challenges db)).

(** [.set(updates)]: keys that are missing are not assigned. *)
Definition setUpdates (updates : ChallengeUpdate.t) (r : ChallengeRow.t) : ChallengeRow.t :=
  ChallengeRow.mk (ChallengeRow.id r)
    (assignOpt (ChallengeRow.title r) (ChallengeUpdate.title updates))
    (assignOpt (ChallengeRow.prayerType r) (ChallengeUpdate.prayerType updates))
    (assignOpt (ChallengeRow.totalTarget r) (ChallengeUpdate.totalTarget updates))
    (ChallengeRow.currentCount r)
    (columnValue (ChallengeRow.isActive r) (ChallengeUpdate.isActive updates))
    (ChallengeRow.createdAt r).

(** An update object without any key gives the statement nothing to set. *)
Definition noValues (updates : ChallengeUpdate.t) : bool :=
  match ChallengeUpdate.title updates, ChallengeUpdate.prayerType updates,
        ChallengeUpdate.totalTarget updates, ChallengeUpdate.isActive updates with
  | None, None, None, Undefined => true
  | _, _, _, _ => false
  end.

(** The two awaited statements, executed with nothing in between; the id
    and a [totalTarget] of the update are taken inside the range of
    [integer]. *)
Definition updateChallenge (id : Z) (updates : ChallengeUpdate.t) (db : t)
    : Outcome (option ChallengeRow.t) * t :=
  let rows :=
    if truthy (ChallengeUpdate.isActive updates)
    then deactivateActive (challenges db)
    else challenges db in
  if noValues updates
  then (Thrown, mk rows (challenges_id_seq db))
  else
    let (rows', updated) := sqlUpdate (idEq id) (setUpdates updates) rows in
    (Returned (hd_error updated), mk rows' (challenges_id_seq db)).

(** [db.delete(challenges).where(eq(challenges.id, id))], the id taken
    inside the range of [integer]. *)
Definition deleteChallenge (id : Z) (db : t) : t :=
  mk (filter (fun r => negb (idEq id r)) (challenges db)) (challenges_id_seq db).

(** The values of an [integer] column: 32 bits, signed. *)
Definition int4 (n : Z) : bool :=
  (-2147483648 <=? n) && (n <=? 2147483647).

(** [.set({ currentCount: sql`${challenges.currentCount} + ${amount}` })]:
    the SQL sum of a NULL is NULL. *)
Definition addAmount (amount : Z) (r : ChallengeRow.t) : ChallengeRow.t :=
  ChallengeRow.set_currentCount
    (option_map (fun n => n + amount) (ChallengeRow.currentCount r)) r.

(** The sum leaves the range of the column: the statement fails with
    "integer out of range". *)
Definition sumFails (amount : Z) (r : ChallengeRow.t) : bool :=
  match ChallengeRow.currentCount r with
  | Some n => negb (int4 (n + amount))
  | None => false
  end.

(** One UPDATE statement.  It fails, changing nothing, when the id or the
    amount it is given is no [integer], or when the sum of a row it
    selects is none. *)
Definition incrementChallenge (id : Z) (amount : Z) (db : t)
    : Outcome (option ChallengeRow.t) * t :=
  if negb (int4 id) || negb (int4 amount)
     || existsb (sumFails amount) (filter (idEq id) (challenges db))
  then (Thrown, db)
  else
    let (rows, updated) := sqlUpdate (idEq id) (addAmount amount) (challenges db) in
    (Returned (hd_error updated), mk rows (challenges_id_seq db)).

End DatabaseStorage.

(** ** Runs of the in-memory store *)

(** The four challenge operations, with their arguments. *)
Inductive ChallengeOp : Type :=
| OpCreateChallenge (createdNow updatedNow : Z) (challenge : InsertChallenge.t)
| OpUpdateChallenge (now : Z) (id : Z) (updates : ChallengeUpdate.t)
| OpIncrementChallenge (now : Z) (id : Z) (amount : Z)
| OpDeleteChallenge (id : Z).

Definition runChallengeOp (op : ChallengeOp) (s : InMemoryStorage.t) : InMemoryStorage.t :=
  match op with
  | OpCreateChallenge c u challenge => snd (InMemoryStorage.createChallenge c u challenge s)
  | OpUpdateChallenge now id updates => snd (InMemoryStorage.updateChallenge now id updates s)
  | OpIncrementChallenge now id amount => snd (InMemoryStorage.incrementChallenge now id amount s)
  | OpDeleteChallenge id => InMemoryStorage.deleteChallenge id s
  end.

Inductive IntentionOp : Type :=
| OpCreateIntention (createdNow updatedNow : Z) (intention : InsertIntention.t)
| OpIncrementIntentionPrayer (now : Z) (id : Z) (type : string)
| OpMarkIntentionPrinted (now : Z) (id : Z).

Definition runIntentionOp (op : IntentionOp) (s : InMemoryStorage.t) : InMemoryStorage.t :=
  match op with
  | OpCreateIntention c u intention => snd (InMemoryStorage.createIntention c u intention s)
  | OpIncrementIntentionPrayer now id type =>
      snd (InMemoryStorage.incrementIntentionPrayer now id type s)
  | OpMarkIntentionPrinted now id => snd (InMemoryStorage.markIntentionPrinted now id s)
  end.

(** The states the store can be in: the fresh store, and whatever a method
    call makes of a state it can be in. *)
Inductive reachable : InMemoryStorage.t -> Prop :=
| reachable_empty : reachable InMemoryStorage.empty
| reachable_challenge s op : reachable s -> reachable (runChallengeOp op s)
| reachable_intention s op : reachable s -> reachable (runIntentionOp op s).

(** The challenges a store reports as active, and the invariant of the
    challenge table. *)
Definition isActiveChallenge (c : Challenge.t) : bool :=
  truthy (Challenge.isActive c).

Definition activeChallenges (s : InMemoryStorage.t) : list Challenge.t :=
  filter isActiveChallenge (InMemoryStorage.challenges s).

Definition atMostOneActive (s : InMemoryStorage.t) : Prop :=
  (List.length (activeChallenges s) <= 1)%nat.

(** ** Sample stores

    The objects [seedDatabase] (routes.ts) passes to the store, and a few
    requests, for the worked examples below. *)

Definition weeklyRosary : InsertChallenge.t :=
  InsertChallenge.mk "Weekly Rosary Challenge" "Rosary" 1000 (Val 42) (Val true).

Definition mariaIntention : InsertIntention.t :=
  InsertIntention.mk "For peace in my family and health for my grandparents."
    (Val "Maria") (Val "Rosary") (Val 5) (Val 2) (Val 1) (Val false).

Definition anonymousIntention : InsertIntention.t :=
  InsertIntention.mk "For clarity in my career path."
    (Val "Anonymous") (Val "Hail Mary") (Val 12) (Val 0) (Val 0) (Val false).

(** The in-memory store once the seed has run, the clock reading 10. *)
Definition seededStore : InMemoryStorage.t :=
  let s1 := snd (InMemoryStorage.createChallenge 10 10 weeklyRosary InMemoryStorage.empty) in
  let s2 := snd (InMemoryStorage.createIntention 10 10 mariaIntention s1) in
  snd (InMemoryStorage.createIntention 10 10 anonymousIntention s2).

(** The challenge table once the seed has run. *)
Definition seededDatabase : DatabaseStorage.t :=
  snd (DatabaseStorage.createChallenge 10 weeklyRosary DatabaseStorage.empty).

(** An admin request body that names [isActive: true], one that leaves
    [isActive] out, and an update that sets [isActive: true] only. *)
Definition lentChallenge : InsertChallenge.t :=
  InsertChallenge.mk "Lent" "Hail Mary" 500 Undefined (Val true).

Definition adventChallenge : InsertChallenge.t :=
  InsertChallenge.mk "Advent" "Rosary" 300 Undefined Undefined.

Definition activateOnly : ChallengeUpdate.t :=
  ChallengeUpdate.mk None None None (Val true).

(** The counter of an intention that a prayer of kind [type] names. *)
Definition counterOf (type : string) (it : Intention.t) : Z :=
  if String.eqb type "hailMary" then Intention.hailMaryCount it
  else if String.eqb type "ourFather" then Intention.ourFatherCount it
  else Intention.rosaryCount it.

(** A store holding one intention whose hail-mary counter is 2^53. *)
Definition brimmingIntention : InsertIntention.t :=
  InsertIntention.mk "For the harvest." (Val "Teresa") Undefined
    (Val 9007199254740992) (Val 0) (Val 0) (Val false).

Definition brimmingStore : InMemoryStorage.t :=
  snd (InMemoryStorage.createIntention 10 10 brimmingIntention InMemoryStorage.empty).

(** [bump type counter] is the amount a prayer of kind [type] adds to the
    counter called [counter]. *)
Definition bump (type counter : string) : Z :=
  if String.eqb type counter then 1 else 0.

(** Ids are handed out by the two counters: in a well-formed store no id is
    stored twice and every stored id is below its counter. *)
Definition freshIds (ids : list Z) (next : Z) : Prop :=
  NoDup ids /\ Forall (fun i => i < next) ids.

Definition wellFormed (s : InMemoryStorage.t) : Prop :=
  freshIds (map Intention.id (InMemoryStorage.intentions s)) (InMemoryStorage.intentionId s) /\
  freshIds (map Challenge.id (InMemoryStorage.challenges s)) (InMemoryStorage.challengeId s).

(** One [incrementChallenge(id, 1)] per clock reading of [nows], one after
    the other. *)
Definition incrementChallengeEach (nows : list Z) (id : Z) (s : InMemoryStorage.t)
    : InMemoryStorage.t :=
  fold_left (fun st now => snd (InMemoryStorage.incrementChallenge now id 1 st)) nows s.

(** ** The seed (routes.ts)

    [seedDatabase] fills a table only when listing it gives nothing.  The
    six arguments are the readings of the clock its three create calls
    make. *)
Definition seedDatabase (t1 t2 t3 t4 t5 t6 : Z) (s : InMemoryStorage.t) : InMemoryStorage.t :=
  let s1 :=
    if (List.length (InMemoryStorage.getChallenges s) =? 0)%nat
    then snd (InMemoryStorage.createChallenge t1 t2 weeklyRosary s)
    else s in
  if (List.length (InMemoryStorage.getIntentions s1) =? 0)%nat
  then
    let s2 := snd (InMemoryStorage.createIntention t3 t4 mariaIntention s1) in
    snd (InMemoryStorage.createIntention t5 t6 anonymousIntention s2)
  else s1.

(** ** Orders and flags used in the statements *)

(** A listing is newest first when no record comes before one created
    later. *)
Definition newestFirst (A : Type) (createdAt : A -> Z) (l : list A) : Prop :=
  StronglySorted (fun a b => createdAt b <= createdAt a) l.

(** A list is in strictly increasing order of creation time. *)
Definition createdInOrder (A : Type) (createdAt : A -> Z) (l : list A) : Prop :=
  StronglySorted (fun a b => createdAt a < createdAt b) l.

(** The rows of the challenge table whose [is_active] is true, and the
    invariant of the table. *)
Definition activeRows (db : DatabaseStorage.t) : list ChallengeRow.t :=
  filter DatabaseStorage.isActiveEqTrue (DatabaseStorage.challenges db).

Definition atMostOneActiveRow (db : DatabaseStorage.t) : Prop :=
  (List.length (activeRows db) <= 1)%nat.

(** A store whose records were created at different instants, and an
    update that clears the flag only. *)
Definition stampedStore : InMemoryStorage.t :=
  let s1 := snd (InMemoryStorage.createChallenge 10 10 weeklyRosary InMemoryStorage.empty) in
  let s2 := snd (InMemoryStorage.createChallenge 20 20 adventChallenge s1) in
  let s3 := snd (InMemoryStorage.createIntention 30 30 mariaIntention s2) in
  snd (InMemoryStorage.createIntention 40 40 anonymousIntention s3).

Definition deactivateOnly : ChallengeUpdate.t :=
  ChallengeUpdate.mk None None None (Val false).

(** Ids start at 1: every stored id and both counters are positive. *)
Definition idsFromOne (s : InMemoryStorage.t) : Prop :=
  (Forall (fun i => 1 <= Intention.id i) (InMemoryStorage.intentions s) /\
   1 <= InMemoryStorage.intentionId s) /\
  (Forall (fun c => 1 <= Challenge.id c) (InMemoryStorage.challenges s) /\
   1 <= InMemoryStorage.challengeId s).

(** ** [buildUrl] (shared/routes.ts)

    [params] is given by its entries, in the order [Object.entries] lists
    them; a value is a string or a number, and the numbers are the integer
    ids the hooks pass.  [String] prints a safe integer digit for digit,
    which is what [stringOf] embeds; beyond the safe integers it prints
    the shortest digits that name the double, and from 10^21 on exponent
    notation, neither of which is embedded, so every statement about a
    number carries [safeInteger]. *)
Module SharedRoutes.

Inductive ParamValue : Type :=
| PString (s : string)
| PNumber (n : Z).

(** [String(value)], for a string or a safe integer. *)
Definition stringOf (value : ParamValue) : string :=
  match value with
  | PString s => s
  | PNumber n => DecimalString.NilZero.string_of_int (Z.to_int n)
  end.

(** The text after the first [n] characters. *)
Fixpoint dropChars (n : nat) (s : string) : string :=
  match n, s with
  | O, _ => s
  | S _, EmptyString => EmptyString
  | S n', String _ r => dropChars n' r
  end.

(** The first occurrence of [pat] in [s], as the text before it and the
    text after it. *)
Fixpoint firstOccurrence (pat s : string) : option (string * string) :=
  if String.prefix pat s
  then Some (EmptyString, dropChars (String.length pat) s)
  else
    match s with
    | EmptyString => None
    | String c r =>
        match firstOccurrence pat r with
        | Some (before, after) => Some (String c before, after)
        | None => None
        end
    end.

(** [s.includes(pat)] *)
Definition includes (s pat : string) : bool :=
  match firstOccurrence pat s with
  | Some _ => true
  | None => false
  end.

(** The replacement text of [String.prototype.replace] for a string
    pattern: in the template, [$$] stands for a dollar sign, [$&] for the
    matched text, [$`] for the text before the match and [$'] for the text
    after it; there are no captures, so any other [$] stands for itself. *)
Fixpoint getSubstitution (matched before after template : string) : string :=
  match template with
  | EmptyString => EmptyString
  | String c rest =>
      if Ascii.eqb c "$" then
        match rest with
        | EmptyString => String c EmptyString
        | String d rest' =>
            if Ascii.eqb d "$"
            then String "$" (getSubstitution matched before after rest')
            else if Ascii.eqb d "&"
            then matched ++ getSubstitution matched before after rest'
            else if Ascii.eqb d "`"
            then before ++ getSubstitution matched before after rest'
            else if Ascii.eqb d "'"
            then after ++ getSubstitution matched before after rest'
            else String c (getSubstitution matched before after rest)
        end
      else String c (getSubstitution matched before after rest)
  end.

(** [s.replace(pat, replacement)] with a string pattern: the first
    occurrence only. *)
Definition replace (s pat replacement : string) : string :=
  match firstOccurrence pat s with
  | None => s
  | Some (before, after) =>
      before ++ getSubstitution pat before after replacement ++ after
  end.

(** The body of the [forEach] callback. *)
Definition buildUrlStep (url : string) (entry : string * ParamValue) : string :=
  let (key, value) := entry in
  if includes url (":" ++ key)
  then replace url (":" ++ key) (stringOf value)
  else url.

Definition buildUrl (path : string) (params : option (list (string * ParamValue))) : string :=
  match params with
  | None => path
  | Some entries => fold_left buildUrlStep entries path
  end.

(** The paths of the [api] table that carry an [:id]. *)
Definition intentions_increment_path : string := "/api/intentions/:id/pray".
Definition challenges_increment_path : string := "/api/challenges/:id/increment".
Definition admin_challenges_update_path : string := "/api/admin/challenges/:id".
Definition admin_challenges_delete_path : string := "/api/admin/challenges/:id".
Definition admin_intentions_markPrinted_path : string := "/api/admin/intentions/:id/printed".

(** A text in which the character [x] does not occur. *)
Fixpoint lacks (x : ascii) (s : string) : bool :=
  match s with
  | EmptyString => true
  | String c r => negb (Ascii.eqb c x) && lacks x r
  end.

End SharedRoutes.

(** ** [DatabaseStorage], intention table (storage.ts over schema.ts)

    The intention methods of [DatabaseStorage] and the
    [incrementIntentionPrayer] of [DatabaseStorageImpl], over the table as
    the list of its rows and the [serial] sequence of [id], embedded as
    the challenge table is. *)
Module IntentionRow.
Record t : Type := mk {
  id : Z;
  content : string;
  name : option string;
  prayerType : option string;
  hailMaryCount : option Z;
  ourFatherCount : option Z;
  rosaryCount : option Z;
  isPrinted : option bool;
  createdAt : option Z
}.

Definition set_hailMaryCount (n : option Z) (r : t) : t :=
  mk (id r) (content r) (name r) (prayerType r) n (ourFatherCount r)
     (rosaryCount r) (isPrinted r) (createdAt r).
Definition set_ourFatherCount (n : option Z) (r : t) : t :=
  mk (id r) (content r) (name r) (prayerType r) (hailMaryCount r) n
     (rosaryCount r) (isPrinted r) (createdAt r).
Definition set_rosaryCount (n : option Z) (r : t) : t :=
  mk (id r) (content r) (name r) (prayerType r) (hailMaryCount r)
     (ourFatherCount r) n (isPrinted r) (createdAt r).
Definition set_isPrinted (b : option bool) (r : t) : t :=
  mk (id r) (content r) (name r) (prayerType r) (hailMaryCount r)
     (ourFatherCount r) (rosaryCount r) b (createdAt r).
End IntentionRow.

Module DatabaseIntentions.

Record t : Type := mk {
  intentions : list IntentionRow.t;
  intentions_id_seq : Z
}.

Definition empty : t := mk [] 1.

(** [eq(intentions.id, id)] *)
Definition idEq (id : Z) (r : IntentionRow.t) : bool :=
  IntentionRow.id r =? id.

(** [update ... set ... where ... returning] on the intention table. *)
Definition sqlUpdate (cond : IntentionRow.t -> bool) (assign : IntentionRow.t -> IntentionRow.t)
    (rows : list IntentionRow.t) : list IntentionRow.t * list IntentionRow.t :=
  (map (fun r => if cond r then assign r else r) rows, map assign (filter cond rows)).

(** A counter of the value object fits its column: it is missing, null or
    an [integer]. *)
Definition fitsColumn (x : JsOpt Z) : bool :=
  match x with
  | Val n => DatabaseStorage.int4 n
  | _ => true
  end.

(** The columns left out of the value object take the defaults of the
    schema: the three counters 0, [is_printed] false, [created_at] the
    time of the insert, [name] and [prayer_type] NULL.  The insert fails,
    changing nothing, when a counter does not fit its column.  The next
    id is taken inside the range of [integer]. *)
Definition createIntention (now : Z) (intention : InsertIntention.t) (db : t)
    : DatabaseStorage.Outcome IntentionRow.t * t :=
  let newIntention :=
    IntentionRow.mk (intentions_id_seq db)
      (InsertIntention.content intention)
      (DatabaseStorage.columnValue None (InsertIntention.name intention))
      (DatabaseStorage.columnValue None (InsertIntention.prayerType intention))
      (DatabaseStorage.columnValue (Some 0) (InsertIntention.hailMaryCount intention))
      (DatabaseStorage.columnValue (Some 0) (InsertIntention.ourFatherCount intention))
      (DatabaseStorage.columnValue (Some 0) (InsertIntention.rosaryCount intention))
      (DatabaseStorage.columnValue (Some false) (InsertIntention.isPrinted intention))
      (Some now) in
  if fitsColumn (InsertIntention.hailMaryCount intention)
     && fitsColumn (InsertIntention.ourFatherCount intention)
     && fitsColumn (InsertIntention.rosaryCount intention)
  then (DatabaseStorage.Returned newIntention,
        mk (intentions db ++ [newIntention]) (intentions_id_seq db + 1))
  else (DatabaseStorage.Thrown, db).

(** The SQL expression [column + 1]: NULL stays NULL. *)
Definition plusOne (column : option Z) : option Z :=
  match column with
  | Some n => Some (n + 1)
  | None => None
  end.

(** [updateSet] of [incrementIntentionPrayerImpl]: an [if], an [else if]
    and a final [else]. *)
Definition updateSet (type : string) (r : IntentionRow.t) : IntentionRow.t :=
  if String.eqb type "hailMary"
  then IntentionRow.set_hailMaryCount (plusOne (IntentionRow.hailMaryCount r)) r
  else if String.eqb type "ourFather"
  then IntentionRow.set_ourFatherCount (plusOne (IntentionRow.ourFatherCount r)) r
  else IntentionRow.set_rosaryCount (plusOne (IntentionRow.rosaryCount r)) r.

(** The column [updateSet] assigns to. *)
Definition namedColumn (type : string) (r : IntentionRow.t) : option Z :=
  if String.eqb type "hailMary" then IntentionRow.hailMaryCount r
  else if String.eqb type "ourFather" then IntentionRow.ourFatherCount r
  else IntentionRow.rosaryCount r.

(** [column + 1] leaves the range of the column: the statement fails with
    "integer out of range". *)
Definition plusOneFails (column : option Z) : bool :=
  match column with
  | Some n => negb (DatabaseStorage.int4 (n + 1))
  | None => false
  end.

(** [DatabaseStorageImpl.incrementIntentionPrayer], which calls
    [incrementIntentionPrayerImpl]: one UPDATE statement.  It fails,
    changing nothing, when the id it is given is no [integer] or when the
    sum of a row it selects leaves the range. *)
Definition incrementIntentionPrayer (id : Z) (type : string) (db : t)
    : DatabaseStorage.Outcome (option IntentionRow.t) * t :=
  if negb (DatabaseStorage.int4 id)
     || existsb (fun r => plusOneFails (namedColumn type r))
          (filter (idEq id) (intentions db))
  then (DatabaseStorage.Thrown, db)
  else
    let (rows, updated) := sqlUpdate (idEq id) (updateSet type) (intentions db) in
    (DatabaseStorage.Returned (hd_error updated), mk rows (intentions_id_seq db)).

(** One UPDATE statement, which fails when the id is no [integer]. *)
Definition markIntentionPrinted (id : Z) (db : t)
    : DatabaseStorage.Outcome (option IntentionRow.t) * t :=
  if DatabaseStorage.int4 id
  then
    let (rows, updated) :=
      sqlUpdate (idEq id) (IntentionRow.set_isPrinted (Some true)) (intentions db) in
    (DatabaseStorage.Returned (hd_error updated), mk rows (intentions_id_seq db))
  else (DatabaseStorage.Thrown, db).

End DatabaseIntentions.




(** A create request that names [isActive: false]. *)
Definition pausedChallenge : InsertChallenge.t :=
  InsertChallenge.mk "Paused" "Rosary" 100 Undefined (Val false).


(** The intention table once the seed has run. *)
Definition seededIntentionTable : DatabaseIntentions.t :=
  let db1 := snd (DatabaseIntentions.createIntention 10 mariaIntention DatabaseIntentions.empty) in
  snd (DatabaseIntentions.createIntention 10 anonymousIntention db1).

(** ** The statements of the challenge methods of [DatabaseStorage]

    [createChallenge] and [updateChallenge] await two statements, one
    after the other and outside any transaction; [deleteChallenge] awaits
    one.  A method that runs alone executes its statements with nothing in
    between, which is what the functions of [DatabaseStorage] above
    compute; two calls that overlap execute an interleaving of theirs.
    As there, a statement is embedded for numbers that fit their
    [integer] columns. *)
Inductive Statement : Type :=
| DeactivateActive
| InsertRow (now : Z) (challenge : InsertChallenge.t)
| UpdateById (id : Z) (updates : ChallengeUpdate.t)
| DeleteById (id : Z).

Definition execute (st : Statement) (db : DatabaseStorage.t) : DatabaseStorage.t :=
  match st with
  | DeactivateActive =>
      DatabaseStorage.mk
        (DatabaseStorage.deactivateActive (DatabaseStorage.challenges db))
        (DatabaseStorage.challenges_id_seq db)
  | InsertRow now challenge =>
      DatabaseStorage.mk
        (DatabaseStorage.challenges db
         ++ [ChallengeRow.mk (DatabaseStorage.challenges_id_seq db)
               (InsertChallenge.title challenge)
               (InsertChallenge.prayerType challenge)
               (InsertChallenge.totalTarget challenge)
               (DatabaseStorage.columnValue DatabaseStorage.default_currentCount
                  (InsertChallenge.currentCount challenge))
               (DatabaseStorage.columnValue DatabaseStorage.default_isActive
                  (InsertChallenge.isActive challenge))
               (Some now)])
        (DatabaseStorage.challenges_id_seq db + 1)
  | UpdateById id updates =>
      if DatabaseStorage.noValues updates then db
      else
        DatabaseStorage.mk
          (fst (DatabaseStorage.sqlUpdate (DatabaseStorage.idEq id)
                  (DatabaseStorage.setUpdates updates) (DatabaseStorage.challenges db)))
          (DatabaseStorage.challenges_id_seq db)
  | DeleteById id => DatabaseStorage.deleteChallenge id db
  end.

Definition executeAll (sts : list Statement) (db : DatabaseStorage.t) : DatabaseStorage.t :=
  fold_left (fun d st => execute st d) sts db.

Definition createChallengeStatements (now : Z) (challenge : InsertChallenge.t)
    : list Statement :=
  (if truthy (InsertChallenge.isActive challenge) then [DeactivateActive] else [])
  ++ [InsertRow now challenge].

Definition updateChallengeStatements (id : Z) (updates : ChallengeUpdate.t)
    : list Statement :=
  (if truthy (ChallengeUpdate.isActive updates) then [DeactivateActive] else [])
  ++ [UpdateById id updates].

Definition deleteChallengeStatements (id : Z) : list Statement := [DeleteById id].

(** The orders in which the statements of two overlapping calls can be
    executed: each call keeps its own order. *)
Inductive Interleaved (A : Type) : list A -> list A -> list A -> Prop :=
| Interleaved_nil : Interleaved [] [] []
| Interleaved_left x l1 l2 l :
    Interleaved l1 l2 l -> Interleaved (x :: l1) l2 (x :: l)
| Interleaved_right x l1 l2 l :
    Interleaved l1 l2 l -> Interleaved l1 (x :: l2) (x :: l).

(** ** Concurrent increments against the database

    A call of [incrementChallenge] or of [incrementIntentionPrayer] issues
    one UPDATE statement, which the database executes as a whole.  [N]
    concurrent calls, numbered from 0, are therefore executed in some
    order of their numbers, one statement after the other. *)
Definition incrementChallengeCalls (order : list nat) (id : Z) (db : DatabaseStorage.t)
    : DatabaseStorage.t :=
  fold_left (fun d (_ : nat) => snd (DatabaseStorage.incrementChallenge id 1 d)) order db.

Definition prayCalls (order : list nat) (id : Z) (type : string) (db : DatabaseIntentions.t)
    : DatabaseIntentions.t :=
  fold_left (fun d (_ : nat) => snd (DatabaseIntentions.incrementIntentionPrayer id type d))
    order db.

(** The row with the column that [updateSet] assigns to set to [v]. *)
Definition withNamedColumn (type : string) (v : option Z) (r : IntentionRow.t)
    : IntentionRow.t :=
  if String.eqb type "hailMary" then IntentionRow.set_hailMaryCount v r
  else if String.eqb type "ourFather" then IntentionRow.set_ourFatherCount v r
  else IntentionRow.set_rosaryCount v r.

(** The numbers of a create request, and the id and the numbers of an
    update, fit their [integer] columns. *)
Definition challengeFits (challenge : InsertChallenge.t) : Prop :=
  DatabaseStorage.int4 (InsertChallenge.totalTarget challenge) = true /\
  DatabaseIntentions.fitsColumn (InsertChallenge.currentCount challenge) = true.

Definition updateFits (id : Z) (updates : ChallengeUpdate.t) : Prop :=
  DatabaseStorage.int4 id = true /\
  match ChallengeUpdate.totalTarget updates with
  | Some n => DatabaseStorage.int4 n = true
  | None => True
  end.

(** An intention table whose one row has the largest [integer] as its
    hail-mary counter. *)
Definition brimfulIntention : InsertIntention.t :=
  InsertIntention.mk "For the harvest." (Val "Teresa") Undefined
    (Val 2147483647) (Val 0) (Val 0) (Val false).

Definition brimfulIntentionTable : DatabaseIntentions.t :=
  snd (DatabaseIntentions.createIntention 10 brimfulIntention DatabaseIntentions.empty).

(** A challenge table whose one row is 47 short of the largest [integer]. *)
Definition nearlyFullChallenge : InsertChallenge.t :=
  InsertChallenge.mk "Year of prayer" "Rosary" 2147483647 (Val 2147483600) (Val true).

Definition nearlyFullDatabase : DatabaseStorage.t :=
  snd (DatabaseStorage.createChallenge 10 nearlyFullChallenge DatabaseStorage.empty).

(** * Properties *)

(** ** Facts about [find], [update_first] and [filter] *)

Section ArrayFacts.

Variable A : Type.
Variable p : A -> bool.

Lemma find_None_Forall (l : list A) :
  find p l = None <-> Forall (fun y => p y = false) l.
Proof.
  induction l as [| x r IH]; simpl.
  - split; constructor.
  - destruct (p x) eqn:E.
    + split; [discriminate |].
      intros H. inversion H; subst. congruence.
    + rewrite IH. split.
      * intros H. constructor; assumption.
      * intros H. inversion H; assumption.
Qed.

Lemma find_Some_split (l : list A) (x : A) :
  find p l = Some x ->
  exists l1 l2, l = l1 ++ x :: l2 /\ p x = true /\ Forall (fun y => p y = false) l1.
Proof.
  induction l as [| y r IH]; simpl; [discriminate |].
  destruct (p y) eqn:E.
  - intros H. injection H as ->. exists [], r. auto.
  - intros H. destruct (IH H) as (l1 & l2 & -> & Hx & Hl1).
    exists (y :: l1), l2. auto.
Qed.

Lemma find_split (l1 l2 : list A) (x : A) :
  Forall (fun y => p y = false) l1 -> p x = true ->
  find p (l1 ++ x :: l2) = Some x.
Proof.
  intros H Hx. induction H as [| y r Hy _ IH]; simpl.
  - now rewrite Hx.
  - now rewrite Hy.
Qed.

Lemma update_first_split (f : A -> A) (l1 l2 : list A) (x : A) :
  Forall (fun y => p y = false) l1 -> p x = true ->
  update_first p f (l1 ++ x :: l2) = l1 ++ f x :: l2.
Proof.
  intros H Hx. induction H as [| y r Hy _ IH]; simpl.
  - now rewrite Hx.
  - now rewrite Hy, IH.
Qed.


Variable q : A -> bool.

Lemma filter_update_first_le (f : A -> A) (l : list A) :
  (forall x, q (f x) = true -> q x = true) ->
  (List.length (filter q (update_first p f l)) <= List.length (filter q l))%nat.
Proof.
  intros Hf. induction l as [| x r IH]; simpl; [lia |].
  destruct (p x); simpl.
  - destruct (q (f x)) eqn:E.
    + rewrite (Hf _ E). simpl. lia.
    + destruct (q x); simpl; lia.
  - destruct (q x); simpl; lia.
Qed.

Lemma filter_filter_le (r : A -> bool) (l : list A) :
  (List.length (filter q (filter r l)) <= List.length (filter q l))%nat.
Proof.
  induction l as [| x l IH]; simpl; [lia |].
  destruct (r x); simpl; destruct (q x); simpl; lia.
Qed.

Lemma filter_none (l : list A) :
  Forall (fun y => q y = false) l -> filter q l = [].
Proof.
  induction 1 as [| x r Hx _ IH]; simpl; [reflexivity |].
  now rewrite Hx.
Qed.

End ArrayFacts.

(** An id is stored exactly when [find] on it succeeds. *)
Lemma challenge_find_None (id : Z) (l : list Challenge.t) :
  find (InMemoryStorage.challengeHasId id) l = None <-> ~ In id (map Challenge.id l).
Proof.
  rewrite find_None_Forall, Forall_forall, in_map_iff.
  unfold InMemoryStorage.challengeHasId. split.
  - intros H (c & Hc & Hin). specialize (H c Hin). lia.
  - intros H c Hin. apply Z.eqb_neq. intros E. apply H. now exists c.
Qed.

Lemma intention_find_None (id : Z) (l : list Intention.t) :
  find (InMemoryStorage.intentionHasId id) l = None <-> ~ In id (map Intention.id l).
Proof.
  rewrite find_None_Forall, Forall_forall, in_map_iff.
  unfold InMemoryStorage.intentionHasId. split.
  - intros H (c & Hc & Hin). specialize (H c Hin). lia.
  - intros H c Hin. apply Z.eqb_neq. intros E. apply H. now exists c.
Qed.

Lemma challenge_find_present (id : Z) (l : list Challenge.t) :
  In id (map Challenge.id l) ->
  exists l1 ch l2,
    l = l1 ++ ch :: l2 /\ Challenge.id ch = id /\ ~ In id (map Challenge.id l1) /\
    find (InMemoryStorage.challengeHasId id) l = Some ch /\
    Forall (fun y => InMemoryStorage.challengeHasId id y = false) l1.
Proof.
  intros Hin.
  destruct (find (InMemoryStorage.challengeHasId id) l) as [ch |] eqn:E.
  - destruct (find_Some_split _ _ E) as (l1 & l2 & -> & Hch & Hl1).
    exists l1, ch, l2. repeat split; auto.
    + apply Z.eqb_eq, Hch.
    + apply challenge_find_None, find_None_Forall, Hl1.
  - apply challenge_find_None in E. contradiction.
Qed.

Lemma intention_find_present (id : Z) (l : list Intention.t) :
  In id (map Intention.id l) ->
  exists l1 it l2,
    l = l1 ++ it :: l2 /\ Intention.id it = id /\ ~ In id (map Intention.id l1) /\
    find (InMemoryStorage.intentionHasId id) l = Some it /\
    Forall (fun y => InMemoryStorage.intentionHasId id y = false) l1.
Proof.
  intros Hin.
  destruct (find (InMemoryStorage.intentionHasId id) l) as [it |] eqn:E.
  - destruct (find_Some_split _ _ E) as (l1 & l2 & -> & Hit & Hl1).
    exists l1, it, l2. repeat split; auto.
    + apply Z.eqb_eq, Hit.
    + apply intention_find_None, find_None_Forall, Hl1.
  - apply intention_find_None in E. contradiction.
Qed.

(** ** The active flag *)

Lemma deactivate_inactive (l : list Challenge.t) :
  filter isActiveChallenge (map InMemoryStorage.deactivate l) = [].
Proof.
  apply filter_none, Forall_forall. intros c Hc.
  apply in_map_iff in Hc. destruct Hc as (c0 & <- & _). reflexivity.
Qed.

Lemma deactivate_keeps_id (id : Z) (l : list Challenge.t) :
  Forall (fun y => InMemoryStorage.challengeHasId id y = false) l ->
  Forall (fun y => InMemoryStorage.challengeHasId id y = false)
         (map InMemoryStorage.deactivate l).
Proof.
  intros H. apply Forall_map. exact H.
Qed.

(** The list a successful activating update leaves behind. *)
Lemma update_activating_shape (now id : Z) (updates : ChallengeUpdate.t)
    (l1 l2 : list Challenge.t) (ch : Challenge.t) :
  Forall (fun y => InMemoryStorage.challengeHasId id y = false) l1 ->
  InMemoryStorage.challengeHasId id ch = true ->
  update_first (InMemoryStorage.challengeHasId id)
    (InMemoryStorage.assignUpdates updates now)
    (map InMemoryStorage.deactivate (l1 ++ ch :: l2))
  = map InMemoryStorage.deactivate l1
      ++ InMemoryStorage.assignUpdates updates now (InMemoryStorage.deactivate ch)
      :: map InMemoryStorage.deactivate l2.
Proof.
  intros Hl1 Hch. rewrite map_app. simpl.
  apply update_first_split.
  - now apply deactivate_keeps_id.
  - exact Hch.
Qed.

Lemma assignUpdates_not_activating (updates : ChallengeUpdate.t) (now : Z) (c : Challenge.t) :
  truthy (ChallengeUpdate.isActive updates) = false ->
  isActiveChallenge (InMemoryStorage.assignUpdates updates now c) = true ->
  isActiveChallenge c = true.
Proof.
  unfold isActiveChallenge. simpl.
  destruct (ChallengeUpdate.isActive updates) as [| | [|]]; simpl; congruence.
Qed.

(** What each challenge method does to the invariant. *)
Lemma createChallenge_at_most_one (c u : Z) (challenge : InsertChallenge.t)
    (s : InMemoryStorage.t) :
  atMostOneActive s ->
  atMostOneActive (snd (InMemoryStorage.createChallenge c u challenge s)).
Proof.
  unfold atMostOneActive, activeChallenges. simpl. intros H.
  destruct (truthy (InsertChallenge.isActive challenge)) eqn:E;
    rewrite filter_app.
  - rewrite deactivate_inactive. simpl.
    destruct (isActiveChallenge _); simpl; lia.
  - simpl. unfold isActiveChallenge at 2. simpl. rewrite E.
    now rewrite app_nil_r.
Qed.

Lemma updateChallenge_at_most_one (now id : Z) (updates : ChallengeUpdate.t)
    (s : InMemoryStorage.t) :
  atMostOneActive s ->
  atMostOneActive (snd (InMemoryStorage.updateChallenge now id updates s)).
Proof.
  unfold atMostOneActive, activeChallenges, InMemoryStorage.updateChallenge.
  intros H.
  destruct (find (InMemoryStorage.challengeHasId id) (InMemoryStorage.challenges s))
    as [ch |] eqn:F; simpl; [| exact H].
  destruct (truthy (ChallengeUpdate.isActive updates)) eqn:E.
  - destruct (find_Some_split _ _ F) as (l1 & l2 & Hl & Hch & Hl1).
    rewrite Hl.
    change (map (fun c => InMemoryStorage.deactivate c) (l1 ++ ch :: l2))
      with (map InMemoryStorage.deactivate (l1 ++ ch :: l2)).
    rewrite update_activating_shape by assumption.
    rewrite filter_app, deactivate_inactive. simpl.
    rewrite deactivate_inactive.
    destruct (isActiveChallenge _); simpl; lia.
  - rewrite map_id.
    eapply Nat.le_trans; [| exact H].
    apply filter_update_first_le.
    intros x. now apply assignUpdates_not_activating.
Qed.

Lemma incrementChallenge_at_most_one (now id amount : Z) (s : InMemoryStorage.t) :
  atMostOneActive s ->
  atMostOneActive (snd (InMemoryStorage.incrementChallenge now id amount s)).
Proof.
  unfold atMostOneActive, activeChallenges, InMemoryStorage.incrementChallenge.
  intros H.
  destruct (find (InMemoryStorage.challengeHasId id) (InMemoryStorage.challenges s))
    as [ch |] eqn:F; simpl; [| exact H].
  eapply Nat.le_trans; [| exact H].
  apply filter_update_first_le. intros x Hx. exact Hx.
Qed.

Lemma deleteChallenge_at_most_one (id : Z) (s : InMemoryStorage.t) :
  atMostOneActive s -> atMostOneActive (InMemoryStorage.deleteChallenge id s).
Proof.
  unfold atMostOneActive, activeChallenges. simpl. intros H.
  eapply Nat.le_trans; [| exact H].
  apply filter_filter_le.
Qed.

(** An intention operation does not touch the challenge table. *)
Lemma runIntentionOp_challenges (op : IntentionOp) (s : InMemoryStorage.t) :
  InMemoryStorage.challenges (runIntentionOp op s) = InMemoryStorage.challenges s.
Proof.
  destruct op as [c u i | now id type | now id]; simpl; try reflexivity.
  - unfold InMemoryStorage.incrementIntentionPrayer.
    now destruct (find _ _).
  - unfold InMemoryStorage.markIntentionPrinted.
    now destruct (find _ _).
Qed.

(** X15. In every state the in-memory store can reach from the fresh
    store by its intention and challenge methods, at most one challenge
    is active. *)
Lemma reachable_at_most_one_active (s : InMemoryStorage.t) :
  reachable s -> atMostOneActive s.
Proof.
  induction 1 as [| s op _ IH | s op _ IH].
  - unfold atMostOneActive. simpl. lia.
  - destruct op; cbn [runChallengeOp];
      auto using createChallenge_at_most_one, updateChallenge_at_most_one,
        incrementChallenge_at_most_one, deleteChallenge_at_most_one.
  - unfold atMostOneActive, activeChallenges in *.
    now rewrite runIntentionOp_challenges.
Qed.

(** C1. Each of [createChallenge], [updateChallenge], [incrementChallenge]
    and [deleteChallenge] of the in-memory store, run on any state (so on
    every reachable one) in which at most one challenge has a true
    [isActive], leaves a state in which at most one challenge has a true
    [isActive]. *)
Theorem challenge_ops_keep_at_most_one_active (s : InMemoryStorage.t) (op : ChallengeOp) :
  atMostOneActive s -> atMostOneActive (runChallengeOp op s).
Proof.
  intros H.
  destruct op as [c u challenge | now id updates | now id amount | id];
    cbn [runChallengeOp].
  - now apply createChallenge_at_most_one.
  - now apply updateChallenge_at_most_one.
  - now apply incrementChallenge_at_most_one.
  - now apply deleteChallenge_at_most_one.
Qed.

Lemma challenge_ops_keep_at_most_one_active_witness :
  atMostOneActive seededStore /\
  atMostOneActive (runChallengeOp (OpCreateChallenge 20 21 lentChallenge) seededStore).
Proof.
  assert (H : atMostOneActive seededStore).
  { unfold atMostOneActive. simpl. lia. }
  split; [exact H |].
  exact (@challenge_ops_keep_at_most_one_active seededStore
           (OpCreateChallenge 20 21 lentChallenge) H).
Defined.

Lemma deactivate_all_inactive (l : list Challenge.t) :
  Forall (fun y => isActiveChallenge y = false) (map InMemoryStorage.deactivate l).
Proof.
  apply Forall_map, Forall_forall. reflexivity.
Qed.

(** C2. In the in-memory store, [createChallenge] called with
    [isActive = true], and [updateChallenge] called with [isActive = true]
    on an id that is stored (whatever else the update sets, also nothing),
    leave exactly one active challenge, the one the call created or
    updated and returns; every challenge stored before the call, other
    than that target, is now its former self with [isActive = false]. *)
Theorem activating_call_leaves_only_its_target_active :
  (forall (c u : Z) (challenge : InsertChallenge.t) (s : InMemoryStorage.t),
      InsertChallenge.isActive challenge = Val true ->
      exists newCh s',
        InMemoryStorage.createChallenge c u challenge s = (newCh, s') /\
        Challenge.id newCh = InMemoryStorage.challengeId s /\
        activeChallenges s' = [newCh] /\
        InMemoryStorage.getActiveChallenge s' = Some newCh /\
        InMemoryStorage.challenges s'
        = map InMemoryStorage.deactivate (InMemoryStorage.challenges s) ++ [newCh])
  /\
  (forall (now id : Z) (updates : ChallengeUpdate.t) (s : InMemoryStorage.t),
      In id (map Challenge.id (InMemoryStorage.challenges s)) ->
      ChallengeUpdate.isActive updates = Val true ->
      exists l1 ch l2 ch' s',
        InMemoryStorage.challenges s = l1 ++ ch :: l2 /\
        Challenge.id ch = id /\
        ~ In id (map Challenge.id l1) /\
        InMemoryStorage.updateChallenge now id updates s = (Some ch', s') /\
        Challenge.id ch' = id /\
        activeChallenges s' = [ch'] /\
        InMemoryStorage.getActiveChallenge s' = Some ch' /\
        InMemoryStorage.challenges s'
        = map InMemoryStorage.deactivate l1 ++ ch' :: map InMemoryStorage.deactivate l2).
Proof.
  split.
  - intros c u challenge s Hact.
    unfold InMemoryStorage.createChallenge. rewrite Hact. simpl.
    eexists. eexists. split; [reflexivity |].
    unfold activeChallenges, InMemoryStorage.getActiveChallenge. simpl.
    repeat split.
    + rewrite filter_app, deactivate_inactive. reflexivity.
    + apply (find_split isActiveChallenge).
      * apply deactivate_all_inactive.
      * reflexivity.
  - intros now id updates s Hin Hact.
    destruct (challenge_find_present _ _ Hin) as (l1 & ch & l2 & Hl & Hid & Hl1 & F & Hno).
    exists l1, ch, l2.
    unfold InMemoryStorage.updateChallenge. rewrite F, Hact. simpl.
    eexists. eexists.
    split; [exact Hl |]. split; [exact Hid |]. split; [exact Hl1 |].
    split; [reflexivity |]. split; [exact Hid |].
    unfold activeChallenges, InMemoryStorage.getActiveChallenge. simpl.
    rewrite Hl.
    change (map (fun c => InMemoryStorage.deactivate c) (l1 ++ ch :: l2))
      with (map InMemoryStorage.deactivate (l1 ++ ch :: l2)).
    rewrite update_activating_shape;
      [| exact Hno | unfold InMemoryStorage.challengeHasId; now apply Z.eqb_eq].
    assert (Hnew : isActiveChallenge
                     (InMemoryStorage.assignUpdates updates now
                        (InMemoryStorage.deactivate ch)) = true).
    { unfold isActiveChallenge. simpl. now rewrite Hact. }
    repeat split.
    + rewrite filter_app, deactivate_inactive. simpl.
      rewrite Hnew, deactivate_inactive. reflexivity.
    + apply (find_split isActiveChallenge).
      * apply deactivate_all_inactive.
      * exact Hnew.
Qed.

Lemma activating_call_leaves_only_its_target_active_witness :
  (InsertChallenge.isActive lentChallenge = Val true /\
   exists newCh s',
     InMemoryStorage.createChallenge 20 21 lentChallenge seededStore = (newCh, s') /\
     Challenge.id newCh = InMemoryStorage.challengeId seededStore /\
     activeChallenges s' = [newCh] /\
     InMemoryStorage.getActiveChallenge s' = Some newCh /\
     InMemoryStorage.challenges s'
     = map InMemoryStorage.deactivate (InMemoryStorage.challenges seededStore) ++ [newCh])
  /\
  (In 1 (map Challenge.id (InMemoryStorage.challenges seededStore)) /\
   ChallengeUpdate.isActive activateOnly = Val true /\
   exists l1 ch l2 ch' s',
     InMemoryStorage.challenges seededStore = l1 ++ ch :: l2 /\
     Challenge.id ch = 1 /\
     ~ In 1 (map Challenge.id l1) /\
     InMemoryStorage.updateChallenge 30 1 activateOnly seededStore = (Some ch', s') /\
     Challenge.id ch' = 1 /\
     activeChallenges s' = [ch'] /\
     InMemoryStorage.getActiveChallenge s' = Some ch' /\
     InMemoryStorage.challenges s'
     = map InMemoryStorage.deactivate l1 ++ ch' :: map InMemoryStorage.deactivate l2).
Proof.
  split.
  - split; [reflexivity |].
    apply (proj1 activating_call_leaves_only_its_target_active). reflexivity.
  - split; [simpl; auto |]. split; [reflexivity |].
    apply (proj2 activating_call_leaves_only_its_target_active).
    + simpl. auto.
    + reflexivity.
Defined.

(** ** Counters *)

Lemma orZero_id (n : Z) : orZero n = n.
Proof.
  unfold orZero. destruct (n =? 0) eqn:E; [| reflexivity].
  apply Z.eqb_eq in E. now subst.
Qed.

(** C4. Evaluation at a create request that leaves [isActive] out, on the
    seeded store whose one challenge is active.  The in-memory store keeps
    the new challenge without any [isActive] and the old one active; the
    database store gives the new row the schema default [true] and keeps
    the old row active as well.  Neither deactivates the previously active
    challenge. *)
Theorem createChallenge_without_isActive_evaluated :
  InsertChallenge.isActive adventChallenge = Undefined /\
  map Challenge.id (activeChallenges seededStore) = [1] /\
  (let (newCh, s') := InMemoryStorage.createChallenge 20 21 adventChallenge seededStore in
   Challenge.id newCh = 2 /\
   Challenge.isActive newCh = Undefined /\
   isActiveChallenge newCh = false /\
   map Challenge.id (activeChallenges s') = [1]) /\
  (let (newRow, db') := DatabaseStorage.createChallenge 20 adventChallenge seededDatabase in
   ChallengeRow.id newRow = 2 /\
   ChallengeRow.isActive newRow = Some true /\
   map ChallengeRow.id (filter DatabaseStorage.isActiveEqTrue (DatabaseStorage.challenges db'))
   = [1; 2]).
Proof.
  vm_compute. repeat split; reflexivity.
Qed.

(** Whatever the store, an in-memory create without [isActive] stores the
    input's missing flag and appends to an untouched list. *)
Lemma createChallenge_flag_left_out (c u : Z) (challenge : InsertChallenge.t)
    (s : InMemoryStorage.t) :
  InsertChallenge.isActive challenge = Undefined ->
  Challenge.isActive (fst (InMemoryStorage.createChallenge c u challenge s)) = Undefined /\
  InMemoryStorage.challenges (snd (InMemoryStorage.createChallenge c u challenge s))
  = InMemoryStorage.challenges s ++ [fst (InMemoryStorage.createChallenge c u challenge s)].
Proof.
  intros H. unfold InMemoryStorage.createChallenge. simpl. rewrite H. simpl. auto.
Qed.

(** A sum that is a safe integer is computed exactly. *)
Lemma jsAdd_safe (a b : Z) : safeInteger (a + b) -> jsAdd a b = a + b.
Proof.
  unfold safeInteger, jsAdd, roundToDouble. intros H.
  change (2 ^ 53) with 9007199254740992 in *.
  destruct (Z.abs (a + b) <=? 9007199254740992) eqn:E; [reflexivity |].
  apply Z.leb_gt in E. lia.
Qed.

(** The store method adds the amount it is given, as long as the sum is a
    safe integer. *)
Lemma incrementChallenge_present (now id amount : Z) (s : InMemoryStorage.t)
    (l1 l2 : list Challenge.t) (ch : Challenge.t) :
  InMemoryStorage.challenges s = l1 ++ ch :: l2 ->
  Challenge.id ch = id ->
  ~ In id (map Challenge.id l1) ->
  safeInteger (Challenge.currentCount ch + amount) ->
  exists ch' s',
    InMemoryStorage.incrementChallenge now id amount s = (Some ch', s') /\
    Challenge.currentCount ch' = Challenge.currentCount ch + amount /\
    Challenge.id ch' = id /\
    InMemoryStorage.challenges s' = l1 ++ ch' :: l2.
Proof.
  intros Hl Hid Hl1 Hsafe.
  assert (Hp : InMemoryStorage.challengeHasId id ch = true)
    by (unfold InMemoryStorage.challengeHasId; now apply Z.eqb_eq).
  assert (Hn : Forall (fun y => InMemoryStorage.challengeHasId id y = false) l1)
    by (now apply find_None_Forall, challenge_find_None).
  unfold InMemoryStorage.incrementChallenge.
  rewrite Hl, (@find_split _ _ l1 l2 ch Hn Hp).
  eexists. eexists. split; [reflexivity |].
  cbn [InMemoryStorage.challenges InMemoryStorage.set_challenges
       InMemoryStorage.countOn Challenge.currentCount Challenge.id
       Challenge.set_currentCount Challenge.set_updatedAt].
  rewrite orZero_id, (jsAdd_safe _ _ Hsafe), (@update_first_split _ _ _ l1 l2 ch Hn Hp).
  auto.
Qed.

(** C5, as stated, fails: a request carrying the amount 5 for the seeded
    challenge (count 42) is answered with the count 43, not 47. *)
Lemma increment_request_amount_is_ignored :
  exists ch ch' s',
    find (InMemoryStorage.challengeHasId 1) (InMemoryStorage.challenges seededStore) = Some ch /\
    Routes.challenges_increment 30 1 (Val 5) seededStore
    = (Routes.mkResponse 200 (Routes.JsonChallenge ch'), s') /\
    Challenge.currentCount ch = 42 /\
    Challenge.currentCount ch' = 43 /\
    Challenge.currentCount ch' <> Challenge.currentCount ch + 5.
Proof.
  eexists. eexists. eexists.
  split; [reflexivity |]. split; [reflexivity |].
  split; [reflexivity |]. split; [reflexivity |].
  vm_compute. intros H. discriminate H.
Qed.

(** C5, amended. For a stored challenge id whose count plus 1 is a safe
    integer, the increment request is answered 200 with the challenge
    whose [currentCount] has grown by exactly 1, whatever amount the
    request carries; the store method [incrementChallenge] grows
    [currentCount] by exactly the amount its caller passes, as long as the
    sum is a safe integer, and the handler passes 1.  No other challenge
    changes. *)
Theorem increment_request_adds_one (now id : Z) (s : InMemoryStorage.t) :
  In id (map Challenge.id (InMemoryStorage.challenges s)) ->
  exists l1 ch l2,
    InMemoryStorage.challenges s = l1 ++ ch :: l2 /\
    Challenge.id ch = id /\
    ~ In id (map Challenge.id l1) /\
    (forall amount : Z,
        safeInteger (Challenge.currentCount ch + amount) ->
        exists ch' s',
          InMemoryStorage.incrementChallenge now id amount s = (Some ch', s') /\
          Challenge.currentCount ch' = Challenge.currentCount ch + amount /\
          InMemoryStorage.challenges s' = l1 ++ ch' :: l2) /\
    (forall amount : JsOpt Z,
        safeInteger (Challenge.currentCount ch + 1) ->
        exists ch' s',
          Routes.challenges_increment now id amount s
          = (Routes.mkResponse 200 (Routes.JsonChallenge ch'), s') /\
          Challenge.currentCount ch' = Challenge.currentCount ch + 1 /\
          InMemoryStorage.challenges s' = l1 ++ ch' :: l2).
Proof.
  intros Hin.
  destruct (challenge_find_present _ _ Hin) as (l1 & ch & l2 & Hl & Hid & Hl1 & _ & _).
  exists l1, ch, l2. repeat split; auto.
  - intros amount Hsafe.
    destruct (@incrementChallenge_present now id amount s l1 l2 ch Hl Hid Hl1 Hsafe)
      as (ch' & s' & E & Hc & _ & Hs).
    exists ch', s'. auto.
  - intros amount Hsafe.
    destruct (@incrementChallenge_present now id 1 s l1 l2 ch Hl Hid Hl1 Hsafe)
      as (ch' & s' & E & Hc & _ & Hs).
    exists ch', s'. unfold Routes.challenges_increment. rewrite E. auto.
Qed.

Lemma increment_request_adds_one_witness :
  In 1 (map Challenge.id (InMemoryStorage.challenges seededStore)) /\
  exists l1 ch l2,
    InMemoryStorage.challenges seededStore = l1 ++ ch :: l2 /\
    Challenge.id ch = 1 /\
    ~ In 1 (map Challenge.id l1) /\
    safeInteger (Challenge.currentCount ch + 5) /\
    safeInteger (Challenge.currentCount ch + 1) /\
    (exists ch' s',
        InMemoryStorage.incrementChallenge 30 1 5 seededStore = (Some ch', s') /\
        Challenge.currentCount ch' = Challenge.currentCount ch + 5 /\
        InMemoryStorage.challenges s' = l1 ++ ch' :: l2) /\
    (exists ch' s',
        Routes.challenges_increment 30 1 (Val 5) seededStore
        = (Routes.mkResponse 200 (Routes.JsonChallenge ch'), s') /\
        Challenge.currentCount ch' = Challenge.currentCount ch + 1 /\
        InMemoryStorage.challenges s' = l1 ++ ch' :: l2).
Proof.
  assert (Hin : In 1 (map Challenge.id (InMemoryStorage.challenges seededStore)))
    by (simpl; auto).
  split; [exact Hin |].
  destruct (@increment_request_adds_one 30 1 seededStore Hin)
    as (l1 & ch & l2 & Hl & Hid & Hl1 & Hstore & Hroute).
  assert (Hch : Challenge.currentCount ch = 42).
  { destruct l1 as [| c l1]; simpl in Hl.
    - injection Hl as <- _. reflexivity.
    - injection Hl as _ Hl. destruct l1; discriminate Hl. }
  assert (H5 : safeInteger (Challenge.currentCount ch + 5))
    by (rewrite Hch; unfold safeInteger; simpl; lia).
  assert (H1 : safeInteger (Challenge.currentCount ch + 1))
    by (rewrite Hch; unfold safeInteger; simpl; lia).
  exists l1, ch, l2.
  split; [exact Hl |]. split; [exact Hid |]. split; [exact Hl1 |].
  split; [exact H5 |]. split; [exact H1 |].
  split; [exact (Hstore 5 H5) | exact (Hroute (Val 5) H1)].
Defined.

(** ** Intentions *)

Lemma prayerTypes_cases (type : string) :
  In type Routes.prayerTypes ->
  type = "hailMary" \/ type = "ourFather" \/ type = "rosary".
Proof.
  simpl. intros [H | [H | [H | []]]]; auto.
Qed.

(** C6, as stated, fails: a hail-mary prayer on an intention whose
    hail-mary counter is 2^53 leaves the counter at 2^53, because the sum
    2^53 + 1 is no JavaScript number and is rounded back. *)
Lemma pray_at_the_largest_count_adds_nothing :
  exists it it' s',
    find (InMemoryStorage.intentionHasId 1) (InMemoryStorage.intentions brimmingStore)
    = Some it /\
    InMemoryStorage.incrementIntentionPrayer 30 1 "hailMary" brimmingStore = (Some it', s') /\
    Intention.hailMaryCount it = 9007199254740992 /\
    Intention.hailMaryCount it' = 9007199254740992 /\
    Intention.hailMaryCount it' <> Intention.hailMaryCount it + 1.
Proof.
  eexists. eexists. eexists.
  split; [reflexivity |]. split; [reflexivity |].
  split; [reflexivity |]. split; [vm_compute; reflexivity |].
  vm_compute. intros H. discriminate H.
Qed.

(** C6, amended. For a stored intention id and a type among hailMary,
    ourFather and rosary, as long as the counter named by the type plus 1
    is a safe integer (below 2^53), [incrementIntentionPrayer] of the
    in-memory store returns the stored intention with the counter named by
    the type one higher, the other two counters, [id], [content], [name],
    [prayerType], [isPrinted] and [createdAt] as they were; every other
    intention of the store, the challenges and both id counters are as
    they were. *)
Theorem pray_increments_only_the_named_counter
    (now id : Z) (type : string) (s : InMemoryStorage.t) :
  In type Routes.prayerTypes ->
  In id (map Intention.id (InMemoryStorage.intentions s)) ->
  exists l1 it l2,
    InMemoryStorage.intentions s = l1 ++ it :: l2 /\
    Intention.id it = id /\
    ~ In id (map Intention.id l1) /\
    (safeInteger (counterOf type it + 1) ->
     exists it' s',
       InMemoryStorage.incrementIntentionPrayer now id type s = (Some it', s') /\
       InMemoryStorage.intentions s' = l1 ++ it' :: l2 /\
       InMemoryStorage.challenges s' = InMemoryStorage.challenges s /\
       InMemoryStorage.intentionId s' = InMemoryStorage.intentionId s /\
       InMemoryStorage.challengeId s' = InMemoryStorage.challengeId s /\
       Intention.hailMaryCount it' = Intention.hailMaryCount it + bump type "hailMary" /\
       Intention.ourFatherCount it' = Intention.ourFatherCount it + bump type "ourFather" /\
       Intention.rosaryCount it' = Intention.rosaryCount it + bump type "rosary" /\
       bump type "hailMary" + bump type "ourFather" + bump type "rosary" = 1 /\
       Intention.id it' = Intention.id it /\
       Intention.content it' = Intention.content it /\
       Intention.name it' = Intention.name it /\
       Intention.prayerType it' = Intention.prayerType it /\
       Intention.isPrinted it' = Intention.isPrinted it /\
       Intention.createdAt it' = Intention.createdAt it).
Proof.
  intros Hty Hin.
  destruct (intention_find_present _ _ Hin) as (l1 & it & l2 & Hl & Hid & Hl1 & F & Hno).
  assert (Hp : InMemoryStorage.intentionHasId id it = true)
    by (unfold InMemoryStorage.intentionHasId; now apply Z.eqb_eq).
  exists l1, it, l2.
  split; [exact Hl |]. split; [exact Hid |]. split; [exact Hl1 |].
  intros Hsafe.
  unfold InMemoryStorage.incrementIntentionPrayer. rewrite F.
  eexists. eexists.
  split; [reflexivity |].
  cbn [InMemoryStorage.intentions InMemoryStorage.challenges
       InMemoryStorage.intentionId InMemoryStorage.challengeId
       InMemoryStorage.set_intentions].
  split; [rewrite Hl; now apply update_first_split |].
  destruct (prayerTypes_cases Hty) as [-> | [-> | ->]];
    cbn in Hsafe;
    cbn [InMemoryStorage.prayOn String.eqb Ascii.eqb Bool.eqb bump andb
         Intention.hailMaryCount Intention.ourFatherCount Intention.rosaryCount
         Intention.id Intention.content Intention.name Intention.prayerType
         Intention.isPrinted Intention.createdAt
         Intention.set_hailMaryCount Intention.set_ourFatherCount
         Intention.set_rosaryCount Intention.set_updatedAt];
    rewrite orZero_id, (jsAdd_safe _ _ Hsafe); repeat split; lia.
Qed.

Lemma pray_increments_only_the_named_counter_witness :
  In "ourFather" Routes.prayerTypes /\
  In 2 (map Intention.id (InMemoryStorage.intentions seededStore)) /\
  exists l1 it l2,
    InMemoryStorage.intentions seededStore = l1 ++ it :: l2 /\
    Intention.id it = 2 /\
    ~ In 2 (map Intention.id l1) /\
    safeInteger (counterOf "ourFather" it + 1) /\
    exists it' s',
      InMemoryStorage.incrementIntentionPrayer 30 2 "ourFather" seededStore = (Some it', s') /\
      InMemoryStorage.intentions s' = l1 ++ it' :: l2 /\
      InMemoryStorage.challenges s' = InMemoryStorage.challenges seededStore /\
      InMemoryStorage.intentionId s' = InMemoryStorage.intentionId seededStore /\
      InMemoryStorage.challengeId s' = InMemoryStorage.challengeId seededStore /\
      Intention.hailMaryCount it' = Intention.hailMaryCount it + bump "ourFather" "hailMary" /\
      Intention.ourFatherCount it' = Intention.ourFatherCount it + bump "ourFather" "ourFather" /\
      Intention.rosaryCount it' = Intention.rosaryCount it + bump "ourFather" "rosary" /\
      bump "ourFather" "hailMary" + bump "ourFather" "ourFather" + bump "ourFather" "rosary" = 1 /\
      Intention.id it' = Intention.id it /\
      Intention.content it' = Intention.content it /\
      Intention.name it' = Intention.name it /\
      Intention.prayerType it' = Intention.prayerType it /\
      Intention.isPrinted it' = Intention.isPrinted it /\
      Intention.createdAt it' = Intention.createdAt it.
Proof.
  assert (Hty : In "ourFather" Routes.prayerTypes) by (simpl; auto).
  assert (Hin : In 2 (map Intention.id (InMemoryStorage.intentions seededStore)))
    by (simpl; auto).
  split; [exact Hty |]. split; [exact Hin |].
  destruct (@pray_increments_only_the_named_counter 30 2 "ourFather" seededStore Hty Hin)
    as (l1 & it & l2 & Hl & Hid & Hl1 & Hstep).
  assert (Hit : Intention.ourFatherCount it = 0).
  { destruct l1 as [| i1 l1]; simpl in Hl.
    - injection Hl as <- _. simpl in Hid. discriminate Hid.
    - injection Hl as _ Hl. destruct l1 as [| i2 l1]; simpl in Hl.
      + injection Hl as <- _. reflexivity.
      + injection Hl as _ Hl. destruct l1; discriminate Hl. }
  assert (Hsafe : safeInteger (counterOf "ourFather" it + 1)).
  { unfold counterOf. simpl. rewrite Hit. unfold safeInteger. simpl. lia. }
  exists l1, it, l2.
  split; [exact Hl |]. split; [exact Hid |]. split; [exact Hl1 |].
  split; [exact Hsafe |]. exact (Hstep Hsafe).
Defined.

(** C7. For an id that no stored intention has and a type among hailMary,
    ourFather and rosary, [incrementIntentionPrayer] of the in-memory store
    returns no intention and leaves the store as it was, and the pray
    handler answers 404 with the message "Intention not found". *)
Theorem pray_on_absent_id_is_not_found
    (now id : Z) (type : string) (s : InMemoryStorage.t) :
  ~ In id (map Intention.id (InMemoryStorage.intentions s)) ->
  In type Routes.prayerTypes ->
  InMemoryStorage.incrementIntentionPrayer now id type s = (None, s) /\
  Routes.intentions_increment now id (Val type) s
  = (Routes.mkResponse 404 (Routes.JsonMessage "Intention not found"), s).
Proof.
  intros Habs Hty. apply intention_find_None in Habs.
  assert (E : InMemoryStorage.incrementIntentionPrayer now id type s = (None, s)).
  { unfold InMemoryStorage.incrementIntentionPrayer. now rewrite Habs. }
  split; [exact E |].
  unfold Routes.intentions_increment. rewrite E.
  destruct (prayerTypes_cases Hty) as [-> | [-> | ->]]; reflexivity.
Qed.

Lemma pray_on_absent_id_is_not_found_witness :
  ~ In 9 (map Intention.id (InMemoryStorage.intentions seededStore)) /\
  In "hailMary" Routes.prayerTypes /\
  InMemoryStorage.incrementIntentionPrayer 30 9 "hailMary" seededStore = (None, seededStore) /\
  Routes.intentions_increment 30 9 (Val "hailMary") seededStore
  = (Routes.mkResponse 404 (Routes.JsonMessage "Intention not found"), seededStore).
Proof.
  assert (Habs : ~ In 9 (map Intention.id (InMemoryStorage.intentions seededStore))).
  { simpl. intros [H | [H | []]]; discriminate H. }
  assert (Hty : In "hailMary" Routes.prayerTypes) by (simpl; auto).
  split; [exact Habs |]. split; [exact Hty |].
  exact (@pray_on_absent_id_is_not_found 30 9 "hailMary" seededStore Habs Hty).
Defined.

(** ** Listing *)

Lemma insert_by_perm (A : Type) (cmp : A -> A -> Z) (x : A) (l : list A) :
  Permutation (insert_by cmp x l) (x :: l).
Proof.
  induction l as [| y r IH]; simpl.
  - apply Permutation_refl.
  - destruct (cmp x y <=? 0).
    + apply Permutation_refl.
    + apply Permutation_trans with (y :: x :: r).
      * now apply perm_skip.
      * apply perm_swap.
Qed.

Lemma sort_by_perm (A : Type) (cmp : A -> A -> Z) (l : list A) :
  Permutation (sort_by cmp l) l.
Proof.
  induction l as [| x r IH]; simpl.
  - apply perm_nil.
  - apply Permutation_trans with (x :: sort_by cmp r).
    + apply insert_by_perm.
    + now apply perm_skip.
Qed.

(** Listing shows exactly the stored intentions. *)
Lemma getIntentions_In (s : InMemoryStorage.t) (i : Intention.t) :
  In i (InMemoryStorage.getIntentions s) <-> In i (InMemoryStorage.intentions s).
Proof.
  unfold InMemoryStorage.getIntentions. split.
  - apply Permutation_in, sort_by_perm.
  - apply Permutation_in, Permutation_sym, sort_by_perm.
Qed.

(** C9. On any store, creating an intention from an object that has only
    [content] and [name], then listing the intentions, lists the returned
    record: it has that content and name, the three counters at 0,
    [isPrinted] false, the store's next id as its id and the clock reading
    as [createdAt]. *)
Theorem created_intention_is_listed
    (createdNow updatedNow : Z) (content name : string) (s : InMemoryStorage.t) :
  exists newInt s',
    InMemoryStorage.createIntention createdNow updatedNow
      (InsertIntention.mk content (Val name) Undefined Undefined Undefined Undefined Undefined) s
    = (newInt, s') /\
    In newInt (InMemoryStorage.getIntentions s') /\
    Intention.content newInt = content /\
    Intention.name newInt = Val name /\
    Intention.hailMaryCount newInt = 0 /\
    Intention.ourFatherCount newInt = 0 /\
    Intention.rosaryCount newInt = 0 /\
    Intention.isPrinted newInt = false /\
    Intention.id newInt = InMemoryStorage.intentionId s /\
    InMemoryStorage.intentionId s' = InMemoryStorage.intentionId s + 1 /\
    Intention.createdAt newInt = createdNow.
Proof.
  eexists. eexists. split; [reflexivity |].
  split.
  - apply getIntentions_In. simpl. apply in_or_app. right. simpl. auto.
  - simpl. repeat split; reflexivity.
Qed.

(** ** Absent challenge ids *)

(** C8. Evaluation of the delete handler at an id that no stored challenge
    has: the answer is 204 with an empty body, the same as for a stored id,
    and the store is as it was.  The handler has no 404 answer. *)
Theorem delete_absent_challenge_evaluated :
  ~ In 7 (map Challenge.id (InMemoryStorage.challenges seededStore)) /\
  Routes.admin_challenges_delete 7 seededStore
  = (Routes.mkResponse 204 Routes.NoBody, seededStore) /\
  Routes.status (fst (Routes.admin_challenges_delete 1 seededStore)) = 204.
Proof.
  repeat split.
  simpl. intros [H | []]. discriminate H.
Qed.

(** The delete handler answers 204 for every id and every store. *)
Lemma delete_always_answers_204 (id : Z) (s : InMemoryStorage.t) :
  Routes.status (fst (Routes.admin_challenges_delete id s)) = 204.
Proof.
  reflexivity.
Qed.

(** X21. The in-memory [updateChallenge] looks the id up before anything else:
    on an absent id it returns nothing and the store is as it was, also for
    an update that sets [isActive: true]; the handler answers 404. *)
Lemma updateChallenge_absent_in_memory
    (now id : Z) (updates : ChallengeUpdate.t) (s : InMemoryStorage.t) :
  ~ In id (map Challenge.id (InMemoryStorage.challenges s)) ->
  InMemoryStorage.updateChallenge now id updates s = (None, s) /\
  Routes.admin_challenges_update now id updates s
  = (Routes.mkResponse 404 (Routes.JsonMessage "Challenge not found"), s).
Proof.
  intros Habs. apply challenge_find_None in Habs.
  assert (E : InMemoryStorage.updateChallenge now id updates s = (None, s)).
  { unfold InMemoryStorage.updateChallenge. now rewrite Habs. }
  split; [exact E |].
  unfold Routes.admin_challenges_update. now rewrite E.
Qed.

(** C10. Evaluation of [DatabaseStorage.updateChallenge] at an absent id
    with an update that sets [isActive: true], on the seeded table whose
    one row (id 1) is active: the call returns no row, and the table it
    leaves has row 1 with [isActive = false] and no active row at all. *)
Theorem database_update_absent_id_evaluated :
  ~ In 7 (map ChallengeRow.id (DatabaseStorage.challenges seededDatabase)) /\
  map ChallengeRow.id
    (filter DatabaseStorage.isActiveEqTrue (DatabaseStorage.challenges seededDatabase)) = [1] /\
  (let (result, db') := DatabaseStorage.updateChallenge 7 activateOnly seededDatabase in
   result = DatabaseStorage.Returned None /\
   map ChallengeRow.isActive (DatabaseStorage.challenges db') = [Some false] /\
   DatabaseStorage.getActiveChallenge db' = None /\
   DatabaseStorage.challenges db' <> DatabaseStorage.challenges seededDatabase).
Proof.
  split; [simpl; intros [H | []]; discriminate H |].
  split; [reflexivity |].
  vm_compute. repeat split; try reflexivity.
  intros H. discriminate H.
Qed.

(** ** Ids in the states the store can be in *)

Lemma freshIds_snoc (ids : list Z) (next : Z) :
  freshIds ids next -> freshIds (ids ++ [next]) (next + 1).
Proof.
  intros [Hnd Hlt]. split.
  - apply Permutation_NoDup with (l := next :: ids).
    + apply Permutation_cons_append.
    + constructor; [| exact Hnd].
      intros Hin. rewrite Forall_forall in Hlt. specialize (Hlt _ Hin). lia.
  - apply Forall_app. split.
    + eapply Forall_impl; [| exact Hlt]. simpl. intros. lia.
    + constructor; [lia | constructor].
Qed.

Lemma freshIds_filter (A : Type) (key : A -> Z) (keep : A -> bool) (l : list A) (next : Z) :
  freshIds (map key l) next -> freshIds (map key (filter keep l)) next.
Proof.
  intros [Hnd Hlt]. induction l as [| x r IH]; simpl in *.
  - split; constructor.
  - inversion Hnd as [| ? ? Hx Hr]; subst. inversion Hlt as [| ? ? Hx' Hr']; subst.
    destruct (IH Hr Hr') as [IH1 IH2].
    destruct (keep x); [| split; assumption].
    split; simpl.
    + constructor; [| exact IH1].
      intros Hin. apply Hx. apply in_map_iff in Hin.
      destruct Hin as (y & Hy & Hin). apply filter_In in Hin.
      apply in_map_iff. exists y. tauto.
    + constructor; assumption.
Qed.

Lemma map_update_first (A : Type) (key : A -> Z) (p : A -> bool) (f : A -> A) (l : list A) :
  (forall x, key (f x) = key x) ->
  map key (update_first p f l) = map key l.
Proof.
  intros Hf. induction l as [| x r IH]; simpl; [reflexivity |].
  destruct (p x); simpl; [now rewrite Hf | now rewrite IH].
Qed.

Lemma map_id_deactivate (l : list Challenge.t) :
  map Challenge.id (map InMemoryStorage.deactivate l) = map Challenge.id l.
Proof.
  rewrite map_map. reflexivity.
Qed.

Lemma runChallengeOp_intentions (op : ChallengeOp) (s : InMemoryStorage.t) :
  InMemoryStorage.intentions (runChallengeOp op s) = InMemoryStorage.intentions s /\
  InMemoryStorage.intentionId (runChallengeOp op s) = InMemoryStorage.intentionId s.
Proof.
  destruct op as [c u challenge | now id updates | now id amount | id]; simpl; auto.
  - unfold InMemoryStorage.updateChallenge. now destruct (find _ _).
  - unfold InMemoryStorage.incrementChallenge. now destruct (find _ _).
Qed.

Lemma runIntentionOp_challengeId (op : IntentionOp) (s : InMemoryStorage.t) :
  InMemoryStorage.challengeId (runIntentionOp op s) = InMemoryStorage.challengeId s.
Proof.
  destruct op as [c u i | now id type | now id]; simpl; try reflexivity.
  - unfold InMemoryStorage.incrementIntentionPrayer. now destruct (find _ _).
  - unfold InMemoryStorage.markIntentionPrinted. now destruct (find _ _).
Qed.

Lemma runChallengeOp_wellFormed (op : ChallengeOp) (s : InMemoryStorage.t) :
  wellFormed s -> wellFormed (runChallengeOp op s).
Proof.
  intros [Hi Hc]. split.
  - destruct (runChallengeOp_intentions op s) as [-> ->]. exact Hi.
  - destruct op as [c u challenge | now id updates | now id amount | id]; simpl.
    + rewrite map_app. simpl.
      replace (map Challenge.id
                 (if truthy (InsertChallenge.isActive challenge)
                  then map InMemoryStorage.deactivate (InMemoryStorage.challenges s)
                  else InMemoryStorage.challenges s))
        with (map Challenge.id (InMemoryStorage.challenges s))
        by (destruct (truthy _); [now rewrite map_id_deactivate | reflexivity]).
      now apply freshIds_snoc.
    + unfold InMemoryStorage.updateChallenge.
      destruct (find _ _); simpl; [| exact Hc].
      rewrite map_update_first by reflexivity.
      rewrite map_map.
      erewrite map_ext; [exact Hc |].
      intros a. now destruct (truthy _).
    + unfold InMemoryStorage.incrementChallenge.
      destruct (find _ _); simpl; [| exact Hc].
      now rewrite map_update_first by reflexivity.
    + now apply freshIds_filter.
Qed.

Lemma runIntentionOp_wellFormed (op : IntentionOp) (s : InMemoryStorage.t) :
  wellFormed s -> wellFormed (runIntentionOp op s).
Proof.
  intros [Hi Hc]. split.
  - destruct op as [c u i | now id type | now id]; simpl.
    + rewrite map_app. simpl. now apply freshIds_snoc.
    + unfold InMemoryStorage.incrementIntentionPrayer.
      destruct (find _ _); simpl; [| exact Hi].
      rewrite map_update_first; [exact Hi |].
      intros x. unfold InMemoryStorage.prayOn.
      destruct (String.eqb type "hailMary"), (String.eqb type "ourFather"),
        (String.eqb type "rosary"); reflexivity.
    + unfold InMemoryStorage.markIntentionPrinted.
      destruct (find _ _); simpl; [| exact Hi].
      now rewrite map_update_first by reflexivity.
  - rewrite runIntentionOp_challenges, runIntentionOp_challengeId. exact Hc.
Qed.

(** Every state the store can be in is well formed, so the id a create
    call hands out is the id of no stored record. *)
Lemma reachable_wellFormed (s : InMemoryStorage.t) :
  reachable s -> wellFormed s.
Proof.
  induction 1 as [| s op _ IH | s op _ IH].
  - repeat split; constructor.
  - now apply runChallengeOp_wellFormed.
  - now apply runIntentionOp_wellFormed.
Qed.

Lemma reachable_next_ids_unused (s : InMemoryStorage.t) :
  reachable s ->
  ~ In (InMemoryStorage.intentionId s) (map Intention.id (InMemoryStorage.intentions s)) /\
  ~ In (InMemoryStorage.challengeId s) (map Challenge.id (InMemoryStorage.challenges s)).
Proof.
  intros H. destruct (reachable_wellFormed H) as [[_ Hi] [_ Hc]].
  rewrite Forall_forall in Hi, Hc.
  split; intros Hin; [specialize (Hi _ Hin) | specialize (Hc _ Hin)]; lia.
Qed.

(** ** Increments one after the other *)

(** X17. [n] calls of [incrementChallenge(id, 1)] run one after the other
    on a stored challenge whose count and whose count plus [n] are safe
    integers leave its count [n] higher and every other challenge as it
    was. *)
Lemma incrementChallengeEach_adds_length (nows : list Z) (id : Z) :
  forall (s : InMemoryStorage.t) (l1 l2 : list Challenge.t) (ch : Challenge.t),
    InMemoryStorage.challenges s = l1 ++ ch :: l2 ->
    Challenge.id ch = id ->
    ~ In id (map Challenge.id l1) ->
    safeInteger (Challenge.currentCount ch) ->
    safeInteger (Challenge.currentCount ch + Z.of_nat (List.length nows)) ->
    exists ch',
      InMemoryStorage.challenges (incrementChallengeEach nows id s) = l1 ++ ch' :: l2 /\
      Challenge.id ch' = id /\
      Challenge.currentCount ch' = Challenge.currentCount ch + Z.of_nat (List.length nows).
Proof.
  induction nows as [| now r IH]; intros s l1 l2 ch Hl Hid Hl1 Hlo Hhi.
  - exists ch. simpl. repeat split; auto. lia.
  - assert (Hone : safeInteger (Challenge.currentCount ch + 1)).
    { unfold safeInteger in *. cbn [List.length] in Hhi. lia. }
    destruct (@incrementChallenge_present now id 1 s l1 l2 ch Hl Hid Hl1 Hone)
      as (ch1 & s1 & E & Hc & Hid1 & Hs1).
    unfold incrementChallengeEach. cbn [fold_left]. rewrite E. cbn [snd].
    assert (Hhi' : safeInteger (Challenge.currentCount ch1 + Z.of_nat (List.length r))).
    { rewrite Hc. unfold safeInteger in *. cbn [List.length] in Hhi. lia. }
    assert (Hlo' : safeInteger (Challenge.currentCount ch1)) by (now rewrite Hc).
    destruct (IH s1 l1 l2 ch1 Hs1 Hid1 Hl1 Hlo' Hhi') as (ch' & Hs' & Hid' & Hc').
    exists ch'. repeat split; auto.
    rewrite Hc', Hc. cbn [List.length]. lia.
Qed.

(** * Further properties of the stores and handlers *)

(** ** Marking an intention printed *)

Lemma update_first_twice (A : Type) (p : A -> bool) (f g : A -> A) (l : list A) :
  (forall x, p (f x) = p x) ->
  update_first p g (update_first p f l) = update_first p (fun x => g (f x)) l.
Proof.
  intros Hp. induction l as [| x r IH]; simpl; [reflexivity |].
  destruct (p x) eqn:E; simpl.
  - now rewrite Hp, E.
  - now rewrite E, IH.
Qed.

Lemma update_first_ext (A : Type) (p : A -> bool) (f g : A -> A) (l : list A) :
  (forall x, f x = g x) -> update_first p f l = update_first p g l.
Proof.
  intros H. induction l as [| x r IH]; simpl; [reflexivity |].
  now rewrite H, IH.
Qed.

Lemma find_update_first (A : Type) (p : A -> bool) (f : A -> A) (l : list A) :
  (forall x, p (f x) = p x) ->
  find p (update_first p f l) = option_map f (find p l).
Proof.
  intros Hp. induction l as [| x r IH]; simpl; [reflexivity |].
  destruct (p x) eqn:E; simpl.
  - now rewrite Hp, E.
  - now rewrite E, IH.
Qed.

(** X1. For a stored intention id, [markIntentionPrinted] returns the
    stored intention with [isPrinted] true and [updatedAt] at the clock
    reading; its id, content, name, prayerType, three counters and
    createdAt are as they were, every other intention, the challenges and
    both id counters are as they were, and the handler answers 200 with
    that intention. *)
Theorem markIntentionPrinted_sets_only_the_flag (now id : Z) (s : InMemoryStorage.t) :
  In id (map Intention.id (InMemoryStorage.intentions s)) ->
  exists l1 it l2 it' s',
    InMemoryStorage.intentions s = l1 ++ it :: l2 /\
    Intention.id it = id /\
    ~ In id (map Intention.id l1) /\
    InMemoryStorage.markIntentionPrinted now id s = (Some it', s') /\
    Routes.admin_intentions_markPrinted now id s
    = (Routes.mkResponse 200 (Routes.JsonIntention it'), s') /\
    InMemoryStorage.intentions s' = l1 ++ it' :: l2 /\
    InMemoryStorage.challenges s' = InMemoryStorage.challenges s /\
    InMemoryStorage.intentionId s' = InMemoryStorage.intentionId s /\
    InMemoryStorage.challengeId s' = InMemoryStorage.challengeId s /\
    Intention.isPrinted it' = true /\
    Intention.updatedAt it' = now /\
    Intention.id it' = Intention.id it /\
    Intention.content it' = Intention.content it /\
    Intention.name it' = Intention.name it /\
    Intention.prayerType it' = Intention.prayerType it /\
    Intention.hailMaryCount it' = Intention.hailMaryCount it /\
    Intention.ourFatherCount it' = Intention.ourFatherCount it /\
    Intention.rosaryCount it' = Intention.rosaryCount it /\
    Intention.createdAt it' = Intention.createdAt it.
Proof.
  intros Hin.
  destruct (intention_find_present _ _ Hin) as (l1 & it & l2 & Hl & Hid & Hl1 & F & Hno).
  assert (Hp : InMemoryStorage.intentionHasId id it = true)
    by (unfold InMemoryStorage.intentionHasId; now apply Z.eqb_eq).
  exists l1, it, l2.
  unfold Routes.admin_intentions_markPrinted, InMemoryStorage.markIntentionPrinted.
  rewrite F.
  eexists. eexists.
  split; [exact Hl |]. split; [exact Hid |]. split; [exact Hl1 |].
  split; [reflexivity |]. split; [reflexivity |].
  cbn [InMemoryStorage.intentions InMemoryStorage.challenges
       InMemoryStorage.intentionId InMemoryStorage.challengeId
       InMemoryStorage.set_intentions].
  split; [rewrite Hl; now apply update_first_split |].
  repeat split.
Qed.

Lemma markIntentionPrinted_sets_only_the_flag_witness :
  In 1 (map Intention.id (InMemoryStorage.intentions seededStore)) /\
  exists l1 it l2 it' s',
    InMemoryStorage.intentions seededStore = l1 ++ it :: l2 /\
    Intention.id it = 1 /\
    ~ In 1 (map Intention.id l1) /\
    InMemoryStorage.markIntentionPrinted 30 1 seededStore = (Some it', s') /\
    Routes.admin_intentions_markPrinted 30 1 seededStore
    = (Routes.mkResponse 200 (Routes.JsonIntention it'), s') /\
    InMemoryStorage.intentions s' = l1 ++ it' :: l2 /\
    InMemoryStorage.challenges s' = InMemoryStorage.challenges seededStore /\
    InMemoryStorage.intentionId s' = InMemoryStorage.intentionId seededStore /\
    InMemoryStorage.challengeId s' = InMemoryStorage.challengeId seededStore /\
    Intention.isPrinted it' = true /\
    Intention.updatedAt it' = 30 /\
    Intention.id it' = Intention.id it /\
    Intention.content it' = Intention.content it /\
    Intention.name it' = Intention.name it /\
    Intention.prayerType it' = Intention.prayerType it /\
    Intention.hailMaryCount it' = Intention.hailMaryCount it /\
    Intention.ourFatherCount it' = Intention.ourFatherCount it /\
    Intention.rosaryCount it' = Intention.rosaryCount it /\
    Intention.createdAt it' = Intention.createdAt it.
Proof.
  split; [simpl; auto |].
  apply (@markIntentionPrinted_sets_only_the_flag 30 1 seededStore). simpl. auto.
Defined.

(** X2. For an id that no stored intention has, [markIntentionPrinted]
    returns nothing, the store is as it was, and the handler answers 404
    with the message "Intention not found". *)
Theorem markIntentionPrinted_absent_id (now id : Z) (s : InMemoryStorage.t) :
  ~ In id (map Intention.id (InMemoryStorage.intentions s)) ->
  InMemoryStorage.markIntentionPrinted now id s = (None, s) /\
  Routes.admin_intentions_markPrinted now id s
  = (Routes.mkResponse 404 (Routes.JsonMessage "Intention not found"), s).
Proof.
  intros Habs. apply intention_find_None in Habs.
  assert (E : InMemoryStorage.markIntentionPrinted now id s = (None, s)).
  { unfold InMemoryStorage.markIntentionPrinted. now rewrite Habs. }
  split; [exact E |].
  unfold Routes.admin_intentions_markPrinted. now rewrite E.
Qed.

Lemma markIntentionPrinted_absent_id_witness :
  ~ In 9 (map Intention.id (InMemoryStorage.intentions seededStore)) /\
  InMemoryStorage.markIntentionPrinted 30 9 seededStore = (None, seededStore) /\
  Routes.admin_intentions_markPrinted 30 9 seededStore
  = (Routes.mkResponse 404 (Routes.JsonMessage "Intention not found"), seededStore).
Proof.
  assert (Habs : ~ In 9 (map Intention.id (InMemoryStorage.intentions seededStore))).
  { simpl. intros [H | [H | []]]; discriminate H. }
  split; [exact Habs |].
  exact (@markIntentionPrinted_absent_id 30 9 seededStore Habs).
Defined.

(** X3. Marking the same intention printed a second time changes nothing
    but [updatedAt]: the store after two calls is the store after the
    later call alone, for every id and store. *)
Theorem markIntentionPrinted_twice (now1 now2 id : Z) (s : InMemoryStorage.t) :
  snd (InMemoryStorage.markIntentionPrinted now2 id
         (snd (InMemoryStorage.markIntentionPrinted now1 id s)))
  = snd (InMemoryStorage.markIntentionPrinted now2 id s).
Proof.
  unfold InMemoryStorage.markIntentionPrinted.
  destruct (find (InMemoryStorage.intentionHasId id) (InMemoryStorage.intentions s))
    as [it |] eqn:F; simpl.
  - rewrite find_update_first by reflexivity. rewrite F. simpl.
    unfold InMemoryStorage.set_intentions. simpl. f_equal.
    rewrite update_first_twice by reflexivity.
    apply update_first_ext. reflexivity.
  - now rewrite F.
Qed.

(** ** Deleting a challenge *)

Lemma find_hd_filter (A : Type) (p : A -> bool) (l : list A) :
  find p l = hd_error (filter p l).
Proof.
  induction l as [| x r IH]; simpl; [reflexivity |].
  now destruct (p x).
Qed.

Lemma filter_comm (A : Type) (p q : A -> bool) (l : list A) :
  filter p (filter q l) = filter q (filter p l).
Proof.
  induction l as [| x r IH]; simpl; [reflexivity |].
  destruct (p x) eqn:P, (q x) eqn:Q; simpl; rewrite ?P, ?Q, IH; reflexivity.
Qed.

Lemma filter_all (A : Type) (p : A -> bool) (l : list A) :
  Forall (fun y => p y = true) l -> filter p l = l.
Proof.
  induction 1 as [| x r Hx _ IH]; simpl; [reflexivity |].
  now rewrite Hx, IH.
Qed.

(** X4. After [deleteChallenge(id)] no stored challenge has that id, the
    challenges with another id are the ones stored before, in the same
    order, neither the listing nor [getActiveChallenge] shows a challenge
    with that id, and the intentions and both id counters are as they
    were. *)
Theorem deleteChallenge_removes_the_id (id : Z) (s : InMemoryStorage.t) :
  let s' := InMemoryStorage.deleteChallenge id s in
  ~ In id (map Challenge.id (InMemoryStorage.challenges s')) /\
  InMemoryStorage.challenges s'
  = filter (fun c => negb (Challenge.id c =? id)) (InMemoryStorage.challenges s) /\
  (forall c, In c (InMemoryStorage.challenges s') <->
             In c (InMemoryStorage.challenges s) /\ Challenge.id c <> id) /\
  (forall c, In c (InMemoryStorage.getChallenges s') -> Challenge.id c <> id) /\
  (forall c, InMemoryStorage.getActiveChallenge s' = Some c -> Challenge.id c <> id) /\
  InMemoryStorage.intentions s' = InMemoryStorage.intentions s /\
  InMemoryStorage.intentionId s' = InMemoryStorage.intentionId s /\
  InMemoryStorage.challengeId s' = InMemoryStorage.challengeId s.
Proof.
  assert (Hiff : forall c,
             In c (InMemoryStorage.challenges (InMemoryStorage.deleteChallenge id s)) <->
             In c (InMemoryStorage.challenges s) /\ Challenge.id c <> id).
  { intros c. simpl. rewrite filter_In.
    unfold InMemoryStorage.challengeHasId. rewrite negb_true_iff, Z.eqb_neq. tauto. }
  cbv zeta.
  split.
  { rewrite in_map_iff. intros (c & Hc & Hin). apply Hiff in Hin. tauto. }
  split; [reflexivity |].
  split; [exact Hiff |].
  split.
  { intros c Hin E. unfold InMemoryStorage.getChallenges in Hin.
    apply (Permutation_in _ (sort_by_perm _ _)) in Hin.
    apply Hiff in Hin. tauto. }
  split.
  { intros c Hact E. unfold InMemoryStorage.getActiveChallenge in Hact.
    apply find_some in Hact. destruct Hact as [Hin _].
    apply Hiff in Hin. tauto. }
  repeat split.
Qed.

(** X5. Deleting an id that no stored challenge has leaves the store
    exactly as it was. *)
Theorem deleteChallenge_absent_id (id : Z) (s : InMemoryStorage.t) :
  ~ In id (map Challenge.id (InMemoryStorage.challenges s)) ->
  InMemoryStorage.deleteChallenge id s = s.
Proof.
  intros Habs. destruct s as [ints chs iid cid].
  unfold InMemoryStorage.deleteChallenge, InMemoryStorage.set_challenges. simpl in *.
  f_equal. apply filter_all, Forall_forall. intros c Hin.
  unfold InMemoryStorage.challengeHasId. apply negb_true_iff, Z.eqb_neq.
  intros E. apply Habs, in_map_iff. now exists c.
Qed.

Lemma deleteChallenge_absent_id_witness :
  ~ In 7 (map Challenge.id (InMemoryStorage.challenges seededStore)) /\
  InMemoryStorage.deleteChallenge 7 seededStore = seededStore.
Proof.
  assert (Habs : ~ In 7 (map Challenge.id (InMemoryStorage.challenges seededStore))).
  { simpl. intros [H | []]. discriminate H. }
  split; [exact Habs |].
  exact (@deleteChallenge_absent_id 7 seededStore Habs).
Defined.

(** ** The active challenge *)

Lemma single_active (s : InMemoryStorage.t) (c : Challenge.t) :
  atMostOneActive s ->
  In c (InMemoryStorage.challenges s) ->
  isActiveChallenge c = true ->
  activeChallenges s = [c].
Proof.
  unfold atMostOneActive. intros Hle Hin Hact.
  assert (Hc : In c (activeChallenges s)) by (apply filter_In; auto).
  destruct (activeChallenges s) as [| x [| y r]]; simpl in *.
  - contradiction.
  - destruct Hc as [-> | []]. reflexivity.
  - lia.
Qed.

(** X6. In a store with at most one active challenge, [getActiveChallenge]
    returns a challenge exactly when it is stored and active, and returns
    nothing exactly when no stored challenge is active; the handler then
    answers [null]. *)
Theorem getActiveChallenge_is_the_active_one (s : InMemoryStorage.t) :
  atMostOneActive s ->
  (forall c, InMemoryStorage.getActiveChallenge s = Some c <->
             In c (InMemoryStorage.challenges s) /\ isActiveChallenge c = true) /\
  (InMemoryStorage.getActiveChallenge s = None <->
   forall c, In c (InMemoryStorage.challenges s) -> isActiveChallenge c = false) /\
  (InMemoryStorage.getActiveChallenge s = None ->
   Routes.challenges_active s = Routes.mkResponse 200 Routes.JsonNull).
Proof.
  intros Hle. repeat split.
  - unfold InMemoryStorage.getActiveChallenge in H. now apply find_some in H.
  - unfold InMemoryStorage.getActiveChallenge in H. now apply find_some in H.
  - intros [Hin Hact].
    unfold InMemoryStorage.getActiveChallenge.
    change (fun c0 => truthy (Challenge.isActive c0)) with isActiveChallenge.
    rewrite find_hd_filter.
    change (filter isActiveChallenge (InMemoryStorage.challenges s))
      with (activeChallenges s).
    now rewrite (@single_active s c Hle Hin Hact).
  - intros H c Hin. unfold InMemoryStorage.getActiveChallenge in H.
    apply (find_none _ _ H c Hin).
  - intros H. unfold InMemoryStorage.getActiveChallenge.
    apply find_None_Forall, Forall_forall. exact H.
  - intros H. unfold Routes.challenges_active. now rewrite H.
Qed.

Lemma getActiveChallenge_is_the_active_one_witness :
  atMostOneActive seededStore /\
  (forall c, InMemoryStorage.getActiveChallenge seededStore = Some c <->
             In c (InMemoryStorage.challenges seededStore) /\ isActiveChallenge c = true) /\
  (InMemoryStorage.getActiveChallenge seededStore = None <->
   forall c, In c (InMemoryStorage.challenges seededStore) -> isActiveChallenge c = false) /\
  (InMemoryStorage.getActiveChallenge seededStore = None ->
   Routes.challenges_active seededStore = Routes.mkResponse 200 Routes.JsonNull).
Proof.
  assert (H : atMostOneActive seededStore).
  { unfold atMostOneActive. simpl. lia. }
  split; [exact H |].
  exact (@getActiveChallenge_is_the_active_one seededStore H).
Defined.

(** X7. In a store with at most one active challenge, deleting the
    challenge [getActiveChallenge] returns leaves no active challenge:
    [getActiveChallenge] then returns nothing. *)
Theorem deleting_the_active_challenge_leaves_none (s : InMemoryStorage.t) (c : Challenge.t) :
  atMostOneActive s ->
  InMemoryStorage.getActiveChallenge s = Some c ->
  InMemoryStorage.getActiveChallenge (InMemoryStorage.deleteChallenge (Challenge.id c) s) = None /\
  activeChallenges (InMemoryStorage.deleteChallenge (Challenge.id c) s) = [].
Proof.
  intros Hle Hget.
  assert (Hc : In c (InMemoryStorage.challenges s) /\ isActiveChallenge c = true).
  { unfold InMemoryStorage.getActiveChallenge in Hget. now apply find_some in Hget. }
  destruct Hc as [Hin Hact].
  assert (Hnone : activeChallenges (InMemoryStorage.deleteChallenge (Challenge.id c) s) = []).
  { unfold activeChallenges. simpl. rewrite filter_comm.
    change (filter isActiveChallenge (InMemoryStorage.challenges s))
      with (activeChallenges s).
    rewrite (@single_active s c Hle Hin Hact). simpl.
    unfold InMemoryStorage.challengeHasId. now rewrite Z.eqb_refl. }
  split; [| exact Hnone].
  unfold InMemoryStorage.getActiveChallenge.
  change (fun c0 => truthy (Challenge.isActive c0)) with isActiveChallenge.
  rewrite find_hd_filter.
  change (filter isActiveChallenge
            (InMemoryStorage.challenges (InMemoryStorage.deleteChallenge (Challenge.id c) s)))
    with (activeChallenges (InMemoryStorage.deleteChallenge (Challenge.id c) s)).
  now rewrite Hnone.
Qed.

Lemma deleting_the_active_challenge_leaves_none_witness :
  atMostOneActive seededStore /\
  (exists c,
      InMemoryStorage.getActiveChallenge seededStore = Some c /\
      InMemoryStorage.getActiveChallenge
        (InMemoryStorage.deleteChallenge (Challenge.id c) seededStore) = None /\
      activeChallenges (InMemoryStorage.deleteChallenge (Challenge.id c) seededStore) = []).
Proof.
  assert (H : atMostOneActive seededStore).
  { unfold atMostOneActive. simpl. lia. }
  split; [exact H |].
  eexists. split; [reflexivity |].
  exact (@deleting_the_active_challenge_leaves_none seededStore _ H eq_refl).
Defined.

(** ** Listings *)

Section Listing.

Variable A : Type.
Variable createdAt : A -> Z.

Let newestCmp (a b : A) : Z := createdAt b - createdAt a.

Lemma insert_by_In (x y : A) (l : list A) :
  In y (insert_by newestCmp x l) <-> y = x \/ In y l.
Proof.
  split; intros H.
  - apply (Permutation_in _ (insert_by_perm _ _ _)) in H. simpl in H. intuition.
  - apply (Permutation_in _ (Permutation_sym (insert_by_perm newestCmp x l))).
    simpl. intuition.
Qed.

Lemma insert_by_newestFirst (x : A) (l : list A) :
  newestFirst createdAt l -> newestFirst createdAt (insert_by newestCmp x l).
Proof.
  unfold newestFirst. induction 1 as [| y r Hr IH Hy]; simpl.
  - constructor; constructor.
  - unfold newestCmp at 1. destruct (createdAt y - createdAt x <=? 0) eqn:E.
    + apply Z.leb_le in E. constructor.
      * now constructor.
      * constructor; [lia |].
        eapply Forall_impl; [| exact Hy]. simpl. intros. lia.
    + apply Z.leb_gt in E. constructor; [exact IH |].
      apply Forall_forall. intros z Hz. apply insert_by_In in Hz.
      destruct Hz as [-> | Hz]; [lia |].
      rewrite Forall_forall in Hy. now apply Hy.
Qed.

Lemma sort_by_newestFirst (l : list A) :
  newestFirst createdAt (sort_by newestCmp l).
Proof.
  induction l as [| x r IH]; simpl.
  - constructor.
  - now apply insert_by_newestFirst.
Qed.

(** Records created at the same instant keep the order of the array. *)
Lemma insert_by_filter_instant (t : Z) (x : A) (l : list A) :
  filter (fun a => createdAt a =? t) (insert_by newestCmp x l)
  = filter (fun a => createdAt a =? t) (x :: l).
Proof.
  induction l as [| y r IH]; simpl; [reflexivity |].
  unfold newestCmp at 1. destruct (createdAt y - createdAt x <=? 0) eqn:E.
  - reflexivity.
  - apply Z.leb_gt in E. simpl in *. rewrite IH.
    destruct (createdAt x =? t) eqn:Ex, (createdAt y =? t) eqn:Ey; try reflexivity.
    apply Z.eqb_eq in Ex, Ey. lia.
Qed.

Lemma sort_by_filter_instant (t : Z) (l : list A) :
  filter (fun a => createdAt a =? t) (sort_by newestCmp l)
  = filter (fun a => createdAt a =? t) l.
Proof.
  induction l as [| x r IH]; simpl; [reflexivity |].
  rewrite insert_by_filter_instant. simpl. now rewrite IH.
Qed.

Lemma insert_by_older (x : A) (l : list A) :
  Forall (fun y => createdAt x < createdAt y) l ->
  insert_by newestCmp x l = l ++ [x].
Proof.
  induction 1 as [| y r Hy _ IH]; simpl; [reflexivity |].
  unfold newestCmp at 1.
  destruct (createdAt y - createdAt x <=? 0) eqn:E.
  - apply Z.leb_le in E. lia.
  - now rewrite IH.
Qed.

Lemma sort_by_createdInOrder (l : list A) :
  createdInOrder createdAt l -> sort_by newestCmp l = rev l.
Proof.
  unfold createdInOrder. induction 1 as [| x r Hr IH Hx]; simpl; [reflexivity |].
  rewrite IH. apply insert_by_older.
  apply Forall_forall. intros y Hy. apply in_rev in Hy.
  rewrite Forall_forall in Hx. now apply Hx.
Qed.

End Listing.

(** X8. [getIntentions] and [getChallenges] list exactly the stored
    records, each as often as it is stored, newest first: no record comes
    before one with a later [createdAt]. *)
Theorem listings_are_newest_first (s : InMemoryStorage.t) :
  Permutation (InMemoryStorage.getIntentions s) (InMemoryStorage.intentions s) /\
  newestFirst Intention.createdAt (InMemoryStorage.getIntentions s) /\
  Permutation (InMemoryStorage.getChallenges s) (InMemoryStorage.challenges s) /\
  newestFirst Challenge.createdAt (InMemoryStorage.getChallenges s).
Proof.
  unfold InMemoryStorage.getIntentions, InMemoryStorage.getChallenges.
  repeat split.
  - apply sort_by_perm.
  - apply (sort_by_newestFirst Intention.createdAt).
  - apply sort_by_perm.
  - apply (sort_by_newestFirst Challenge.createdAt).
Qed.

(** X9. Records with the same [createdAt] are listed in the order they
    were stored (the older first): for every instant, the records of that
    instant appear in a listing in the order they have in the store. *)
Theorem listings_keep_ties_in_store_order (t : Z) (s : InMemoryStorage.t) :
  filter (fun i => Intention.createdAt i =? t) (InMemoryStorage.getIntentions s)
  = filter (fun i => Intention.createdAt i =? t) (InMemoryStorage.intentions s) /\
  filter (fun c => Challenge.createdAt c =? t) (InMemoryStorage.getChallenges s)
  = filter (fun c => Challenge.createdAt c =? t) (InMemoryStorage.challenges s).
Proof.
  unfold InMemoryStorage.getIntentions, InMemoryStorage.getChallenges. split.
  - apply (sort_by_filter_instant Intention.createdAt).
  - apply (sort_by_filter_instant Challenge.createdAt).
Qed.

(** X10. When the stored records were created at strictly increasing
    instants, a listing is the store in reverse. *)
Theorem listings_reverse_distinct_instants (s : InMemoryStorage.t) :
  (createdInOrder Intention.createdAt (InMemoryStorage.intentions s) ->
   InMemoryStorage.getIntentions s = rev (InMemoryStorage.intentions s)) /\
  (createdInOrder Challenge.createdAt (InMemoryStorage.challenges s) ->
   InMemoryStorage.getChallenges s = rev (InMemoryStorage.challenges s)).
Proof.
  unfold InMemoryStorage.getIntentions, InMemoryStorage.getChallenges. split.
  - apply (@sort_by_createdInOrder _ Intention.createdAt).
  - apply (@sort_by_createdInOrder _ Challenge.createdAt).
Qed.

Lemma listings_reverse_distinct_instants_witness :
  createdInOrder Intention.createdAt (InMemoryStorage.intentions stampedStore) /\
  createdInOrder Challenge.createdAt (InMemoryStorage.challenges stampedStore) /\
  InMemoryStorage.getIntentions stampedStore = rev (InMemoryStorage.intentions stampedStore) /\
  InMemoryStorage.getChallenges stampedStore = rev (InMemoryStorage.challenges stampedStore).
Proof.
  assert (Hi : createdInOrder Intention.createdAt (InMemoryStorage.intentions stampedStore)).
  { unfold createdInOrder. simpl.
    repeat constructor; simpl; lia. }
  assert (Hc : createdInOrder Challenge.createdAt (InMemoryStorage.challenges stampedStore)).
  { unfold createdInOrder. simpl.
    repeat constructor; simpl; lia. }
  split; [exact Hi |]. split; [exact Hc |]. split.
  - exact (proj1 (listings_reverse_distinct_instants stampedStore) Hi).
  - exact (proj2 (listings_reverse_distinct_instants stampedStore) Hc).
Defined.

(** ** Status codes of the handlers *)

Lemma includesType_spec (type : JsOpt string) :
  Routes.includesType type = true <-> exists t, type = Val t /\ In t Routes.prayerTypes.
Proof.
  destruct type as [| | t]; simpl.
  - split; [discriminate | intros (t & H & _); discriminate H].
  - split; [discriminate | intros (t & H & _); discriminate H].
  - split.
    + intros H. exists t. split; [reflexivity |].
      repeat rewrite orb_true_iff in H.
      destruct H as [H | [H | [H | H]]]; try discriminate H;
        apply String.eqb_eq in H; subst; auto.
    + intros (t' & E & Hin). injection E as <-.
      destruct Hin as [<- | [<- | [<- | []]]]; reflexivity.
Qed.

Lemma intention_id_dec (id : Z) (l : list Intention.t) :
  {In id (map Intention.id l)} + {~ In id (map Intention.id l)}.
Proof.
  apply in_dec, Z.eq_dec.
Qed.

Lemma pray_step_present (now id : Z) (type : string) (s : InMemoryStorage.t) :
  In id (map Intention.id (InMemoryStorage.intentions s)) ->
  exists it' s',
    InMemoryStorage.incrementIntentionPrayer now id type s = (Some it', s').
Proof.
  intros Hin.
  destruct (intention_find_present _ _ Hin) as (l1 & it & l2 & _ & _ & _ & F & _).
  unfold InMemoryStorage.incrementIntentionPrayer. rewrite F.
  eexists. eexists. reflexivity.
Qed.

Lemma pray_step_absent (now id : Z) (type : string) (s : InMemoryStorage.t) :
  ~ In id (map Intention.id (InMemoryStorage.intentions s)) ->
  InMemoryStorage.incrementIntentionPrayer now id type s = (None, s).
Proof.
  intros Habs. apply intention_find_None in Habs.
  unfold InMemoryStorage.incrementIntentionPrayer. now rewrite Habs.
Qed.

(** X11. The pray handler answers 400 exactly when the body's [type] is
    not one of hailMary, ourFather, rosary (also missing or null), 404
    exactly when the type is one of them and no stored intention has the
    id, and 200 in the remaining case; a 400 carries the message "Invalid
    prayer type", and unless the answer is 200 the store is as it was. *)
Theorem pray_handler_status (now id : Z) (type : JsOpt string) (s : InMemoryStorage.t) :
  let r := fst (Routes.intentions_increment now id type s) in
  let s' := snd (Routes.intentions_increment now id type s) in
  let stored := In id (map Intention.id (InMemoryStorage.intentions s)) in
  let valid := exists t, type = Val t /\ In t Routes.prayerTypes in
  (Routes.status r = 400 <-> ~ valid) /\
  (Routes.status r = 404 <-> valid /\ ~ stored) /\
  (Routes.status r = 200 <-> valid /\ stored) /\
  (Routes.status r = 400 -> Routes.body r = Routes.JsonMessage "Invalid prayer type") /\
  (Routes.status r <> 200 -> s' = s).
Proof.
  cbv zeta.
  destruct (Routes.includesType type) eqn:V.
  - pose proof (proj1 (includesType_spec type) V) as Hv.
    destruct Hv as (t & -> & Ht).
    assert (Hvalid : exists t0, Val t = Val t0 /\ In t0 Routes.prayerTypes)
      by (exists t; auto).
    unfold Routes.intentions_increment. rewrite V.
    destruct (intention_id_dec id (InMemoryStorage.intentions s)) as [Hin | Habs].
    + destruct (@pray_step_present now id t s Hin) as (it' & s' & E).
      rewrite E. simpl.
      repeat split; try tauto; try discriminate; intros; try lia; auto.
      all: try (exfalso; tauto).
    + pose proof (@pray_step_absent now id t s Habs) as E.
      rewrite E. simpl.
      repeat split; try tauto; try discriminate; intros; try lia; auto.
      all: try (exfalso; tauto).
  - assert (Hinv : ~ exists t, type = Val t /\ In t Routes.prayerTypes).
    { intros H. apply includesType_spec in H. congruence. }
    assert (E : Routes.intentions_increment now id type s
                = (Routes.mkResponse 400 (Routes.JsonMessage "Invalid prayer type"), s)).
    { unfold Routes.intentions_increment. destruct type; try reflexivity. now rewrite V. }
    rewrite E. simpl.
    repeat split; try tauto; try discriminate; intros; try lia; auto.
    all: try (exfalso; tauto).
Qed.

(** X12. For an id that no stored challenge has, [incrementChallenge]
    returns nothing whatever the amount, the store is as it was, and the
    increment handler answers 404 with the message "Challenge not found". *)
Theorem incrementChallenge_absent_id
    (now id amount : Z) (body : JsOpt Z) (s : InMemoryStorage.t) :
  ~ In id (map Challenge.id (InMemoryStorage.challenges s)) ->
  InMemoryStorage.incrementChallenge now id amount s = (None, s) /\
  Routes.challenges_increment now id body s
  = (Routes.mkResponse 404 (Routes.JsonMessage "Challenge not found"), s).
Proof.
  intros Habs. apply challenge_find_None in Habs.
  unfold Routes.challenges_increment, InMemoryStorage.incrementChallenge.
  now rewrite Habs.
Qed.

Lemma incrementChallenge_absent_id_witness :
  ~ In 7 (map Challenge.id (InMemoryStorage.challenges seededStore)) /\
  InMemoryStorage.incrementChallenge 30 7 5 seededStore = (None, seededStore) /\
  Routes.challenges_increment 30 7 (Val 5) seededStore
  = (Routes.mkResponse 404 (Routes.JsonMessage "Challenge not found"), seededStore).
Proof.
  assert (Habs : ~ In 7 (map Challenge.id (InMemoryStorage.challenges seededStore))).
  { simpl. intros [H | []]. discriminate H. }
  split; [exact Habs |].
  exact (@incrementChallenge_absent_id 30 7 5 (Val 5) seededStore Habs).
Defined.

Lemma updateChallenge_absent_in_memory_witness :
  ~ In 7 (map Challenge.id (InMemoryStorage.challenges seededStore)) /\
  InMemoryStorage.updateChallenge 30 7 activateOnly seededStore = (None, seededStore) /\
  Routes.admin_challenges_update 30 7 activateOnly seededStore
  = (Routes.mkResponse 404 (Routes.JsonMessage "Challenge not found"), seededStore).
Proof.
  assert (Habs : ~ In 7 (map Challenge.id (InMemoryStorage.challenges seededStore))).
  { simpl. intros [H | []]. discriminate H. }
  split; [exact Habs |].
  exact (@updateChallenge_absent_in_memory 30 7 activateOnly seededStore Habs).
Defined.

(** ** Updates that do not activate *)

Lemma updateChallenge_plain_shape (now id : Z) (updates : ChallengeUpdate.t)
    (s : InMemoryStorage.t) (l1 l2 : list Challenge.t) (ch : Challenge.t) :
  InMemoryStorage.challenges s = l1 ++ ch :: l2 ->
  Challenge.id ch = id ->
  ~ In id (map Challenge.id l1) ->
  truthy (ChallengeUpdate.isActive updates) = false ->
  InMemoryStorage.updateChallenge now id updates s
  = (Some (InMemoryStorage.assignUpdates updates now ch),
     InMemoryStorage.set_challenges
       (l1 ++ InMemoryStorage.assignUpdates updates now ch :: l2) s).
Proof.
  intros Hl Hid Hl1 Hfalse.
  assert (Hp : InMemoryStorage.challengeHasId id ch = true)
    by (unfold InMemoryStorage.challengeHasId; now apply Z.eqb_eq).
  assert (Hn : Forall (fun y => InMemoryStorage.challengeHasId id y = false) l1)
    by (now apply find_None_Forall, challenge_find_None).
  unfold InMemoryStorage.updateChallenge.
  rewrite Hl, (@find_split _ _ l1 l2 ch Hn Hp), Hfalse.
  rewrite map_id.
  now rewrite (@update_first_split _ _ _ l1 l2 ch Hn Hp).
Qed.

(** X13. An update of a stored challenge whose [isActive] is missing, null
    or false rewrites that challenge alone: the fields the update names
    take the new values, [updatedAt] takes the clock reading, [id],
    [currentCount] and [createdAt] stay, and every other challenge, the
    intentions and the id counters are as they were.  The handler answers
    200 with the rewritten challenge. *)
Theorem updateChallenge_rewrites_only_the_target
    (now id : Z) (updates : ChallengeUpdate.t) (s : InMemoryStorage.t) :
  In id (map Challenge.id (InMemoryStorage.challenges s)) ->
  truthy (ChallengeUpdate.isActive updates) = false ->
  exists l1 ch l2 ch' s',
    InMemoryStorage.challenges s = l1 ++ ch :: l2 /\
    Challenge.id ch = id /\
    ~ In id (map Challenge.id l1) /\
    InMemoryStorage.updateChallenge now id updates s = (Some ch', s') /\
    Routes.admin_challenges_update now id updates s
    = (Routes.mkResponse 200 (Routes.JsonChallenge ch'), s') /\
    InMemoryStorage.challenges s' = l1 ++ ch' :: l2 /\
    InMemoryStorage.intentions s' = InMemoryStorage.intentions s /\
    InMemoryStorage.intentionId s' = InMemoryStorage.intentionId s /\
    InMemoryStorage.challengeId s' = InMemoryStorage.challengeId s /\
    Challenge.id ch' = id /\
    Challenge.currentCount ch' = Challenge.currentCount ch /\
    Challenge.createdAt ch' = Challenge.createdAt ch /\
    Challenge.updatedAt ch' = now /\
    Challenge.title ch' = assignOpt (Challenge.title ch) (ChallengeUpdate.title updates) /\
    Challenge.prayerType ch'
    = assignOpt (Challenge.prayerType ch) (ChallengeUpdate.prayerType updates) /\
    Challenge.totalTarget ch'
    = assignOpt (Challenge.totalTarget ch) (ChallengeUpdate.totalTarget updates) /\
    Challenge.isActive ch'
    = assignJsOpt (Challenge.isActive ch) (ChallengeUpdate.isActive updates).
Proof.
  intros Hin Hfalse.
  destruct (challenge_find_present _ _ Hin) as (l1 & ch & l2 & Hl & Hid & Hl1 & _ & _).
  pose proof (@updateChallenge_plain_shape now id updates s l1 l2 ch Hl Hid Hl1 Hfalse) as E.
  exists l1, ch, l2. eexists. eexists.
  split; [exact Hl |]. split; [exact Hid |]. split; [exact Hl1 |].
  split; [exact E |].
  split; [unfold Routes.admin_challenges_update; rewrite E; reflexivity |].
  simpl. repeat split. exact Hid.
Qed.

Lemma updateChallenge_rewrites_only_the_target_witness :
  In 1 (map Challenge.id (InMemoryStorage.challenges stampedStore)) /\
  truthy (ChallengeUpdate.isActive deactivateOnly) = false /\
  exists l1 ch l2 ch' s',
    InMemoryStorage.challenges stampedStore = l1 ++ ch :: l2 /\
    Challenge.id ch = 1 /\
    ~ In 1 (map Challenge.id l1) /\
    InMemoryStorage.updateChallenge 50 1 deactivateOnly stampedStore = (Some ch', s') /\
    Routes.admin_challenges_update 50 1 deactivateOnly stampedStore
    = (Routes.mkResponse 200 (Routes.JsonChallenge ch'), s') /\
    InMemoryStorage.challenges s' = l1 ++ ch' :: l2 /\
    InMemoryStorage.intentions s' = InMemoryStorage.intentions stampedStore /\
    InMemoryStorage.intentionId s' = InMemoryStorage.intentionId stampedStore /\
    InMemoryStorage.challengeId s' = InMemoryStorage.challengeId stampedStore /\
    Challenge.id ch' = 1 /\
    Challenge.currentCount ch' = Challenge.currentCount ch /\
    Challenge.createdAt ch' = Challenge.createdAt ch /\
    Challenge.updatedAt ch' = 50 /\
    Challenge.title ch' = assignOpt (Challenge.title ch) (ChallengeUpdate.title deactivateOnly) /\
    Challenge.prayerType ch'
    = assignOpt (Challenge.prayerType ch) (ChallengeUpdate.prayerType deactivateOnly) /\
    Challenge.totalTarget ch'
    = assignOpt (Challenge.totalTarget ch) (ChallengeUpdate.totalTarget deactivateOnly) /\
    Challenge.isActive ch'
    = assignJsOpt (Challenge.isActive ch) (ChallengeUpdate.isActive deactivateOnly).
Proof.
  split; [simpl; auto |]. split; [reflexivity |].
  apply (@updateChallenge_rewrites_only_the_target 50 1 deactivateOnly stampedStore).
  - simpl. auto.
  - reflexivity.
Defined.

Lemma NoDup_map_same_key (A : Type) (key : A -> Z) (l1 l2 : list A) (x y : A) :
  NoDup (map key (l1 ++ x :: l2)) ->
  ~ In (key x) (map key l1) ->
  In y (l1 ++ x :: l2) ->
  key y = key x ->
  y = x.
Proof.
  intros Hnd Hl1 Hin Hk.
  rewrite map_app in Hnd. simpl in Hnd.
  apply NoDup_remove_2 in Hnd.
  apply in_app_or in Hin. destruct Hin as [Hin | [Hin | Hin]].
  - exfalso. apply Hl1. rewrite <- Hk. now apply in_map.
  - now subst.
  - exfalso. apply Hnd. apply in_or_app. right. rewrite <- Hk. now apply in_map.
Qed.

Lemma singleton_split (A : Type) (l1 l2 : list A) (x : A) :
  l1 ++ x :: l2 = [x] -> l1 = [] /\ l2 = [].
Proof.
  destruct l1 as [| y r]; simpl; intros H.
  - injection H as ->. auto.
  - injection H as _ H. destruct r; discriminate H.
Qed.

(** X14. In a well-formed store with at most one active challenge, an
    update of the active challenge that sets [isActive] to false or null
    leaves no active challenge: [getActiveChallenge] returns nothing
    afterwards.  No other challenge is activated in its place. *)
Theorem deactivating_the_active_challenge_leaves_none
    (now : Z) (updates : ChallengeUpdate.t) (s : InMemoryStorage.t) (c : Challenge.t) :
  wellFormed s ->
  atMostOneActive s ->
  InMemoryStorage.getActiveChallenge s = Some c ->
  ChallengeUpdate.isActive updates <> Undefined ->
  truthy (ChallengeUpdate.isActive updates) = false ->
  let s' := snd (InMemoryStorage.updateChallenge now (Challenge.id c) updates s) in
  activeChallenges s' = [] /\
  InMemoryStorage.getActiveChallenge s' = None.
Proof.
  intros [_ [Hnd _]] Hle Hget Hdef Hfalse.
  assert (Hc : In c (InMemoryStorage.challenges s) /\ isActiveChallenge c = true).
  { unfold InMemoryStorage.getActiveChallenge in Hget. now apply find_some in Hget. }
  destruct Hc as [Hin Hact].
  assert (Hid : In (Challenge.id c) (map Challenge.id (InMemoryStorage.challenges s)))
    by (now apply in_map).
  destruct (challenge_find_present _ _ Hid) as (l1 & ch & l2 & Hl & Hch & Hl1 & _ & _).
  assert (Hsame : c = ch).
  { rewrite Hl in Hnd, Hin. rewrite <- Hch in Hl1.
    now apply (@NoDup_map_same_key _ Challenge.id l1 l2 ch c). }
  subst ch.
  pose proof (@single_active s c Hle Hin Hact) as Hone.
  unfold activeChallenges in Hone. rewrite Hl, filter_app in Hone.
  simpl in Hone. rewrite Hact in Hone.
  apply singleton_split in Hone. destruct Hone as [H1 H2].
  assert (Hnone : activeChallenges
                    (snd (InMemoryStorage.updateChallenge now (Challenge.id c) updates s)) = []).
  { rewrite (@updateChallenge_plain_shape now (Challenge.id c) updates s l1 l2 c
               Hl eq_refl Hl1 Hfalse).
    unfold activeChallenges. simpl. rewrite filter_app. simpl.
    rewrite H1, H2.
    unfold isActiveChallenge at 1. simpl.
    destruct (ChallengeUpdate.isActive updates) as [| | [|]]; simpl in *;
      congruence. }
  cbv zeta. split; [exact Hnone |].
  unfold InMemoryStorage.getActiveChallenge.
  change (fun c0 => truthy (Challenge.isActive c0)) with isActiveChallenge.
  rewrite find_hd_filter.
  unfold activeChallenges in Hnone. now rewrite Hnone.
Qed.

Lemma seededStore_wellFormed : wellFormed seededStore.
Proof.
  repeat split; simpl; repeat constructor; simpl; try lia.
  all: intros H; repeat (destruct H as [H | H]; try discriminate H); exact H.
Qed.

Lemma deactivating_the_active_challenge_leaves_none_witness :
  wellFormed seededStore /\
  atMostOneActive seededStore /\
  ChallengeUpdate.isActive deactivateOnly <> Undefined /\
  truthy (ChallengeUpdate.isActive deactivateOnly) = false /\
  exists c,
    InMemoryStorage.getActiveChallenge seededStore = Some c /\
    activeChallenges
      (snd (InMemoryStorage.updateChallenge 30 (Challenge.id c) deactivateOnly seededStore)) = [] /\
    InMemoryStorage.getActiveChallenge
      (snd (InMemoryStorage.updateChallenge 30 (Challenge.id c) deactivateOnly seededStore)) = None.
Proof.
  assert (Hle : atMostOneActive seededStore).
  { unfold atMostOneActive. simpl. lia. }
  assert (Hdef : ChallengeUpdate.isActive deactivateOnly <> Undefined)
    by (simpl; discriminate).
  split; [exact seededStore_wellFormed |]. split; [exact Hle |].
  split; [exact Hdef |]. split; [reflexivity |].
  eexists. split; [reflexivity |].
  exact (@deactivating_the_active_challenge_leaves_none 30 deactivateOnly seededStore _
           seededStore_wellFormed Hle eq_refl Hdef eq_refl).
Defined.

(** ** Every state the store can be in *)

Lemma seededStore_reachable : reachable seededStore.
Proof.
  exact (reachable_intention (OpCreateIntention 10 10 anonymousIntention)
           (reachable_intention (OpCreateIntention 10 10 mariaIntention)
              (reachable_challenge (OpCreateChallenge 10 10 weeklyRosary)
                 reachable_empty))).
Qed.

Lemma reachable_at_most_one_active_witness :
  reachable seededStore /\ atMostOneActive seededStore.
Proof.
  split; [exact seededStore_reachable |].
  exact (@reachable_at_most_one_active seededStore seededStore_reachable).
Defined.

Lemma Forall_update_first (A : Type) (P : A -> Prop) (p : A -> bool) (f : A -> A) (l : list A) :
  (forall x, P x -> P (f x)) -> Forall P l -> Forall P (update_first p f l).
Proof.
  intros Hf. induction 1 as [| x r Hx Hr IH]; simpl; [constructor |].
  destruct (p x); constructor; auto.
Qed.

Lemma reachable_idsFromOne (s : InMemoryStorage.t) :
  reachable s -> idsFromOne s.
Proof.
  induction 1 as [| s op _ [[Hi Hni] [Hc Hnc]] | s op _ [[Hi Hni] [Hc Hnc]]].
  - repeat split; simpl; try constructor; lia.
  - split.
    + destruct (runChallengeOp_intentions op s) as [-> ->]. auto.
    + destruct op as [c u challenge | now id updates | now id amount | id]; simpl.
      * split; [| lia]. apply Forall_app. split.
        -- destruct (truthy _); [| exact Hc].
           apply Forall_map. exact Hc.
        -- constructor; [simpl; lia | constructor].
      * unfold InMemoryStorage.updateChallenge.
        destruct (find _ _); simpl; [| auto].
        split; [| exact Hnc].
        apply Forall_update_first; [intros x Hx; exact Hx |].
        apply Forall_map.
        eapply Forall_impl; [| exact Hc]. intros a Ha. now destruct (truthy _).
      * unfold InMemoryStorage.incrementChallenge.
        destruct (find _ _); simpl; [| auto].
        split; [| exact Hnc].
        apply Forall_update_first; [intros x Hx; exact Hx | exact Hc].
      * split; [| exact Hnc].
        apply Forall_forall. intros c Hin. apply filter_In in Hin.
        rewrite Forall_forall in Hc. now apply Hc.
  - split.
    + destruct op as [c u i | now id type | now id]; simpl.
      * split; [| lia]. apply Forall_app. split; [exact Hi |].
        constructor; [simpl; lia | constructor].
      * unfold InMemoryStorage.incrementIntentionPrayer.
        destruct (find _ _); simpl; [| auto].
        split; [| exact Hni].
        apply Forall_update_first; [| exact Hi].
        intros x Hx. unfold InMemoryStorage.prayOn.
        destruct (String.eqb type "hailMary"), (String.eqb type "ourFather"),
          (String.eqb type "rosary"); exact Hx.
      * unfold InMemoryStorage.markIntentionPrinted.
        destruct (find _ _); simpl; [| auto].
        split; [| exact Hni].
        apply Forall_update_first; [intros x Hx; exact Hx | exact Hi].
    + rewrite runIntentionOp_challenges, runIntentionOp_challengeId. auto.
Qed.

Lemma reachable_ids_positive (s : InMemoryStorage.t) :
  reachable s ->
  Forall (fun i => 1 <= Intention.id i) (InMemoryStorage.intentions s) /\
  Forall (fun c => 1 <= Challenge.id c) (InMemoryStorage.challenges s).
Proof.
  intros H. destruct (reachable_idsFromOne H) as [[Hi _] [Hc _]]. auto.
Qed.

(** X16. In every state the in-memory store can reach, no two stored
    intentions share an id and no two stored challenges do, every stored
    id is below its counter, and so the id the next create call hands out
    is the id of no stored record. *)
Theorem ids_are_unique_always (s : InMemoryStorage.t) :
  reachable s ->
  NoDup (map Intention.id (InMemoryStorage.intentions s)) /\
  NoDup (map Challenge.id (InMemoryStorage.challenges s)) /\
  (forall i, In i (InMemoryStorage.intentions s) ->
             1 <= Intention.id i < InMemoryStorage.intentionId s) /\
  (forall c, In c (InMemoryStorage.challenges s) ->
             1 <= Challenge.id c < InMemoryStorage.challengeId s) /\
  ~ In (InMemoryStorage.intentionId s) (map Intention.id (InMemoryStorage.intentions s)) /\
  ~ In (InMemoryStorage.challengeId s) (map Challenge.id (InMemoryStorage.challenges s)).
Proof.
  intros H.
  destruct (reachable_wellFormed H) as [[Hni Hi] [Hnc Hc]].
  destruct (reachable_ids_positive H) as [Hpi Hpc].
  rewrite Forall_forall in Hi, Hc, Hpi, Hpc.
  split; [exact Hni |]. split; [exact Hnc |].
  split.
  { intros i Hin. split; [now apply Hpi |]. apply Hi. now apply in_map. }
  split.
  { intros c Hin. split; [now apply Hpc |]. apply Hc. now apply in_map. }
  split; intros Hin; [specialize (Hi _ Hin) | specialize (Hc _ Hin)]; lia.
Qed.

Lemma ids_are_unique_always_witness :
  reachable seededStore /\
  NoDup (map Intention.id (InMemoryStorage.intentions seededStore)) /\
  NoDup (map Challenge.id (InMemoryStorage.challenges seededStore)) /\
  (forall i, In i (InMemoryStorage.intentions seededStore) ->
             1 <= Intention.id i < InMemoryStorage.intentionId seededStore) /\
  (forall c, In c (InMemoryStorage.challenges seededStore) ->
             1 <= Challenge.id c < InMemoryStorage.challengeId seededStore) /\
  ~ In (InMemoryStorage.intentionId seededStore)
       (map Intention.id (InMemoryStorage.intentions seededStore)) /\
  ~ In (InMemoryStorage.challengeId seededStore)
       (map Challenge.id (InMemoryStorage.challenges seededStore)).
Proof.
  split; [exact seededStore_reachable |].
  exact (@ids_are_unique_always seededStore seededStore_reachable).
Defined.

(** ** Increments one after the other, at the seeded store *)

Lemma incrementChallengeEach_adds_length_witness :
  exists ch ch',
    InMemoryStorage.challenges seededStore = [] ++ ch :: [] /\
    Challenge.id ch = 1 /\
    ~ In 1 (map Challenge.id []) /\
    safeInteger (Challenge.currentCount ch) /\
    safeInteger (Challenge.currentCount ch + Z.of_nat (List.length [30; 31; 32])) /\
    InMemoryStorage.challenges (incrementChallengeEach [30; 31; 32] 1 seededStore)
    = [] ++ ch' :: [] /\
    Challenge.id ch' = 1 /\
    Challenge.currentCount ch' = Challenge.currentCount ch + Z.of_nat (List.length [30; 31; 32]).
Proof.
  eexists.
  assert (Hl : InMemoryStorage.challenges seededStore
               = [] ++ Challenge.mk 1 "Weekly Rosary Challenge" "Rosary" 1000 42
                                    (Val true) 10 10 :: []) by reflexivity.
  assert (Hno : ~ In 1 (map Challenge.id [])) by (simpl; tauto).
  assert (Hlo : safeInteger 42) by (unfold safeInteger; simpl; lia).
  assert (Hhi : safeInteger (42 + Z.of_nat (List.length [30; 31; 32])))
    by (unfold safeInteger; simpl; lia).
  destruct (@incrementChallengeEach_adds_length [30; 31; 32] 1 seededStore [] [] _
              Hl eq_refl Hno Hlo Hhi) as (ch' & H1 & H2 & H3).
  exists ch'. repeat split; try assumption.
Defined.

(** ** The seed *)

Lemma sort_by_length (A : Type) (cmp : A -> A -> Z) (l : list A) :
  List.length (sort_by cmp l) = List.length l.
Proof.
  apply Permutation_length, sort_by_perm.
Qed.

Lemma listing_empty (A : Type) (cmp : A -> A -> Z) (l : list A) :
  (List.length (sort_by cmp l) =? 0)%nat = match l with [] => true | _ :: _ => false end.
Proof.
  rewrite sort_by_length. now destruct l.
Qed.

(** X18. [seedDatabase], run against the in-memory store, fills only
    empty tables and is idempotent: a table that holds a record is left as
    it is, after the seed neither table is empty, an empty challenge table
    receives exactly one challenge, which is active, and seeding a seeded
    store changes nothing, whatever the clock reads. *)
Theorem seedDatabase_fills_only_empty_tables
    (t1 t2 t3 t4 t5 t6 : Z) (s : InMemoryStorage.t) :
  let s' := seedDatabase t1 t2 t3 t4 t5 t6 s in
  (InMemoryStorage.challenges s <> [] ->
   InMemoryStorage.challenges s' = InMemoryStorage.challenges s) /\
  (InMemoryStorage.intentions s <> [] ->
   InMemoryStorage.intentions s' = InMemoryStorage.intentions s) /\
  (InMemoryStorage.challenges s = [] ->
   exists c, InMemoryStorage.challenges s' = [c] /\ isActiveChallenge c = true /\
             Challenge.currentCount c = 42) /\
  (InMemoryStorage.intentions s = [] ->
   List.length (InMemoryStorage.intentions s') = 2%nat) /\
  InMemoryStorage.challenges s' <> [] /\
  InMemoryStorage.intentions s' <> [] /\
  (forall u1 u2 u3 u4 u5 u6 : Z, seedDatabase u1 u2 u3 u4 u5 u6 s' = s').
Proof.
  assert (Hfix : forall u1 u2 u3 u4 u5 u6 x,
             InMemoryStorage.challenges x <> [] ->
             InMemoryStorage.intentions x <> [] ->
             seedDatabase u1 u2 u3 u4 u5 u6 x = x).
  { intros u1 u2 u3 u4 u5 u6 x Hc Hi. unfold seedDatabase.
    unfold InMemoryStorage.getChallenges, InMemoryStorage.getIntentions.
    rewrite listing_empty.
    destruct (InMemoryStorage.challenges x); [congruence |].
    rewrite listing_empty.
    destruct (InMemoryStorage.intentions x); [congruence | reflexivity]. }
  cbv zeta.
  assert (Hmain :
    (InMemoryStorage.challenges s <> [] ->
     InMemoryStorage.challenges (seedDatabase t1 t2 t3 t4 t5 t6 s)
     = InMemoryStorage.challenges s) /\
    (InMemoryStorage.intentions s <> [] ->
     InMemoryStorage.intentions (seedDatabase t1 t2 t3 t4 t5 t6 s)
     = InMemoryStorage.intentions s) /\
    (InMemoryStorage.challenges s = [] ->
     exists c, InMemoryStorage.challenges (seedDatabase t1 t2 t3 t4 t5 t6 s) = [c] /\
               isActiveChallenge c = true /\ Challenge.currentCount c = 42) /\
    (InMemoryStorage.intentions s = [] ->
     List.length (InMemoryStorage.intentions (seedDatabase t1 t2 t3 t4 t5 t6 s)) = 2%nat) /\
    InMemoryStorage.challenges (seedDatabase t1 t2 t3 t4 t5 t6 s) <> [] /\
    InMemoryStorage.intentions (seedDatabase t1 t2 t3 t4 t5 t6 s) <> []).
  { unfold seedDatabase.
    unfold InMemoryStorage.getChallenges, InMemoryStorage.getIntentions.
    rewrite listing_empty.
    destruct s as [ints chs iid cid].
    destruct chs as [| c0 chs]; rewrite listing_empty;
      destruct ints as [| i0 ints]; simpl;
      repeat split; try congruence; try discriminate;
      eexists; repeat split. }
  destruct Hmain as (H1 & H2 & H3 & H4 & H5 & H6).
  repeat (split; [assumption |]).
  intros. now apply Hfix.
Qed.

(** ** The challenge table of [DatabaseStorage] *)

Lemma filter_map_le (A : Type) (p q : A -> bool) (g : A -> A) (l : list A) :
  (forall x, In x l -> q (g x) = true -> p x = true) ->
  (List.length (filter q (map g l)) <= List.length (filter p l))%nat.
Proof.
  induction l as [| x r IH]; simpl; intros H; [lia |].
  assert (IH' : (List.length (filter q (map g r)) <= List.length (filter p r))%nat)
    by (apply IH; intros y Hy; apply H; auto).
  destruct (q (g x)) eqn:E.
  - rewrite (H x (or_introl eq_refl) E). simpl. lia.
  - destruct (p x); simpl; lia.
Qed.

Lemma deactivateActive_none_active (rows : list ChallengeRow.t) :
  filter DatabaseStorage.isActiveEqTrue (DatabaseStorage.deactivateActive rows) = [].
Proof.
  unfold DatabaseStorage.deactivateActive, DatabaseStorage.sqlUpdate. simpl.
  apply filter_none, Forall_forall. intros r Hr.
  apply in_map_iff in Hr. destruct Hr as (r0 & <- & _).
  destruct (DatabaseStorage.isActiveEqTrue r0) eqn:E; [reflexivity | exact E].
Qed.

Lemma deactivateActive_ids (rows : list ChallengeRow.t) :
  map ChallengeRow.id (DatabaseStorage.deactivateActive rows) = map ChallengeRow.id rows.
Proof.
  unfold DatabaseStorage.deactivateActive, DatabaseStorage.sqlUpdate. simpl.
  rewrite map_map. apply map_ext. intros r.
  now destruct (DatabaseStorage.isActiveEqTrue r).
Qed.

Lemma rows_with_id_le_one (id : Z) (rows : list ChallengeRow.t) :
  NoDup (map ChallengeRow.id rows) ->
  (List.length (filter (DatabaseStorage.idEq id) rows) <= 1)%nat.
Proof.
  induction rows as [| r rows IH]; simpl; intros Hnd; [lia |].
  inversion Hnd as [| ? ? Hr Hrest]; subst.
  specialize (IH Hrest).
  destruct (DatabaseStorage.idEq id r) eqn:E; [| exact IH].
  simpl. apply Z.eqb_eq in E.
  rewrite (@filter_none _ (DatabaseStorage.idEq id) rows); [simpl; lia |].
  apply Forall_forall. intros x Hx.
  unfold DatabaseStorage.idEq. apply Z.eqb_neq. intros Ex.
  apply Hr. rewrite E, <- Ex. now apply in_map.
Qed.

(** What the three methods, as functions of the table, do to the
    invariant. *)
Lemma database_methods_keep_at_most_one_active_row (db : DatabaseStorage.t) :
  atMostOneActiveRow db ->
  NoDup (map ChallengeRow.id (DatabaseStorage.challenges db)) ->
  (forall (now : Z) (challenge : InsertChallenge.t),
      InsertChallenge.isActive challenge <> Undefined ->
      atMostOneActiveRow (snd (DatabaseStorage.createChallenge now challenge db))) /\
  (forall (id : Z) (updates : ChallengeUpdate.t),
      atMostOneActiveRow (snd (DatabaseStorage.updateChallenge id updates db))) /\
  (forall id : Z, atMostOneActiveRow (DatabaseStorage.deleteChallenge id db)).
Proof.
  unfold atMostOneActiveRow, activeRows. intros Hle Hnd.
  split; [| split].
  - intros now challenge Hdef. simpl. rewrite filter_app. simpl.
    destruct (InsertChallenge.isActive challenge) as [| | [|]] eqn:E;
      [congruence | | |]; simpl.
    + rewrite app_nil_r. exact Hle.
    + rewrite deactivateActive_none_active. simpl. lia.
    + rewrite app_nil_r. exact Hle.
  - intros id updates. unfold DatabaseStorage.updateChallenge.
    destruct (truthy (ChallengeUpdate.isActive updates)) eqn:T.
    + destruct (DatabaseStorage.noValues updates); simpl.
      * rewrite deactivateActive_none_active. simpl. lia.
      * eapply Nat.le_trans.
        -- apply (@filter_map_le _ (DatabaseStorage.idEq id)).
           intros x Hin Hx.
           destruct (DatabaseStorage.idEq id x) eqn:Ex; [reflexivity |].
           assert (Hx' : In x (filter DatabaseStorage.isActiveEqTrue
                                 (DatabaseStorage.deactivateActive
                                    (DatabaseStorage.challenges db))))
             by (apply filter_In; auto).
           rewrite deactivateActive_none_active in Hx'. destruct Hx'.
        -- apply rows_with_id_le_one. now rewrite deactivateActive_ids.
    + destruct (DatabaseStorage.noValues updates); simpl; [exact Hle |].
      eapply Nat.le_trans; [| exact Hle].
      apply filter_map_le. intros x _.
      destruct (DatabaseStorage.idEq id x); [| auto].
      unfold DatabaseStorage.isActiveEqTrue. simpl.
      destruct (ChallengeUpdate.isActive updates) as [| | [|]]; simpl in *;
        congruence.
  - intros id. simpl. eapply Nat.le_trans; [| exact Hle].
    apply filter_filter_le.
Qed.

(** A method that runs alone leaves the table its statements leave when
    they are executed one after the other. *)
Lemma createChallenge_runs_its_statements
    (now : Z) (challenge : InsertChallenge.t) (db : DatabaseStorage.t) :
  snd (DatabaseStorage.createChallenge now challenge db)
  = executeAll (createChallengeStatements now challenge) db.
Proof.
  unfold DatabaseStorage.createChallenge, createChallengeStatements, executeAll.
  now destruct (truthy (InsertChallenge.isActive challenge)).
Qed.

Lemma updateChallenge_runs_its_statements
    (id : Z) (updates : ChallengeUpdate.t) (db : DatabaseStorage.t) :
  snd (DatabaseStorage.updateChallenge id updates db)
  = executeAll (updateChallengeStatements id updates) db.
Proof.
  unfold DatabaseStorage.updateChallenge, updateChallengeStatements, executeAll.
  destruct db as [rows next].
  destruct (truthy (ChallengeUpdate.isActive updates));
    cbn [app fold_left execute DatabaseStorage.challenges
         DatabaseStorage.challenges_id_seq];
    destruct (DatabaseStorage.noValues updates); reflexivity.
Qed.

Lemma deleteChallenge_runs_its_statement (id : Z) (db : DatabaseStorage.t) :
  DatabaseStorage.deleteChallenge id db = executeAll (deleteChallengeStatements id) db.
Proof.
  reflexivity.
Qed.

(** Two activating creates that overlap can both deactivate before either
    inserts: that order of their statements leaves two active rows.  This
    is why the properties below are about a method that runs alone. *)
Lemma overlapping_activating_creates_leave_two_active
    (now1 now2 : Z) (challenge1 challenge2 : InsertChallenge.t) (db : DatabaseStorage.t) :
  InsertChallenge.isActive challenge1 = Val true ->
  InsertChallenge.isActive challenge2 = Val true ->
  exists schedule,
    Interleaved (createChallengeStatements now1 challenge1)
                (createChallengeStatements now2 challenge2) schedule /\
    List.length (activeRows (executeAll schedule db)) = 2%nat.
Proof.
  intros H1 H2.
  exists [DeactivateActive; DeactivateActive;
          InsertRow now1 challenge1; InsertRow now2 challenge2].
  unfold createChallengeStatements. rewrite H1, H2. split.
  - cbn [truthy app]. repeat constructor.
  - unfold executeAll, activeRows.
    cbn [fold_left execute DatabaseStorage.challenges DatabaseStorage.challenges_id_seq].
    rewrite !filter_app, deactivateActive_none_active.
    unfold DatabaseStorage.isActiveEqTrue. cbn. now rewrite H1, H2.
Qed.

(** X19. For a method that runs alone, that is, whose statements are
    executed one after the other with no statement of another call in
    between, and whose numbers (the id it is given or the next id it
    takes included) fit their [integer] columns: on a challenge table
    whose ids are distinct and which has at most one active row,
    [createChallenge] with [isActive] given (true, false or null), every
    [updateChallenge] and every [deleteChallenge] leave at most one active
    row. *)
Theorem database_keeps_at_most_one_active_row (db : DatabaseStorage.t) :
  atMostOneActiveRow db ->
  NoDup (map ChallengeRow.id (DatabaseStorage.challenges db)) ->
  (forall (now : Z) (challenge : InsertChallenge.t),
      InsertChallenge.isActive challenge <> Undefined ->
      challengeFits challenge ->
      DatabaseStorage.int4 (DatabaseStorage.challenges_id_seq db) = true ->
      atMostOneActiveRow (executeAll (createChallengeStatements now challenge) db)) /\
  (forall (id : Z) (updates : ChallengeUpdate.t),
      updateFits id updates ->
      atMostOneActiveRow (executeAll (updateChallengeStatements id updates) db)) /\
  (forall id : Z,
      DatabaseStorage.int4 id = true ->
      atMostOneActiveRow (executeAll (deleteChallengeStatements id) db)).
Proof.
  intros Hle Hnd.
  destruct (@database_methods_keep_at_most_one_active_row db Hle Hnd) as (Hc & Hu & Hd).
  split; [| split].
  - intros now challenge Hdef _ _. rewrite <- createChallenge_runs_its_statements.
    now apply Hc.
  - intros id updates _. rewrite <- updateChallenge_runs_its_statements. apply Hu.
  - intros id _. rewrite <- deleteChallenge_runs_its_statement. apply Hd.
Qed.

Lemma database_keeps_at_most_one_active_row_witness :
  atMostOneActiveRow seededDatabase /\
  NoDup (map ChallengeRow.id (DatabaseStorage.challenges seededDatabase)) /\
  (InsertChallenge.isActive lentChallenge <> Undefined /\
   challengeFits lentChallenge /\
   DatabaseStorage.int4 (DatabaseStorage.challenges_id_seq seededDatabase) = true /\
   atMostOneActiveRow
     (executeAll (createChallengeStatements 20 lentChallenge) seededDatabase)) /\
  (updateFits 1 activateOnly /\
   atMostOneActiveRow
     (executeAll (updateChallengeStatements 1 activateOnly) seededDatabase)) /\
  (DatabaseStorage.int4 1 = true /\
   atMostOneActiveRow (executeAll (deleteChallengeStatements 1) seededDatabase)).
Proof.
  assert (Hle : atMostOneActiveRow seededDatabase).
  { unfold atMostOneActiveRow. simpl. lia. }
  assert (Hnd : NoDup (map ChallengeRow.id (DatabaseStorage.challenges seededDatabase))).
  { simpl. repeat constructor. simpl. tauto. }
  assert (Hdef : InsertChallenge.isActive lentChallenge <> Undefined)
    by (intros E; discriminate E).
  assert (Hfit : challengeFits lentChallenge) by (split; reflexivity).
  assert (Hupd : updateFits 1 activateOnly) by (split; [reflexivity | exact I]).
  split; [exact Hle |]. split; [exact Hnd |].
  split; [| split].
  - split; [exact Hdef |]. split; [exact Hfit |]. split; [reflexivity |].
    exact (proj1 (@database_keeps_at_most_one_active_row seededDatabase Hle Hnd)
             20 lentChallenge Hdef Hfit eq_refl).
  - split; [exact Hupd |].
    exact (proj1 (proj2 (@database_keeps_at_most_one_active_row seededDatabase Hle Hnd))
             1 activateOnly Hupd).
  - split; [reflexivity |].
    exact (proj2 (proj2 (@database_keeps_at_most_one_active_row seededDatabase Hle Hnd))
             1 eq_refl).
Defined.


Lemma map_cond_unchanged (A : Type) (cond : A -> bool) (f : A -> A) (l : list A) :
  Forall (fun x => cond x = false) l ->
  map (fun x => if cond x then f x else x) l = l.
Proof.
  induction 1 as [| x r Hx _ IH]; simpl; [reflexivity |].
  now rewrite Hx, IH.
Qed.



Lemma sqlUpdate_single (cond : ChallengeRow.t -> bool) (f : ChallengeRow.t -> ChallengeRow.t)
    (l1 l2 : list ChallengeRow.t) (x : ChallengeRow.t) :
  Forall (fun y => cond y = false) l1 ->
  cond x = true ->
  Forall (fun y => cond y = false) l2 ->
  DatabaseStorage.sqlUpdate cond f (l1 ++ x :: l2) = (l1 ++ f x :: l2, [f x]).
Proof.
  intros H1 Hx H2. unfold DatabaseStorage.sqlUpdate.
  rewrite map_app, filter_app. simpl. rewrite Hx.
  rewrite (@map_cond_unchanged _ cond f l1 H1), (@map_cond_unchanged _ cond f l2 H2).
  rewrite (@filter_none _ cond l1 H1), (@filter_none _ cond l2 H2). reflexivity.
Qed.





(** ** [buildUrl] *)

Lemma prefix_app (p r : string) : String.prefix p (p ++ r) = true.
Proof.
  induction p as [| c p IH]; simpl; [now destruct r |].
  destruct (ascii_dec c c) as [_ | N]; [exact IH | now elim N].
Qed.

Lemma dropChars_app (p r : string) :
  SharedRoutes.dropChars (String.length p) (p ++ r) = r.
Proof.
  induction p as [| c p IH]; simpl; [now destruct r | exact IH].
Qed.

Lemma prefix_split (p s : string) :
  String.prefix p s = true -> s = (p ++ SharedRoutes.dropChars (String.length p) s)%string.
Proof.
  revert s. induction p as [| c p IH]; intros s H.
  - simpl. now destruct s.
  - destruct s as [| d s]; simpl in H; [discriminate |].
    destruct (ascii_dec c d) as [<- | _]; [| discriminate].
    simpl. f_equal. now apply IH.
Qed.

Lemma firstOccurrence_unfold (pat s : string) :
  SharedRoutes.firstOccurrence pat s
  = if String.prefix pat s
    then Some (EmptyString, SharedRoutes.dropChars (String.length pat) s)
    else
      match s with
      | EmptyString => None
      | String c r =>
          match SharedRoutes.firstOccurrence pat r with
          | Some (before, after) => Some (String c before, after)
          | None => None
          end
      end.
Proof.
  destruct s; reflexivity.
Qed.

Lemma firstOccurrence_Some (pat s before after : string) :
  SharedRoutes.firstOccurrence pat s = Some (before, after) ->
  s = (before ++ pat ++ after)%string.
Proof.
  revert before. induction s as [| c r IH]; intros before H;
    rewrite firstOccurrence_unfold in H.
  - destruct (String.prefix pat "") eqn:P; [| discriminate].
    injection H as <- <-. now apply prefix_split.
  - destruct (String.prefix pat (String c r)) eqn:P.
    + injection H as <- <-. now apply prefix_split.
    + destruct (SharedRoutes.firstOccurrence pat r) as [[b a] |]; [| discriminate].
      injection H as <- <-. simpl. f_equal. now apply IH.
Qed.

Lemma firstOccurrence_None (pat s : string) :
  SharedRoutes.firstOccurrence pat s = None ->
  forall before after, s <> (before ++ pat ++ after)%string.
Proof.
  induction s as [| c r IH]; intros H before after E;
    rewrite firstOccurrence_unfold in H.
  - destruct before; simpl in E; [| discriminate].
    rewrite E, prefix_app in H. discriminate.
  - destruct (String.prefix pat (String c r)) eqn:P; [discriminate |].
    destruct before as [| d b]; simpl in E.
    + rewrite E, prefix_app in P. discriminate.
    + injection E as _ E.
      destruct (SharedRoutes.firstOccurrence pat r) as [[b0 a0] |]; [discriminate |].
      now apply (IH eq_refl b after).
Qed.

Lemma prefix_cons_neq (a c : ascii) (p s : string) :
  a <> c -> String.prefix (String a p) (String c s) = false.
Proof.
  intros N. cbn [String.prefix]. now destruct (ascii_dec a c).
Qed.

Lemma firstOccurrence_after_colonless (key before after : string) :
  SharedRoutes.lacks ":" before = true ->
  SharedRoutes.firstOccurrence (":" ++ key) (before ++ ":" ++ key ++ after)
  = Some (before, after).
Proof.
  induction before as [| c b IH]; intros H; rewrite firstOccurrence_unfold.
  - change ("" ++ ":" ++ key ++ after)%string with ((":" ++ key) ++ after)%string.
    now rewrite prefix_app, dropChars_app.
  - cbn [SharedRoutes.lacks] in H. apply andb_true_iff in H. destruct H as [Hc Hb].
    apply negb_true_iff, Ascii.eqb_neq in Hc.
    change ((String c b) ++ ":" ++ key ++ after)%string
      with (String c (b ++ ":" ++ key ++ after))%string.
    change (":" ++ key)%string with (String ":" key).
    rewrite prefix_cons_neq by congruence.
    change (String ":" key) with (":" ++ key)%string.
    now rewrite (IH Hb).
Qed.

Lemma getSubstitution_plain (matched before after template : string) :
  SharedRoutes.lacks "$" template = true ->
  SharedRoutes.getSubstitution matched before after template = template.
Proof.
  induction template as [| c r IH]; simpl; [reflexivity |].
  intros H. apply andb_true_iff in H. destruct H as [Hc Hr].
  apply negb_true_iff in Hc. rewrite Hc. f_equal. now apply IH.
Qed.

Lemma decimal_digits_plain (d : Decimal.uint) :
  SharedRoutes.lacks "$" (DecimalString.NilEmpty.string_of_uint d) = true.
Proof.
  induction d; simpl; auto.
Qed.

Lemma stringOf_number_plain (n : Z) :
  SharedRoutes.lacks "$" (SharedRoutes.stringOf (SharedRoutes.PNumber n)) = true.
Proof.
  unfold SharedRoutes.stringOf, DecimalString.NilZero.string_of_int.
  destruct (Z.to_int n) as [d | d]; unfold DecimalString.NilZero.string_of_uint;
    destruct d; try reflexivity; simpl; apply decimal_digits_plain.
Qed.

Lemma buildUrl_one_placeholder (key before after : string) (value : SharedRoutes.ParamValue) :
  SharedRoutes.lacks ":" before = true ->
  SharedRoutes.lacks "$" (SharedRoutes.stringOf value) = true ->
  SharedRoutes.buildUrl (before ++ ":" ++ key ++ after) (Some [(key, value)])
  = (before ++ SharedRoutes.stringOf value ++ after)%string.
Proof.
  intros Hb Hv. unfold SharedRoutes.buildUrl. cbn [fold_left].
  unfold SharedRoutes.buildUrlStep, SharedRoutes.includes, SharedRoutes.replace.
  rewrite (firstOccurrence_after_colonless key before after Hb).
  now rewrite getSubstitution_plain.
Qed.

(** X22. When no key of [params] occurs in the path behind a colon,
    [buildUrl] returns the path unchanged, whatever the values; so it does
    without [params]. *)
Theorem buildUrl_without_placeholder
    (path : string) (entries : list (string * SharedRoutes.ParamValue)) :
  (forall key value, In (key, value) entries ->
     forall before after, path <> (before ++ ":" ++ key ++ after)%string) ->
  SharedRoutes.buildUrl path (Some entries) = path /\
  SharedRoutes.buildUrl path None = path.
Proof.
  intros H. split; [| reflexivity].
  unfold SharedRoutes.buildUrl.
  induction entries as [| [key value] r IH]; simpl; [reflexivity |].
  assert (E : SharedRoutes.includes path (":" ++ key) = false).
  { unfold SharedRoutes.includes.
    destruct (SharedRoutes.firstOccurrence (":" ++ key) path) as [[b a] |] eqn:F;
      [| reflexivity].
    apply firstOccurrence_Some in F. exfalso.
    apply (H key value (or_introl eq_refl) b a). exact F. }
  change (String ":" key) with (":" ++ key)%string. rewrite E.
  apply IH. intros k v Hin. apply (H k v). now right.
Qed.

Lemma buildUrl_without_placeholder_witness :
  (forall key value, In (key, value) [("id", SharedRoutes.PNumber 3)] ->
     forall before after, "/api/intentions" <> (before ++ ":" ++ key ++ after)%string) /\
  SharedRoutes.buildUrl "/api/intentions" (Some [("id", SharedRoutes.PNumber 3)])
  = "/api/intentions" /\
  SharedRoutes.buildUrl "/api/intentions" None = "/api/intentions".
Proof.
  assert (H : forall key value, In (key, value) [("id", SharedRoutes.PNumber 3)] ->
     forall before after, "/api/intentions" <> (before ++ ":" ++ key ++ after)%string).
  { intros key value [E | []]. injection E as <- _.
    apply (@firstOccurrence_None ":id" "/api/intentions"). reflexivity. }
  split; [exact H |].
  exact (@buildUrl_without_placeholder "/api/intentions"
           [("id", SharedRoutes.PNumber 3)] H).
Defined.

(** X23. For a path in which [:key] stands after a text without a colon,
    [buildUrl] with the one parameter [key] puts the value in the place of
    that first [:key] and keeps the text before and after it (a later
    [:key] included): for every safe integer, in decimal notation, and for
    every string without a dollar sign, as it is. *)
Theorem buildUrl_fills_the_first_placeholder (key before after : string) :
  SharedRoutes.lacks ":" before = true ->
  (forall n : Z,
      safeInteger n ->
      SharedRoutes.buildUrl (before ++ ":" ++ key ++ after)
        (Some [(key, SharedRoutes.PNumber n)])
      = (before ++ DecimalString.NilZero.string_of_int (Z.to_int n) ++ after)%string) /\
  (forall v : string,
      SharedRoutes.lacks "$" v = true ->
      SharedRoutes.buildUrl (before ++ ":" ++ key ++ after)
        (Some [(key, SharedRoutes.PString v)])
      = (before ++ v ++ after)%string).
Proof.
  intros Hb. split.
  - intros n _.
    apply (@buildUrl_one_placeholder key before after (SharedRoutes.PNumber n) Hb).
    apply stringOf_number_plain.
  - intros v Hv.
    now apply (@buildUrl_one_placeholder key before after (SharedRoutes.PString v) Hb).
Qed.

Lemma buildUrl_fills_the_first_placeholder_witness :
  SharedRoutes.lacks ":" "/items/" = true /\
  safeInteger (-12) /\
  SharedRoutes.buildUrl "/items/:id/of/:id" (Some [("id", SharedRoutes.PNumber (-12))])
  = "/items/-12/of/:id" /\
  SharedRoutes.lacks "$" "abc" = true /\
  SharedRoutes.buildUrl "/items/:id/of/:id" (Some [("id", SharedRoutes.PString "abc")])
  = "/items/abc/of/:id".
Proof.
  assert (Hs : safeInteger (-12)) by (unfold safeInteger; simpl; lia).
  split; [reflexivity |]. split; [exact Hs |].
  split.
  - exact (proj1 (@buildUrl_fills_the_first_placeholder "id" "/items/" "/of/:id" eq_refl)
             (-12) Hs).
  - split; [reflexivity |].
    exact (proj2 (@buildUrl_fills_the_first_placeholder "id" "/items/" "/of/:id" eq_refl)
             "abc" eq_refl).
Defined.

Lemma append_empty_r (s : string) : (s ++ "")%string = s.
Proof.
  induction s as [| c r IH]; simpl; [reflexivity | now rewrite IH].
Qed.

(** X24. For every id that is a safe integer, [buildUrl] turns each path
    of the api table that carries [:id] into the path with the id's
    decimal notation in that place. *)
Theorem buildUrl_api_paths (n : Z) :
  safeInteger n ->
  let id := DecimalString.NilZero.string_of_int (Z.to_int n) in
  let params := Some [("id", SharedRoutes.PNumber n)] in
  SharedRoutes.buildUrl SharedRoutes.intentions_increment_path params
  = ("/api/intentions/" ++ id ++ "/pray")%string /\
  SharedRoutes.buildUrl SharedRoutes.challenges_increment_path params
  = ("/api/challenges/" ++ id ++ "/increment")%string /\
  SharedRoutes.buildUrl SharedRoutes.admin_challenges_update_path params
  = ("/api/admin/challenges/" ++ id)%string /\
  SharedRoutes.buildUrl SharedRoutes.admin_challenges_delete_path params
  = ("/api/admin/challenges/" ++ id)%string /\
  SharedRoutes.buildUrl SharedRoutes.admin_intentions_markPrinted_path params
  = ("/api/admin/intentions/" ++ id ++ "/printed")%string.
Proof.
  intros _. cbv zeta.
  pose proof (stringOf_number_plain n) as Hn.
  repeat split.
  - exact (@buildUrl_one_placeholder "id" "/api/intentions/" "/pray"
             (SharedRoutes.PNumber n) eq_refl Hn).
  - exact (@buildUrl_one_placeholder "id" "/api/challenges/" "/increment"
             (SharedRoutes.PNumber n) eq_refl Hn).
  - rewrite <- (append_empty_r (DecimalString.NilZero.string_of_int (Z.to_int n))).
    exact (@buildUrl_one_placeholder "id" "/api/admin/challenges/" ""
             (SharedRoutes.PNumber n) eq_refl Hn).
  - rewrite <- (append_empty_r (DecimalString.NilZero.string_of_int (Z.to_int n))).
    exact (@buildUrl_one_placeholder "id" "/api/admin/challenges/" ""
             (SharedRoutes.PNumber n) eq_refl Hn).
  - exact (@buildUrl_one_placeholder "id" "/api/admin/intentions/" "/printed"
             (SharedRoutes.PNumber n) eq_refl Hn).
Qed.

Lemma buildUrl_api_paths_witness :
  safeInteger 7 /\
  SharedRoutes.buildUrl SharedRoutes.intentions_increment_path
    (Some [("id", SharedRoutes.PNumber 7)]) = "/api/intentions/7/pray" /\
  SharedRoutes.buildUrl SharedRoutes.challenges_increment_path
    (Some [("id", SharedRoutes.PNumber 7)]) = "/api/challenges/7/increment" /\
  SharedRoutes.buildUrl SharedRoutes.admin_challenges_update_path
    (Some [("id", SharedRoutes.PNumber 7)]) = "/api/admin/challenges/7" /\
  SharedRoutes.buildUrl SharedRoutes.admin_challenges_delete_path
    (Some [("id", SharedRoutes.PNumber 7)]) = "/api/admin/challenges/7" /\
  SharedRoutes.buildUrl SharedRoutes.admin_intentions_markPrinted_path
    (Some [("id", SharedRoutes.PNumber 7)]) = "/api/admin/intentions/7/printed".
Proof.
  assert (Hs : safeInteger 7) by (unfold safeInteger; simpl; lia).
  split; [exact Hs |].
  exact (@buildUrl_api_paths 7 Hs).
Defined.

(** ** Creating without activating *)

Lemma find_app_none (A : Type) (p : A -> bool) (l : list A) (x : A) :
  p x = false -> find p (l ++ [x]) = find p l.
Proof.
  intros Hx. induction l as [| y r IH]; simpl.
  - now rewrite Hx.
  - now destruct (p y).
Qed.

(** X25. [createChallenge] with [isActive] given as false or null appends
    the new challenge, which is not active, and changes nothing else: the
    stored challenges, the active challenge and the intentions are as they
    were.  The new challenge takes the next id, and 0 as [currentCount]
    when none is given. *)
Theorem createChallenge_without_activation
    (createdNow updatedNow : Z) (challenge : InsertChallenge.t) (s : InMemoryStorage.t) :
  InsertChallenge.isActive challenge = Val false \/
  InsertChallenge.isActive challenge = Null ->
  exists newCh s',
    InMemoryStorage.createChallenge createdNow updatedNow challenge s = (newCh, s') /\
    InMemoryStorage.challenges s' = InMemoryStorage.challenges s ++ [newCh] /\
    isActiveChallenge newCh = false /\
    activeChallenges s' = activeChallenges s /\
    InMemoryStorage.getActiveChallenge s' = InMemoryStorage.getActiveChallenge s /\
    Challenge.id newCh = InMemoryStorage.challengeId s /\
    InMemoryStorage.challengeId s' = InMemoryStorage.challengeId s + 1 /\
    (InsertChallenge.currentCount challenge = Undefined -> Challenge.currentCount newCh = 0) /\
    Challenge.createdAt newCh = createdNow /\
    InMemoryStorage.intentions s' = InMemoryStorage.intentions s /\
    InMemoryStorage.intentionId s' = InMemoryStorage.intentionId s.
Proof.
  intros Hgiven.
  assert (Hfalse : truthy (InsertChallenge.isActive challenge) = false)
    by (destruct Hgiven as [-> | ->]; reflexivity).
  unfold InMemoryStorage.createChallenge. rewrite Hfalse.
  eexists. eexists. split; [reflexivity |].
  cbn [InMemoryStorage.challenges InMemoryStorage.intentions
       InMemoryStorage.intentionId InMemoryStorage.challengeId].
  split; [reflexivity |].
  assert (Hnew : forall c u,
             isActiveChallenge
               (Challenge.mk (InMemoryStorage.challengeId s)
                  (InsertChallenge.title challenge) (InsertChallenge.prayerType challenge)
                  (InsertChallenge.totalTarget challenge)
                  (orZeroOpt (InsertChallenge.currentCount challenge))
                  (InsertChallenge.isActive challenge) c u) = false)
    by (intros; exact Hfalse).
  split; [apply Hnew |].
  split.
  { unfold activeChallenges. cbn [InMemoryStorage.challenges].
    rewrite filter_app. cbn [filter]. rewrite Hnew. apply app_nil_r. }
  split.
  { unfold InMemoryStorage.getActiveChallenge. cbn [InMemoryStorage.challenges].
    apply (@find_app_none _ isActiveChallenge). apply Hnew. }
  repeat split.
  intros E. cbn [Challenge.currentCount]. now rewrite E.
Qed.

Lemma createChallenge_without_activation_witness :
  (InsertChallenge.isActive pausedChallenge = Val false \/
   InsertChallenge.isActive pausedChallenge = Null) /\
  exists newCh s',
    InMemoryStorage.createChallenge 20 21 pausedChallenge seededStore = (newCh, s') /\
    InMemoryStorage.challenges s' = InMemoryStorage.challenges seededStore ++ [newCh] /\
    isActiveChallenge newCh = false /\
    activeChallenges s' = activeChallenges seededStore /\
    InMemoryStorage.getActiveChallenge s' = InMemoryStorage.getActiveChallenge seededStore /\
    Challenge.id newCh = InMemoryStorage.challengeId seededStore /\
    InMemoryStorage.challengeId s' = InMemoryStorage.challengeId seededStore + 1 /\
    (InsertChallenge.currentCount pausedChallenge = Undefined ->
     Challenge.currentCount newCh = 0) /\
    Challenge.createdAt newCh = 20 /\
    InMemoryStorage.intentions s' = InMemoryStorage.intentions seededStore /\
    InMemoryStorage.intentionId s' = InMemoryStorage.intentionId seededStore.
Proof.
  split; [left; reflexivity |].
  exact (@createChallenge_without_activation 20 21 pausedChallenge seededStore
           (or_introl eq_refl)).
Defined.

(** ** The intention table of [DatabaseStorage] *)

Lemma absent_key (A : Type) (key : A -> Z) (id : Z) (l : list A) :
  ~ In id (map key l) -> Forall (fun y => (key y =? id) = false) l.
Proof.
  intros H. apply Forall_forall. intros y Hy. apply Z.eqb_neq. intros E.
  apply H. rewrite <- E. now apply in_map.
Qed.

Lemma intention_sqlUpdate_single
    (cond : IntentionRow.t -> bool) (f : IntentionRow.t -> IntentionRow.t)
    (l1 l2 : list IntentionRow.t) (x : IntentionRow.t) :
  Forall (fun y => cond y = false) l1 ->
  cond x = true ->
  Forall (fun y => cond y = false) l2 ->
  DatabaseIntentions.sqlUpdate cond f (l1 ++ x :: l2) = (l1 ++ f x :: l2, [f x]).
Proof.
  intros H1 Hx H2. unfold DatabaseIntentions.sqlUpdate.
  rewrite map_app, filter_app. simpl. rewrite Hx.
  rewrite (@map_cond_unchanged _ cond f l1 H1), (@map_cond_unchanged _ cond f l2 H2).
  rewrite (@filter_none _ cond l1 H1), (@filter_none _ cond l2 H2). reflexivity.
Qed.

Lemma intention_sqlUpdate_none
    (cond : IntentionRow.t -> bool) (f : IntentionRow.t -> IntentionRow.t)
    (l : list IntentionRow.t) :
  Forall (fun y => cond y = false) l ->
  DatabaseIntentions.sqlUpdate cond f l = (l, []).
Proof.
  intros H. unfold DatabaseIntentions.sqlUpdate.
  now rewrite (@map_cond_unchanged _ cond f l H), (@filter_none _ cond l H).
Qed.

Lemma filter_single (A : Type) (cond : A -> bool) (l1 l2 : list A) (x : A) :
  Forall (fun y => cond y = false) l1 ->
  cond x = true ->
  Forall (fun y => cond y = false) l2 ->
  filter cond (l1 ++ x :: l2) = [x].
Proof.
  intros H1 Hx H2. rewrite filter_app. simpl. rewrite Hx.
  now rewrite (@filter_none _ cond l1 H1), (@filter_none _ cond l2 H2).
Qed.

(** A stored row splits a list with distinct keys into the rows before it
    and the rows after it, none of which has its key. *)
Lemma split_at_row (A : Type) (key : A -> Z) (x : A) (l : list A) :
  NoDup (map key l) ->
  In x l ->
  exists l1 l2,
    l = l1 ++ x :: l2 /\
    Forall (fun y => (key y =? key x) = false) l1 /\
    Forall (fun y => (key y =? key x) = false) l2.
Proof.
  intros Hnd Hin. apply in_split in Hin. destruct Hin as (l1 & l2 & ->).
  exists l1, l2. split; [reflexivity |].
  rewrite map_app in Hnd. simpl in Hnd. apply NoDup_remove_2 in Hnd.
  split; apply Forall_forall; intros y Hy;
    apply Z.eqb_neq; intros E; apply Hnd, in_or_app; [left | right];
    rewrite <- E; now apply in_map.
Qed.


(** The UPDATE of a prayer on a table in which one row has the id. *)
Lemma pray_statement (id : Z) (type : string) (l1 l2 : list IntentionRow.t)
    (r : IntentionRow.t) (next : Z) :
  DatabaseStorage.int4 id = true ->
  Forall (fun y => DatabaseIntentions.idEq id y = false) l1 ->
  DatabaseIntentions.idEq id r = true ->
  Forall (fun y => DatabaseIntentions.idEq id y = false) l2 ->
  DatabaseIntentions.incrementIntentionPrayer id type
    (DatabaseIntentions.mk (l1 ++ r :: l2) next)
  = if DatabaseIntentions.plusOneFails (DatabaseIntentions.namedColumn type r)
    then (DatabaseStorage.Thrown, DatabaseIntentions.mk (l1 ++ r :: l2) next)
    else (DatabaseStorage.Returned (Some (DatabaseIntentions.updateSet type r)),
          DatabaseIntentions.mk (l1 ++ DatabaseIntentions.updateSet type r :: l2) next).
Proof.
  intros Hid H1 Hr H2. unfold DatabaseIntentions.incrementIntentionPrayer.
  cbn [DatabaseIntentions.intentions DatabaseIntentions.intentions_id_seq].
  rewrite Hid, (@filter_single _ (DatabaseIntentions.idEq id) l1 l2 r H1 Hr H2).
  cbn [negb orb existsb]. rewrite orb_false_r.
  destruct (DatabaseIntentions.plusOneFails (DatabaseIntentions.namedColumn type r));
    [reflexivity |].
  now rewrite (@intention_sqlUpdate_single (DatabaseIntentions.idEq id)
                 (DatabaseIntentions.updateSet type) l1 l2 r H1 Hr H2).
Qed.

(** The UPDATE of a prayer on a table in which no row has the id. *)
Lemma pray_statement_absent (id : Z) (type : string) (db : DatabaseIntentions.t) :
  DatabaseStorage.int4 id = true ->
  Forall (fun y => DatabaseIntentions.idEq id y = false) (DatabaseIntentions.intentions db) ->
  DatabaseIntentions.incrementIntentionPrayer id type db = (DatabaseStorage.Returned None, db).
Proof.
  intros Hid H. unfold DatabaseIntentions.incrementIntentionPrayer.
  rewrite Hid, (@filter_none _ (DatabaseIntentions.idEq id) _ H). cbn [negb orb existsb].
  rewrite (@intention_sqlUpdate_none (DatabaseIntentions.idEq id) _ _ H).
  now destruct db.
Qed.

(** X26. [DatabaseStorageImpl.incrementIntentionPrayer] on a table with
    distinct ids.  An id that is no [integer] makes the call throw, the
    table as it was.  For an id that is one: when no row has it, the call
    returns nothing and the table is as it was.  For the row with the id:
    when the counter the type
    names is not NULL and one more would leave the range of the [integer]
    column (the counter is 2147483647), the call throws and the table is
    as it was; otherwise it returns the updated row and changes that row
    alone: for a type among hailMary, ourFather and rosary the counter it
    names is one higher, unless it is NULL, which stays NULL, and the
    other two counters stay; any other type counts as rosary; all other
    columns stay. *)
Theorem database_pray (id : Z) (type : string) (db : DatabaseIntentions.t) :
  NoDup (map IntentionRow.id (DatabaseIntentions.intentions db)) ->
  (DatabaseStorage.int4 id = false ->
   DatabaseIntentions.incrementIntentionPrayer id type db = (DatabaseStorage.Thrown, db)) /\
  (DatabaseStorage.int4 id = true ->
   ~ In id (map IntentionRow.id (DatabaseIntentions.intentions db)) ->
   DatabaseIntentions.incrementIntentionPrayer id type db
   = (DatabaseStorage.Returned None, db)) /\
  (forall r : IntentionRow.t,
      DatabaseStorage.int4 id = true ->
      In r (DatabaseIntentions.intentions db) ->
      IntentionRow.id r = id ->
      (DatabaseIntentions.plusOneFails (DatabaseIntentions.namedColumn type r) = true ->
       DatabaseIntentions.incrementIntentionPrayer id type db = (DatabaseStorage.Thrown, db)) /\
      (DatabaseIntentions.plusOneFails (DatabaseIntentions.namedColumn type r) = false ->
       exists l1 l2 r' db',
         DatabaseIntentions.intentions db = l1 ++ r :: l2 /\
         DatabaseIntentions.incrementIntentionPrayer id type db
         = (DatabaseStorage.Returned (Some r'), db') /\
         DatabaseIntentions.intentions db' = l1 ++ r' :: l2 /\
         DatabaseIntentions.intentions_id_seq db' = DatabaseIntentions.intentions_id_seq db /\
         (In type Routes.prayerTypes ->
          IntentionRow.hailMaryCount r'
          = option_map (fun n => n + bump type "hailMary") (IntentionRow.hailMaryCount r) /\
          IntentionRow.ourFatherCount r'
          = option_map (fun n => n + bump type "ourFather") (IntentionRow.ourFatherCount r) /\
          IntentionRow.rosaryCount r'
          = option_map (fun n => n + bump type "rosary") (IntentionRow.rosaryCount r)) /\
         (~ In type Routes.prayerTypes ->
          IntentionRow.hailMaryCount r' = IntentionRow.hailMaryCount r /\
          IntentionRow.ourFatherCount r' = IntentionRow.ourFatherCount r /\
          IntentionRow.rosaryCount r'
          = option_map (fun n => n + 1) (IntentionRow.rosaryCount r)) /\
         IntentionRow.id r' = IntentionRow.id r /\
         IntentionRow.content r' = IntentionRow.content r /\
         IntentionRow.name r' = IntentionRow.name r /\
         IntentionRow.prayerType r' = IntentionRow.prayerType r /\
         IntentionRow.isPrinted r' = IntentionRow.isPrinted r /\
         IntentionRow.createdAt r' = IntentionRow.createdAt r)).
Proof.
  intros Hnd. split; [| split].
  - intros Hi. unfold DatabaseIntentions.incrementIntentionPrayer. now rewrite Hi.
  - intros Hi Habs. apply pray_statement_absent; [exact Hi |].
    exact (@absent_key _ IntentionRow.id id _ Habs).
  - intros r Hi Hin Hid.
    destruct (@split_at_row _ IntentionRow.id r _ Hnd Hin) as (l1 & l2 & Hl & Hl1 & Hl2).
    rewrite Hid in Hl1, Hl2.
    assert (Hr : DatabaseIntentions.idEq id r = true)
      by (unfold DatabaseIntentions.idEq; now apply Z.eqb_eq).
    destruct db as [rows next].
    cbn [DatabaseIntentions.intentions DatabaseIntentions.intentions_id_seq] in *.
    subst rows. rewrite (@pray_statement id type l1 l2 r next Hi Hl1 Hr Hl2).
    split.
    { intros F. now rewrite F. }
    intros F. rewrite F.
    exists l1, l2. eexists. eexists.
    split; [reflexivity |]. split; [reflexivity |].
    split; [reflexivity |]. split; [reflexivity |].
    assert (Hopt : forall c : option Z, option_map (fun n => n + 0) c = c).
    { intros [n |]; simpl; [now rewrite Z.add_0_r | reflexivity]. }
    split.
    { intros Hty. destruct (prayerTypes_cases Hty) as [-> | [-> | ->]];
        unfold DatabaseIntentions.updateSet, bump; simpl; rewrite ?Hopt;
        repeat split; try reflexivity;
        try (now destruct r as [? ? ? ? [?|] [?|] [?|] ? ?]). }
    split.
    { intros Hty. unfold DatabaseIntentions.updateSet.
      destruct (String.eqb type "hailMary") eqn:E1.
      { exfalso. apply Hty. apply String.eqb_eq in E1. subst. simpl. auto. }
      destruct (String.eqb type "ourFather") eqn:E2.
      { exfalso. apply Hty. apply String.eqb_eq in E2. subst. simpl. auto. }
      simpl.
      repeat split; now destruct r as [? ? ? ? ? ? [?|] ? ?]. }
    unfold DatabaseIntentions.updateSet.
    destruct (String.eqb type "hailMary"), (String.eqb type "ourFather");
      repeat split.
Qed.

Lemma seededIntentionTable_ids :
  NoDup (map IntentionRow.id (DatabaseIntentions.intentions seededIntentionTable)).
Proof.
  simpl. repeat constructor; simpl; try tauto.
  intros [H | []]. discriminate H.
Qed.

Lemma database_pray_witness :
  NoDup (map IntentionRow.id (DatabaseIntentions.intentions seededIntentionTable)) /\
  (DatabaseStorage.int4 99999999999 = false /\
   DatabaseIntentions.incrementIntentionPrayer 99999999999 "hailMary" seededIntentionTable
   = (DatabaseStorage.Thrown, seededIntentionTable)) /\
  (DatabaseStorage.int4 9 = true /\
   ~ In 9 (map IntentionRow.id (DatabaseIntentions.intentions seededIntentionTable)) /\
   DatabaseIntentions.incrementIntentionPrayer 9 "hailMary" seededIntentionTable
   = (DatabaseStorage.Returned None, seededIntentionTable)) /\
  (exists r r',
     DatabaseStorage.int4 2 = true /\
     In r (DatabaseIntentions.intentions seededIntentionTable) /\
     IntentionRow.id r = 2 /\
     DatabaseIntentions.plusOneFails (DatabaseIntentions.namedColumn "hailMary" r) = false /\
     fst (DatabaseIntentions.incrementIntentionPrayer 2 "hailMary" seededIntentionTable)
     = DatabaseStorage.Returned (Some r') /\
     IntentionRow.hailMaryCount r = Some 12 /\
     IntentionRow.hailMaryCount r' = Some 13) /\
  (NoDup (map IntentionRow.id (DatabaseIntentions.intentions brimfulIntentionTable)) /\
   exists r,
     DatabaseStorage.int4 1 = true /\
     In r (DatabaseIntentions.intentions brimfulIntentionTable) /\
     IntentionRow.id r = 1 /\
     DatabaseIntentions.plusOneFails (DatabaseIntentions.namedColumn "hailMary" r) = true /\
     DatabaseIntentions.incrementIntentionPrayer 1 "hailMary" brimfulIntentionTable
     = (DatabaseStorage.Thrown, brimfulIntentionTable)).
Proof.
  assert (Habs : ~ In 9 (map IntentionRow.id
                           (DatabaseIntentions.intentions seededIntentionTable))).
  { simpl. intros [H | [H | []]]; discriminate H. }
  assert (Hfull : NoDup (map IntentionRow.id
                           (DatabaseIntentions.intentions brimfulIntentionTable))).
  { simpl. repeat constructor. simpl. tauto. }
  split; [exact seededIntentionTable_ids |].
  split; [| split; [| split]].
  - split; [reflexivity |].
    exact (proj1 (@database_pray 99999999999 "hailMary" seededIntentionTable
                    seededIntentionTable_ids) eq_refl).
  - split; [reflexivity |]. split; [exact Habs |].
    exact (proj1 (proj2 (@database_pray 9 "hailMary" seededIntentionTable
                           seededIntentionTable_ids)) eq_refl Habs).
  - eexists.

    assert (Hin : In (nth 1 (DatabaseIntentions.intentions seededIntentionTable)
                        (IntentionRow.mk 0 "" None None None None None None None))
                     (DatabaseIntentions.intentions seededIntentionTable))
      by (simpl; auto).
    destruct (proj2 (proj2 (proj2 (@database_pray 2 "hailMary" seededIntentionTable
                                     seededIntentionTable_ids))
                       _ eq_refl Hin eq_refl) eq_refl)
      as (l1 & l2 & r' & db' & _ & E & _ & _ & Hty & _).
    exists r'. split; [reflexivity |].
    split; [exact Hin |]. split; [reflexivity |]. split; [reflexivity |].
    split; [now rewrite E |]. split; [reflexivity |].
    rewrite (proj1 (Hty (or_introl eq_refl))). reflexivity.
  - split; [exact Hfull |]. eexists.
    assert (Hin : In (nth 0 (DatabaseIntentions.intentions brimfulIntentionTable)
                        (IntentionRow.mk 0 "" None None None None None None None))
                     (DatabaseIntentions.intentions brimfulIntentionTable))
      by (simpl; auto).
    split; [reflexivity |].
    split; [exact Hin |]. split; [reflexivity |]. split; [reflexivity |].
    exact (proj1 (proj2 (proj2 (@database_pray 1 "hailMary" brimfulIntentionTable Hfull))
                    _ eq_refl Hin eq_refl) eq_refl).
Defined.

(** ** The two stores side by side *)










(** ** Increments of the challenge table *)

(** The UPDATE of an increment on a table in which one row has the id. *)
Lemma incrementChallenge_statement (id amount : Z) (l1 l2 : list ChallengeRow.t)
    (r : ChallengeRow.t) (next : Z) :
  DatabaseStorage.int4 id = true ->
  Forall (fun y => DatabaseStorage.idEq id y = false) l1 ->
  DatabaseStorage.idEq id r = true ->
  Forall (fun y => DatabaseStorage.idEq id y = false) l2 ->
  DatabaseStorage.incrementChallenge id amount (DatabaseStorage.mk (l1 ++ r :: l2) next)
  = if negb (DatabaseStorage.int4 amount) || DatabaseStorage.sumFails amount r
    then (DatabaseStorage.Thrown, DatabaseStorage.mk (l1 ++ r :: l2) next)
    else (DatabaseStorage.Returned (Some (DatabaseStorage.addAmount amount r)),
          DatabaseStorage.mk (l1 ++ DatabaseStorage.addAmount amount r :: l2) next).
Proof.
  intros Hid H1 Hr H2. unfold DatabaseStorage.incrementChallenge.
  cbn [DatabaseStorage.challenges DatabaseStorage.challenges_id_seq].
  rewrite Hid, (@filter_single _ (DatabaseStorage.idEq id) l1 l2 r H1 Hr H2).
  cbn [negb orb existsb]. rewrite orb_false_r.
  destruct (negb (DatabaseStorage.int4 amount) || DatabaseStorage.sumFails amount r);
    [reflexivity |].
  now rewrite (@sqlUpdate_single (DatabaseStorage.idEq id)
                 (DatabaseStorage.addAmount amount) l1 l2 r H1 Hr H2).
Qed.

(** X28. [DatabaseStorage.incrementChallenge] on a table with distinct
    ids.  An id or an amount that is no [integer] makes the call throw,
    the table as it was.  For an id and an amount that are: for an id no
    row has, the call
    returns nothing and the table is as it was; for the row with the id,
    when its [currentCount] is not NULL and the sum with the amount leaves
    the range of the [integer] column, the call throws and the table is
    as it was; otherwise it returns the updated row, whose [currentCount]
    is the old one plus the amount, or NULL when it was NULL, and every
    other column and every other row is as it was. *)
Theorem database_incrementChallenge (id amount : Z) (db : DatabaseStorage.t) :
  NoDup (map ChallengeRow.id (DatabaseStorage.challenges db)) ->
  (DatabaseStorage.int4 id = false \/ DatabaseStorage.int4 amount = false ->
   DatabaseStorage.incrementChallenge id amount db = (DatabaseStorage.Thrown, db)) /\
  (DatabaseStorage.int4 id = true ->
   DatabaseStorage.int4 amount = true ->
   ~ In id (map ChallengeRow.id (DatabaseStorage.challenges db)) ->
   DatabaseStorage.incrementChallenge id amount db = (DatabaseStorage.Returned None, db)) /\
  (forall r : ChallengeRow.t,
      DatabaseStorage.int4 id = true ->
      DatabaseStorage.int4 amount = true ->
      In r (DatabaseStorage.challenges db) ->
      ChallengeRow.id r = id ->
      (DatabaseStorage.sumFails amount r = true ->
       DatabaseStorage.incrementChallenge id amount db = (DatabaseStorage.Thrown, db)) /\
      (DatabaseStorage.sumFails amount r = false ->
       exists l1 l2 r' db',
         DatabaseStorage.challenges db = l1 ++ r :: l2 /\
         DatabaseStorage.incrementChallenge id amount db
         = (DatabaseStorage.Returned (Some r'), db') /\
         DatabaseStorage.challenges db' = l1 ++ r' :: l2 /\
         DatabaseStorage.challenges_id_seq db' = DatabaseStorage.challenges_id_seq db /\
         ChallengeRow.currentCount r'
         = option_map (fun n => n + amount) (ChallengeRow.currentCount r) /\
         ChallengeRow.id r' = ChallengeRow.id r /\
         ChallengeRow.title r' = ChallengeRow.title r /\
         ChallengeRow.prayerType r' = ChallengeRow.prayerType r /\
         ChallengeRow.totalTarget r' = ChallengeRow.totalTarget r /\
         ChallengeRow.isActive r' = ChallengeRow.isActive r /\
         ChallengeRow.createdAt r' = ChallengeRow.createdAt r)).
Proof.
  intros Hnd. split; [| split].
  - intros [Hi | Ha]; unfold DatabaseStorage.incrementChallenge.
    + now rewrite Hi.
    + rewrite Ha. cbn [negb]. now rewrite orb_true_r.
  - intros Hi Ha Habs. unfold DatabaseStorage.incrementChallenge, DatabaseStorage.sqlUpdate.
    pose proof (@absent_key _ ChallengeRow.id id _ Habs) as Hno.
    rewrite Hi, Ha, (@filter_none _ (DatabaseStorage.idEq id) _ Hno).
    cbn [negb orb existsb].
    rewrite (@map_cond_unchanged _ (DatabaseStorage.idEq id) _ _ Hno).
    now destruct db.
  - intros r Hi Ha Hin Hid.
    destruct (@split_at_row _ ChallengeRow.id r _ Hnd Hin) as (l1 & l2 & Hl & Hl1 & Hl2).
    rewrite Hid in Hl1, Hl2.
    assert (Hr : DatabaseStorage.idEq id r = true)
      by (unfold DatabaseStorage.idEq; now apply Z.eqb_eq).
    destruct db as [rows next].
    cbn [DatabaseStorage.challenges DatabaseStorage.challenges_id_seq] in *.
    subst rows. rewrite (@incrementChallenge_statement id amount l1 l2 r next Hi Hl1 Hr Hl2).
    rewrite Ha. cbn [negb orb].
    split.
    { intros F. now rewrite F. }
    intros F. rewrite F.
    exists l1, l2. eexists. eexists.
    split; [reflexivity |]. split; [reflexivity |].
    repeat split.
Qed.

Lemma database_incrementChallenge_witness :
  NoDup (map ChallengeRow.id (DatabaseStorage.challenges seededDatabase)) /\
  ((DatabaseStorage.int4 1 = false \/ DatabaseStorage.int4 4294967296 = false) /\
   DatabaseStorage.incrementChallenge 1 4294967296 seededDatabase
   = (DatabaseStorage.Thrown, seededDatabase)) /\
  (DatabaseStorage.int4 7 = true /\
   DatabaseStorage.int4 1 = true /\
   ~ In 7 (map ChallengeRow.id (DatabaseStorage.challenges seededDatabase)) /\
   DatabaseStorage.incrementChallenge 7 1 seededDatabase
   = (DatabaseStorage.Returned None, seededDatabase)) /\
  (exists r r',
     DatabaseStorage.int4 1 = true /\
     In r (DatabaseStorage.challenges seededDatabase) /\
     ChallengeRow.id r = 1 /\
     DatabaseStorage.sumFails 1 r = false /\
     fst (DatabaseStorage.incrementChallenge 1 1 seededDatabase)
     = DatabaseStorage.Returned (Some r') /\
     ChallengeRow.currentCount r = Some 42 /\
     ChallengeRow.currentCount r' = Some 43) /\
  (exists r,
     DatabaseStorage.int4 2147483647 = true /\
     In r (DatabaseStorage.challenges seededDatabase) /\
     ChallengeRow.id r = 1 /\
     DatabaseStorage.sumFails 2147483647 r = true /\
     DatabaseStorage.incrementChallenge 1 2147483647 seededDatabase
     = (DatabaseStorage.Thrown, seededDatabase)).
Proof.
  assert (Hnd : NoDup (map ChallengeRow.id (DatabaseStorage.challenges seededDatabase))).
  { simpl. repeat constructor. simpl. tauto. }
  assert (Habs : ~ In 7 (map ChallengeRow.id (DatabaseStorage.challenges seededDatabase))).
  { simpl. intros [H | []]. discriminate H. }
  assert (Hin : In (nth 0 (DatabaseStorage.challenges seededDatabase)
                      (ChallengeRow.mk 0 "" "" 0 None None None))
                   (DatabaseStorage.challenges seededDatabase))
    by (simpl; auto).
  split; [exact Hnd |]. split; [| split; [| split]].
  - split; [right; reflexivity |].
    exact (proj1 (@database_incrementChallenge 1 4294967296 seededDatabase Hnd)
             (or_intror eq_refl)).
  - split; [reflexivity |]. split; [reflexivity |]. split; [exact Habs |].
    exact (proj1 (proj2 (@database_incrementChallenge 7 1 seededDatabase Hnd))
             eq_refl eq_refl Habs).
  - eexists.
    destruct (proj2 (proj2 (proj2 (@database_incrementChallenge 1 1 seededDatabase Hnd))
                       _ eq_refl eq_refl Hin eq_refl) eq_refl)
      as (l1 & l2 & r' & db' & _ & E & _ & _ & Hc & _).
    exists r'. split; [reflexivity |].
    split; [exact Hin |]. split; [reflexivity |]. split; [reflexivity |].
    split; [now rewrite E |]. split; [reflexivity |].
    rewrite Hc. reflexivity.
  - eexists. split; [reflexivity |].
    split; [exact Hin |]. split; [reflexivity |]. split; [reflexivity |].
    exact (proj1 (proj2 (proj2 (@database_incrementChallenge 1 2147483647 seededDatabase Hnd))
                    _ eq_refl eq_refl Hin eq_refl) eq_refl).
Defined.

(** ** Concurrent increments *)

Lemma set_currentCount_twice (v w : option Z) (r : ChallengeRow.t) :
  ChallengeRow.set_currentCount v (ChallengeRow.set_currentCount w r)
  = ChallengeRow.set_currentCount v r.
Proof.
  reflexivity.
Qed.

Lemma int4_between (a b c : Z) :
  DatabaseStorage.int4 a = true -> DatabaseStorage.int4 c = true ->
  a <= b <= c -> DatabaseStorage.int4 b = true.
Proof.
  unfold DatabaseStorage.int4. intros Ha Hc Hb.
  apply andb_true_iff in Ha. apply andb_true_iff in Hc.
  destruct Ha as [Ha _], Hc as [_ Hc].
  apply Z.leb_le in Ha. apply Z.leb_le in Hc.
  apply andb_true_iff. split; apply Z.leb_le; lia.
Qed.

(** Increments of a challenge executed one after the other, however many
    and whichever their numbers. *)
Lemma incrementChallengeCalls_add (order : list nat) (id next : Z)
    (l1 l2 : list ChallengeRow.t) :
  DatabaseStorage.int4 id = true ->
  Forall (fun y => DatabaseStorage.idEq id y = false) l1 ->
  Forall (fun y => DatabaseStorage.idEq id y = false) l2 ->
  forall (r : ChallengeRow.t) (c : Z),
    DatabaseStorage.idEq id r = true ->
    ChallengeRow.currentCount r = Some c ->
    DatabaseStorage.int4 c = true ->
    DatabaseStorage.int4 (c + Z.of_nat (List.length order)) = true ->
    incrementChallengeCalls order id (DatabaseStorage.mk (l1 ++ r :: l2) next)
    = DatabaseStorage.mk
        (l1 ++ ChallengeRow.set_currentCount (Some (c + Z.of_nat (List.length order))) r
            :: l2) next.
Proof.
  intros Hi H1 H2. unfold incrementChallengeCalls.
  induction order as [| k order IH]; intros r c Hr Hc Hlo Hhi.
  - simpl. rewrite Z.add_0_r, <- Hc. now destruct r.
  - cbn [fold_left List.length] in *.
    rewrite (@incrementChallenge_statement id 1 l1 l2 r next Hi H1 Hr H2).
    assert (Hstep : DatabaseStorage.int4 (c + 1) = true).
    { apply (@int4_between c (c + 1) (c + Z.of_nat (S (List.length order))) Hlo Hhi). lia. }
    unfold DatabaseStorage.sumFails. rewrite Hc, Hstep.
    change (DatabaseStorage.int4 1) with true. cbn [negb orb snd].
    rewrite (IH (DatabaseStorage.addAmount 1 r) (c + 1)).
    + unfold DatabaseStorage.addAmount. rewrite set_currentCount_twice.
      replace (c + 1 + Z.of_nat (List.length order))
        with (c + Z.of_nat (S (List.length order))) by lia.
      reflexivity.
    + exact Hr.
    + unfold DatabaseStorage.addAmount. simpl. now rewrite Hc.
    + exact Hstep.
    + replace (c + 1 + Z.of_nat (List.length order))
        with (c + Z.of_nat (S (List.length order))) by lia.
      exact Hhi.
Qed.

Lemma namedColumn_withNamedColumn (type : string) (v : option Z) (r : IntentionRow.t) :
  DatabaseIntentions.namedColumn type (withNamedColumn type v r) = v.
Proof.
  unfold DatabaseIntentions.namedColumn, withNamedColumn.
  now destruct (String.eqb type "hailMary"), (String.eqb type "ourFather").
Qed.

Lemma withNamedColumn_twice (type : string) (v w : option Z) (r : IntentionRow.t) :
  withNamedColumn type v (withNamedColumn type w r) = withNamedColumn type v r.
Proof.
  unfold withNamedColumn.
  now destruct (String.eqb type "hailMary"), (String.eqb type "ourFather").
Qed.

Lemma withNamedColumn_same (type : string) (r : IntentionRow.t) :
  withNamedColumn type (DatabaseIntentions.namedColumn type r) r = r.
Proof.
  unfold DatabaseIntentions.namedColumn, withNamedColumn.
  destruct (String.eqb type "hailMary"), (String.eqb type "ourFather"); now destruct r.
Qed.

Lemma updateSet_withNamedColumn (type : string) (r : IntentionRow.t) :
  DatabaseIntentions.updateSet type r
  = withNamedColumn type
      (DatabaseIntentions.plusOne (DatabaseIntentions.namedColumn type r)) r.
Proof.
  unfold DatabaseIntentions.updateSet, DatabaseIntentions.namedColumn, withNamedColumn.
  now destruct (String.eqb type "hailMary"), (String.eqb type "ourFather").
Qed.

Lemma idEq_withNamedColumn (id : Z) (type : string) (v : option Z) (r : IntentionRow.t) :
  DatabaseIntentions.idEq id (withNamedColumn type v r) = DatabaseIntentions.idEq id r.
Proof.
  unfold withNamedColumn.
  now destruct (String.eqb type "hailMary"), (String.eqb type "ourFather").
Qed.

(** Prayers on an intention executed one after the other, however many
    and whichever their numbers. *)
Lemma prayCalls_add (order : list nat) (id next : Z) (type : string)
    (l1 l2 : list IntentionRow.t) :
  DatabaseStorage.int4 id = true ->
  Forall (fun y => DatabaseIntentions.idEq id y = false) l1 ->
  Forall (fun y => DatabaseIntentions.idEq id y = false) l2 ->
  forall (r : IntentionRow.t) (c : Z),
    DatabaseIntentions.idEq id r = true ->
    DatabaseIntentions.namedColumn type r = Some c ->
    DatabaseStorage.int4 c = true ->
    DatabaseStorage.int4 (c + Z.of_nat (List.length order)) = true ->
    prayCalls order id type (DatabaseIntentions.mk (l1 ++ r :: l2) next)
    = DatabaseIntentions.mk
        (l1 ++ withNamedColumn type (Some (c + Z.of_nat (List.length order))) r :: l2) next.
Proof.
  intros Hi H1 H2. unfold prayCalls.
  induction order as [| k order IH]; intros r c Hr Hc Hlo Hhi.
  - simpl. rewrite Z.add_0_r, <- Hc. now rewrite withNamedColumn_same.
  - cbn [fold_left List.length] in *.
    rewrite (@pray_statement id type l1 l2 r next Hi H1 Hr H2).
    assert (Hstep : DatabaseStorage.int4 (c + 1) = true).
    { apply (@int4_between c (c + 1) (c + Z.of_nat (S (List.length order))) Hlo Hhi). lia. }
    unfold DatabaseIntentions.plusOneFails. rewrite Hc, Hstep. cbn [negb snd].
    rewrite updateSet_withNamedColumn, Hc. cbn [DatabaseIntentions.plusOne].
    rewrite (IH (withNamedColumn type (Some (c + 1)) r) (c + 1)).
    + rewrite withNamedColumn_twice.
      replace (c + 1 + Z.of_nat (List.length order))
        with (c + Z.of_nat (S (List.length order))) by lia.
      reflexivity.
    + now rewrite idEq_withNamedColumn.
    + apply namedColumn_withNamedColumn.
    + exact Hstep.
    + replace (c + 1 + Z.of_nat (List.length order))
        with (c + Z.of_nat (S (List.length order))) by lia.
      exact Hhi.
Qed.

(** C3, as stated, fails: 100 concurrent increments of a challenge whose
    counter is 2147483600 leave it at 2147483647, not at 2147483700.  The
    first 47 calls add one each; the 48th and every later one throws,
    because the sum leaves the range of the [integer] column, and leaves
    the counter as it is. *)
Lemma concurrent_increments_stop_at_the_column_limit :
  map ChallengeRow.currentCount (DatabaseStorage.challenges nearlyFullDatabase)
  = [Some 2147483600] /\
  map ChallengeRow.currentCount
    (DatabaseStorage.challenges (incrementChallengeCalls (seq 0 100) 1 nearlyFullDatabase))
  = [Some 2147483647] /\
  2147483647 <> 2147483600 + 100 /\
  DatabaseStorage.incrementChallenge 1 1
    (incrementChallengeCalls (seq 0 47) 1 nearlyFullDatabase)
  = (DatabaseStorage.Thrown, incrementChallengeCalls (seq 0 47) 1 nearlyFullDatabase).
Proof.
  split; [reflexivity |]. split; [vm_compute; reflexivity |].
  split; [intros H; discriminate H | vm_compute; reflexivity].
Qed.

(** C3, amended.  Each increment is one UPDATE statement, which the
    database executes as a whole, so [N] concurrent calls are executed in
    some order of their numbers.  On a table with distinct ids, for a row
    whose id is an [integer] and whose counter is not NULL, when the
    initial value and the initial value plus [N] are inside the range of
    the [integer] column: [N]
    concurrent [incrementChallenge(id, 1)], in whichever order they are
    executed, leave [currentCount] at the initial value plus [N], and [N]
    concurrent [incrementIntentionPrayer(id, type)] leave the counter the
    type names at the initial value plus [N]; every other column of the
    row, every other row and the sequence stay as they were. *)
Theorem concurrent_increments_add_their_number (N : nat) (order : list nat) :
  Permutation order (seq 0 N) ->
  (forall (id c : Z) (db : DatabaseStorage.t) (r : ChallengeRow.t),
      NoDup (map ChallengeRow.id (DatabaseStorage.challenges db)) ->
      In r (DatabaseStorage.challenges db) ->
      ChallengeRow.id r = id ->
      DatabaseStorage.int4 id = true ->
      ChallengeRow.currentCount r = Some c ->
      DatabaseStorage.int4 c = true ->
      DatabaseStorage.int4 (c + Z.of_nat N) = true ->
      exists l1 l2,
        DatabaseStorage.challenges db = l1 ++ r :: l2 /\
        incrementChallengeCalls order id db
        = DatabaseStorage.mk
            (l1 ++ ChallengeRow.set_currentCount (Some (c + Z.of_nat N)) r :: l2)
            (DatabaseStorage.challenges_id_seq db)) /\
  (forall (id c : Z) (type : string) (db : DatabaseIntentions.t) (r : IntentionRow.t),
      NoDup (map IntentionRow.id (DatabaseIntentions.intentions db)) ->
      In r (DatabaseIntentions.intentions db) ->
      IntentionRow.id r = id ->
      DatabaseStorage.int4 id = true ->
      DatabaseIntentions.namedColumn type r = Some c ->
      DatabaseStorage.int4 c = true ->
      DatabaseStorage.int4 (c + Z.of_nat N) = true ->
      exists l1 l2,
        DatabaseIntentions.intentions db = l1 ++ r :: l2 /\
        prayCalls order id type db
        = DatabaseIntentions.mk
            (l1 ++ withNamedColumn type (Some (c + Z.of_nat N)) r :: l2)
            (DatabaseIntentions.intentions_id_seq db)).
Proof.
  intros Hperm.
  assert (Hlen : List.length order = N).
  { rewrite (Permutation_length Hperm). apply length_seq. }
  split.
  - intros id c db r Hnd Hin Hid Hi Hc Hlo Hhi.
    destruct (@split_at_row _ ChallengeRow.id r _ Hnd Hin) as (l1 & l2 & Hl & Hl1 & Hl2).
    rewrite Hid in Hl1, Hl2.
    assert (Hr : DatabaseStorage.idEq id r = true)
      by (unfold DatabaseStorage.idEq; now apply Z.eqb_eq).
    exists l1, l2. split; [exact Hl |].
    destruct db as [rows next].
    cbn [DatabaseStorage.challenges DatabaseStorage.challenges_id_seq] in *.
    subst rows. rewrite <- Hlen in *.
    now apply incrementChallengeCalls_add.
  - intros id c type db r Hnd Hin Hid Hi Hc Hlo Hhi.
    destruct (@split_at_row _ IntentionRow.id r _ Hnd Hin) as (l1 & l2 & Hl & Hl1 & Hl2).
    rewrite Hid in Hl1, Hl2.
    assert (Hr : DatabaseIntentions.idEq id r = true)
      by (unfold DatabaseIntentions.idEq; now apply Z.eqb_eq).
    exists l1, l2. split; [exact Hl |].
    destruct db as [rows next].
    cbn [DatabaseIntentions.intentions DatabaseIntentions.intentions_id_seq] in *.
    subst rows. rewrite <- Hlen in *.
    now apply prayCalls_add.
Qed.

Lemma concurrent_increments_add_their_number_witness :
  Permutation (rev (seq 0 100)) (seq 0 100) /\
  NoDup (map ChallengeRow.id (DatabaseStorage.challenges seededDatabase)) /\
  (exists r,
     In r (DatabaseStorage.challenges seededDatabase) /\
     ChallengeRow.id r = 1 /\
     DatabaseStorage.int4 1 = true /\
     ChallengeRow.currentCount r = Some 42 /\
     DatabaseStorage.int4 42 = true /\
     DatabaseStorage.int4 (42 + Z.of_nat 100) = true /\
     map ChallengeRow.currentCount
       (DatabaseStorage.challenges
          (incrementChallengeCalls (rev (seq 0 100)) 1 seededDatabase))
     = [Some 142]) /\
  NoDup (map IntentionRow.id (DatabaseIntentions.intentions seededIntentionTable)) /\
  (exists r,
     In r (DatabaseIntentions.intentions seededIntentionTable) /\
     IntentionRow.id r = 2 /\
     DatabaseStorage.int4 2 = true /\
     DatabaseIntentions.namedColumn "hailMary" r = Some 12 /\
     DatabaseStorage.int4 12 = true /\
     DatabaseStorage.int4 (12 + Z.of_nat 100) = true /\
     map IntentionRow.hailMaryCount
       (DatabaseIntentions.intentions
          (prayCalls (rev (seq 0 100)) 2 "hailMary" seededIntentionTable))
     = [Some 5; Some 112]).
Proof.
  assert (Hperm : Permutation (rev (seq 0 100)) (seq 0 100))
    by (apply Permutation_sym, Permutation_rev).
  assert (Hnd : NoDup (map ChallengeRow.id (DatabaseStorage.challenges seededDatabase))).
  { simpl. repeat constructor. simpl. tauto. }
  assert (Hin : In (nth 0 (DatabaseStorage.challenges seededDatabase)
                      (ChallengeRow.mk 0 "" "" 0 None None None))
                   (DatabaseStorage.challenges seededDatabase))
    by (simpl; auto).
  assert (Hin' : In (nth 1 (DatabaseIntentions.intentions seededIntentionTable)
                       (IntentionRow.mk 0 "" None None None None None None None))
                    (DatabaseIntentions.intentions seededIntentionTable))
    by (simpl; auto).
  split; [exact Hperm |]. split; [exact Hnd |].
  split; [| split; [exact seededIntentionTable_ids |]].
  - eexists. split; [exact Hin |].
    split; [reflexivity |]. split; [reflexivity |]. split; [reflexivity |].
    split; [reflexivity |]. split; [reflexivity |].
    destruct (proj1 (@concurrent_increments_add_their_number 100 (rev (seq 0 100)) Hperm)
                1 42 seededDatabase _ Hnd Hin eq_refl eq_refl eq_refl eq_refl eq_refl)
      as (l1 & l2 & Hl & E).
    rewrite E. cbn [DatabaseStorage.challenges].
    destruct l1 as [| x l1]; [| destruct l1; discriminate Hl].
    destruct l2; [reflexivity | discriminate Hl].
  - eexists. split; [exact Hin' |].
    split; [reflexivity |]. split; [reflexivity |]. split; [reflexivity |].
    split; [reflexivity |]. split; [reflexivity |].
    destruct (proj2 (@concurrent_increments_add_their_number 100 (rev (seq 0 100)) Hperm)
                2 12 "hailMary" seededIntentionTable _ seededIntentionTable_ids
                Hin' eq_refl eq_refl eq_refl eq_refl eq_refl)
      as (l1 & l2 & Hl & E).
    rewrite E. cbn [DatabaseIntentions.intentions].
    destruct l1 as [| x l1]; [discriminate Hl |].
    destruct l1 as [| y l1]; [| destruct l1; discriminate Hl].
    destruct l2; [| discriminate Hl].
    injection Hl as Hx. subst x. reflexivity.
Defined.
